(** * Retrieval-augmented query pipeline: a shallow embedding

    The development follows the Python sources file by file:
    - [PyStr]            the [str] methods the sources rely on
                         ([lower], [strip], [split], [join], [len]);
    - [PyNum]            the numbers of the confidence score;
    - [Effects]          exceptions and provider calls as a small monad;
    - [Main]             [main.py], the [/query] endpoint;
    - [EmbeddingService] [services/embedding_service.py] (token windows);
    - [SimpleUpload]     [simple_upload.py] (ingestion driver);
    - [RAGService]       [services/rag_service.py], the service-level query;
    - [Spec]             the words of the specification (mean, rounding);
    - [Doubles]          collaborators to run the pipeline on examples.

    Conventions.  A Python [str] is a Rocq [string] whose characters are the
    code points 0..255; [int] is [Z]; a similarity score, a Python [float],
    is a finite double given by its exact value in [Q], and every float
    operation rounds its exact result to the nearest double, or gives an
    infinity beyond the range of the doubles; a [dict] read
    in insertion order is an association list. *)

From Stdlib Require Import List ZArith QArith Qabs Qpower String Ascii Bool.
From Stdlib Require Import Lia Lqa.
From Stdlib Require Import DecimalString.
From Stdlib Require DecimalPos.
Import ListNotations.

Local Open Scope string_scope.
Local Open Scope list_scope.

(* ===================================================================== *)
(** ** Python strings *)
(* ===================================================================== *)

Module PyStr.

Definition code (c : ascii) : nat := nat_of_ascii c.

(** [str.isspace] on one code point below 256: TAB..CR, FS..US, SPACE,
    NEL (0x85) and NBSP (0xA0). *)
Definition is_space (c : ascii) : bool :=
  let n := code c in
  ((9 <=? n) && (n <=? 13) || (28 <=? n) && (n <=? 32)
   || (n =? 133) || (n =? 160))%nat.

(** [str.lower] on one code point below 256: A..Z and the Latin-1
    capitals 0xC0..0xDE (the multiplication sign 0xD7 is not a letter). *)
Definition lower_char (c : ascii) : ascii :=
  let n := code c in
  if ((65 <=? n) && (n <=? 90)
      || (192 <=? n) && (n <=? 222) && negb (n =? 215))%nat
  then ascii_of_nat (n + 32) else c.

Fixpoint lower (s : string) : string :=
  match s with
  | EmptyString => EmptyString
  | String c s' => String (lower_char c) (lower s')
  end.

Fixpoint lstrip (s : string) : string :=
  match s with
  | EmptyString => EmptyString
  | String c s' => if is_space c then lstrip s' else s
  end.

Fixpoint rstrip (s : string) : string :=
  match s with
  | EmptyString => EmptyString
  | String c s' =>
      match rstrip s' with
      | EmptyString => if is_space c then EmptyString else String c EmptyString
      | r => String c r
      end
  end.

(** [s.strip()] *)
Definition strip (s : string) : string := rstrip (lstrip s).

(** [len(s)] *)
Definition len (s : string) : Z := Z.of_nat (String.length s).

(** [sep.join(parts)] *)
Fixpoint join (sep : string) (parts : list string) : string :=
  match parts with
  | [] => ""
  | [p] => p
  | p :: ps => p ++ sep ++ join sep ps
  end.

(** [s.split()]: maximal runs of non-space characters.  [cur] is the word
    being read. *)
Fixpoint split_go (cur : string) (s : string) : list string :=
  match s with
  | EmptyString => if String.eqb cur "" then [] else [cur]
  | String c s' =>
      if is_space c
      then (if String.eqb cur "" then split_go "" s'
            else cur :: split_go "" s')
      else split_go (cur ++ String c EmptyString) s'
  end.

Definition split (s : string) : list string := split_go "" s.

(** [str(n)] for an [int]. *)
Definition str_of_Z (n : Z) : string := NilZero.string_of_int (Z.to_int n).

(** [x in xs] for a list of strings. *)
Definition mem (x : string) (xs : list string) : bool :=
  existsb (String.eqb x) xs.

(** A word: not empty and free of white space. *)
Fixpoint no_space (s : string) : Prop :=
  match s with
  | EmptyString => True
  | String c s' => is_space c = false /\ no_space s'
  end.

Definition is_word (s : string) : Prop := s <> "" /\ no_space s.

End PyStr.

(* ===================================================================== *)
(** ** Python numbers and JSON-like values *)
(* ===================================================================== *)

Module PyNum.

(** A Python number: an [int] or a [float].  A float is a double: a finite
    one, given by its exact value (its two zeros are one value here), or an
    infinity.  No operation of the sources yields a NaN from finite
    scores. *)
Inductive pynum : Type :=
| PInt (z : Z)
| PFloat (q : Q)
| PInf (negative : bool).

(** The exact value of a number; an infinity is given the magnitude
    [2 ^ 1024], which is above every double. *)
Definition num_val (x : pynum) : Q :=
  match x with
  | PInt z => inject_Z z
  | PFloat q => q
  | PInf negative => if negative then - 2 ^ 1024 else 2 ^ 1024
  end.

(** Nearest integer, ties to the even neighbour. *)
Definition round_half_even (q : Q) : Z :=
  let n := Qnum q in
  let d := Zpos (Qden q) in
  let f := (n / d)%Z in
  match (2 * (n mod d) ?= d)%Z with
  | Lt => f
  | Gt => (f + 1)%Z
  | Eq => if Z.even f then f else (f + 1)%Z
  end.

(** [floor(log2(|q|))] for [q <> 0]. *)
Definition ilog2 (q : Q) : Z :=
  let e0 := (Z.log2 (Z.abs (Qnum q)) - Z.log2 (Zpos (Qden q)))%Z in
  if Qle_bool (2 ^ e0) (Qabs q) then e0 else (e0 - 1)%Z.

(** The exponent of the unit in the last place of the doubles around [q]:
    52 below the exponent of [q], and -1074 for a subnormal. *)
Definition ulp_exponent (q : Q) : Z := (Z.max (ilog2 q) (-1022) - 52)%Z.

(** The double nearest to [q], ties to the even significand, for [q]
    within the range of the doubles. *)
Definition to_double (q : Q) : Q :=
  let x := ulp_exponent q in
  inject_Z (round_half_even (q / 2 ^ x)) * 2 ^ x.

(** The result of a float operation whose exact result is [q]: the nearest
    double, or an infinity when the rounded magnitude reaches [2 ^ 1024]. *)
Definition float_of (q : Q) : pynum :=
  let r := to_double q in
  if Qle_bool (2 ^ 1024) (Qabs r) then PInf (Qle_bool r 0) else PFloat r.

(** [acc + x] for a finite float [x] and a float [acc], or the [int] 0
    that [sum] starts from (an [int] below [2 ^ 53] is a float of the same
    value). *)
Definition fadd (acc : pynum) (x : Q) : pynum :=
  match acc with
  | PInt z => float_of (inject_Z z + x)
  | PFloat a => float_of (a + x)
  | PInf negative => PInf negative
  end.

(** [a / n] for a float [a] and a positive [int] [n], which is converted
    to a float first: the quotient is no larger than [a], and an infinity
    stays one. *)
Definition fdiv (a : pynum) (n : Z) : pynum :=
  match a with
  | PInt z => float_of (inject_Z z / to_double (inject_Z n))
  | PFloat q => float_of (q / to_double (inject_Z n))
  | PInf negative => PInf negative
  end.

(** [round(x, 2)]: an [int] and an infinity are returned unchanged; a
    finite [float] is brought to the hundredth nearest to its exact value,
    ties to the even hundredth, and the result is the double nearest to
    that decimal. *)
Definition round2 (x : pynum) : pynum :=
  match x with
  | PInt z => PInt z
  | PFloat q => float_of (round_half_even (q * 100) # 100)
  | PInf negative => PInf negative
  end.

(** [sum(xs)] over floats: starts from the [int] 0 and adds left to right,
    each addition rounded (the built-in [sum] of CPython up to 3.11; from
    3.12 on it carries a compensation term through the loop). *)
Definition sum (xs : list Q) : pynum := fold_left fadd xs (PInt 0).

(** [sum(s for s in xs) / len(xs) if xs else 0] *)
Definition avg_score (xs : list Q) : pynum :=
  match xs with
  | [] => PInt 0
  | _ :: _ => fdiv (sum xs) (Z.of_nat (List.length xs))
  end.

(** A payload value as the index stores it. *)
Inductive pyval : Type :=
| VStr (s : string)
| VInt (z : Z).

(** Formatting inside an f-string. *)
Definition fmt (v : pyval) : string :=
  match v with
  | VStr s => s
  | VInt z => PyStr.str_of_Z z
  end.

(** Truth value in an [if]. *)
Definition truthy (v : pyval) : bool :=
  match v with
  | VStr s => negb (String.eqb s "")
  | VInt z => negb (z =? 0)%Z
  end.

Definition payload := list (string * pyval).

(** [payload.get(key, default)] *)
Fixpoint payload_get (p : payload) (key : string) (default : pyval) : pyval :=
  match p with
  | [] => default
  | (k, v) :: p' => if String.eqb k key then v else payload_get p' key default
  end.

(** [{k: v for k, v in payload.items() if k != "text"}] *)
Definition without_text (p : payload) : payload :=
  filter (fun kv => negb (String.eqb (fst kv) "text")) p.

(** A hit of the vector index ([ScoredPoint]). *)
Record ScoredPoint : Type := {
  hit_id : string;
  hit_score : Q;
  hit_payload : payload
}.

(** One entry of the ["sources"] list of the response. *)
Record source : Type := {
  src_id : string;
  src_score : Q;
  src_text : pyval;
  src_metadata : payload
}.

(** The dictionary a query returns. *)
Record response : Type := {
  answer : string;
  sources : list source;
  confidence : pynum
}.

End PyNum.

(* ===================================================================== *)
(** ** Exceptions and provider calls *)
(* ===================================================================== *)

Module Effects.

(** The exceptions of class [Exception], which [except Exception] catches.
    A cancellation of the running task ([asyncio.CancelledError], a
    [BaseException]) is not one of them and is outside the model. *)
Inductive exn : Type :=
| Exception (msg : string)
| HTTPException (status_code : Z) (detail : string).

(** [str(e)] *)
Definition str_exn (e : exn) : string :=
  match e with
  | Exception msg => msg
  | HTTPException c d => PyStr.str_of_Z c ++ ": " ++ d
  end.

Inductive result (A : Type) : Type :=
| Ok (a : A)
| Raise (e : exn).
Arguments Ok {A} a.
Arguments Raise {A} e.

(** One entry per call that leaves the process. *)
Inductive call : Type :=
| ReadText (file : string)
| EmbeddingsCreate (model input : string)
| QueryPoints (collection : string) (limit : option Z)
| Search (collection : string) (limit : Z)
| GenerateContent (prompt : string)
| ChatCompletion (system_prompt user_prompt : string)
| Upsert (collection : string) (points : nat)
| GetCollection (collection : string).

Section Monad.
Context {W : Type}.

(** The collaborators' own state [ext] and the log of calls made so far. *)
Record world : Type := { ext : W; calls : list call }.

Definition M (A : Type) : Type := world -> result A * world.

Definition ret {A} (a : A) : M A := fun s => (Ok a, s).

Definition bind {A B} (m : M A) (k : A -> M B) : M B :=
  fun s => match m s with
           | (Ok a, s') => k a s'
           | (Raise e, s') => (Raise e, s')
           end.

Definition raise {A} (e : exn) : M A := fun s => (Raise e, s).

(** [try: m  except Exception as e: h e] *)
Definition try_except {A} (m : M A) (h : exn -> M A) : M A :=
  fun s => match m s with
           | (Ok a, s') => (Ok a, s')
           | (Raise e, s') => h e s'
           end.

(** A call to a collaborator: logged, then answered by its oracle. *)
Definition provider {A} (c : call) (oracle : W -> result A * W) : M A :=
  fun s => let (r, w') := oracle (ext s) in
           (r, {| ext := w'; calls := calls s ++ [c] |}).

(** A local effect that is not a provider call (random ids). *)
Definition local_effect {A} (f : W -> A * W) : M A :=
  fun s => let (a, w') := f (ext s) in
           (Ok a, {| ext := w'; calls := calls s |}).

End Monad.
Arguments world : clear implicits.
Arguments M : clear implicits.

Declare Scope monad_scope.
Delimit Scope monad_scope with monad.
Notation "x <- m ;; k" := (bind m (fun x => k))
  (at level 61, m at next level, right associativity) : monad_scope.

End Effects.

Module Files.
Import Effects.

(** A call to the file system or to a local service: answered by its
    oracle, which may raise; it is not a provider call and leaves the log as
    it is. *)
Definition fs {W A : Type} (oracle : W -> result A * W) : M W A :=
  fun s => let (r, w') := oracle (ext s) in
           (r, {| ext := w'; calls := calls s |}).

End Files.

(* ===================================================================== *)
(** ** [main.py]: the [/query] endpoint *)
(* ===================================================================== *)

Module Main.
Import PyNum Effects.
Local Open Scope monad_scope.

Record QueryRequest : Type := {
  question : string;
  max_results : option Z;
  selected_text : option string
}.

Record generation_config : Type := {
  temperature : Q;
  max_output_tokens : Z
}.

Definition vague_inputs : list string :=
  ["hi"; "hello"; "hey"; "ji"; "yes"; "no"; "ok"; "okay"; "thanks";
   "thank you"].

Definition greeting : string :=
  "Hello! I'm your AI assistant for the Physical AI & Humanoid Robotics Lab textbook. What would you like to learn about? You can ask me about ROS 2, Gazebo simulation, Isaac Sim, humanoid robotics, or hardware setup.".

Definition nl : string := String (ascii_of_nat 10) "".
Definition dq : string := String (ascii_of_nat 34) "".

Definition system_prompt : string :=
  "You are an expert AI assistant for the Physical AI & Humanoid Robotics Lab textbook." ++ nl ++
  "Your role is to help students learn about robotics, ROS 2, simulation, and AI control systems based on the textbook content." ++ nl ++
  nl ++
  "Guidelines:" ++ nl ++
  "- Answer based ONLY on the provided context from the textbook." ++ nl ++
  "- Be precise, technical, and educational." ++ nl ++
  "- If the context doesn't contain relevant information, say: " ++ dq ++
  "I don't have specific information about that in the textbook. Could you ask about ROS 2, Gazebo, Isaac Sim, or hardware setup?" ++ dq ++ nl ++
  "- Use clear, conversational language." ++ nl ++
  "- Cite specific information from the context where appropriate." ++ nl ++
  "- Keep answers focused and relevant to the question.".

Definition user_prompt (context q : string) : string :=
  "Context from the textbook:" ++ nl ++ context ++ nl ++ nl ++
  "Question: " ++ q ++ nl ++ nl ++
  "Please provide a detailed answer based on the context above.".

(** [f"[{module} - {file_name}]" if module else ""] *)
Definition source_info (p : payload) : string :=
  let module_ := payload_get p "module" (VStr "") in
  let file_name := payload_get p "file" (VStr "") in
  if truthy module_ then "[" ++ fmt module_ ++ " - " ++ fmt file_name ++ "]"
  else "".

Definition context_part (i : Z) (hit : ScoredPoint) : string :=
  "[Source " ++ PyStr.str_of_Z i ++ " " ++ source_info (hit_payload hit)
  ++ "]: " ++ fmt (payload_get (hit_payload hit) "text" (VStr "")).

Definition to_source (hit : ScoredPoint) : source :=
  {| src_id := hit_id hit;
     src_score := hit_score hit;
     src_text := payload_get (hit_payload hit) "text" (VStr "");
     src_metadata := without_text (hit_payload hit) |}.

(** The context parts of the hits numbered from [i], in closed form. *)
Fixpoint context_parts_from (i : Z) (hits : list ScoredPoint) : list string :=
  match hits with
  | [] => []
  | hit :: rest => context_part i hit :: context_parts_from (i + 1) rest
  end.

(** The loop [for i, hit in enumerate(search_results, 1)], which appends to
    [sources] and [context_parts]. *)
Fixpoint build_context (i : Z) (hits : list ScoredPoint)
    (srcs : list source) (context_parts : list string)
  : list source * list string :=
  match hits with
  | [] => (srcs, context_parts)
  | hit :: rest =>
      build_context (i + 1) rest (srcs ++ [to_source hit])
        (context_parts ++ [context_part i hit])
  end.

(** The [if request.selected_text:] branch: [None] and the empty string
    leave the context as it is. *)
Definition with_selected_text (sel : option string) (context : string)
  : string :=
  match sel with
  | Some s =>
      if String.eqb s "" then context
      else "Selected Text by User:" ++ nl ++ s ++ nl ++ nl
           ++ "Relevant Textbook Content:" ++ nl ++ context
  | None => context
  end.

(** The prompt sent to the generation provider: the system prompt, a blank
    line, and the user prompt built around the context. *)
Definition combined_prompt (request : QueryRequest)
    (context_parts : list string) : string :=
  let context :=
    with_selected_text (selected_text request)
      (PyStr.join (nl ++ nl) context_parts) in
  system_prompt ++ nl ++ nl ++ user_prompt context (question request).

(** [request.question.lower().strip() in vague_inputs] *)
Definition is_vague (q : string) : bool :=
  PyStr.mem (PyStr.strip (PyStr.lower q)) vague_inputs.

Section Query.
Variable W : Type.
Variable vector : Type.
(** [openai_client.embeddings.create(model, input).data[0].embedding] *)
Variable embeddings_create :
  string -> string -> W -> result vector * W.
(** [qdrant_client.query_points(collection_name, query, limit).points] *)
Variable query_points :
  string -> vector -> option Z -> W -> result (list ScoredPoint) * W.
(** [gemini_model.generate_content(prompt, generation_config).text] *)
Variable generate_content :
  string -> generation_config -> W -> result string * W.
Variable COLLECTION_NAME : string.
Variable config : generation_config.

(** The body of the [try] block. *)
Definition query_body (request : QueryRequest) : M W response :=
  if is_vague (question request) then
    ret {| answer := greeting; sources := []; confidence := PFloat 1 |}
  else
    question_embedding <-
      provider (EmbeddingsCreate "text-embedding-3-small" (question request))
        (embeddings_create "text-embedding-3-small" (question request)) ;;
    search_results <-
      provider (QueryPoints COLLECTION_NAME (max_results request))
        (query_points COLLECTION_NAME question_embedding
           (max_results request)) ;;
    let '(srcs, context_parts) := build_context 1 search_results [] [] in
    let prompt := combined_prompt request context_parts in
    text <-
      provider (GenerateContent prompt) (generate_content prompt config) ;;
    ret {| answer := text;
           sources := srcs;
           confidence := round2 (avg_score (map src_score srcs)) |}.

(** [query_chatbot]: any exception of the body becomes an HTTP 500 whose
    detail is the text of the cause. *)
Definition query_chatbot (request : QueryRequest) : M W response :=
  try_except (query_body request)
    (fun e => raise (HTTPException 500 (str_exn e))).

End Query.

End Main.

(* ===================================================================== *)
(** ** [services/embedding_service.py]: token windows with overlap *)
(* ===================================================================== *)

Module EmbeddingService.
Import Effects.
Local Open Scope Z_scope.

(** The fields [__init__] reads from the environment. *)
Record EmbeddingService : Type := {
  model : string;
  chunk_size : Z;
  chunk_overlap : Z
}.

(** [__init__]: each setting is the value of its environment variable when
    it is set, else the default.  Nothing is checked. *)
Definition init (EMBEDDING_MODEL : option string)
    (CHUNK_SIZE CHUNK_OVERLAP : option Z) : EmbeddingService :=
  {| model := match EMBEDDING_MODEL with
              | Some m => m
              | None => "text-embedding-3-small"
              end;
     chunk_size := match CHUNK_SIZE with Some n => n | None => 1000 end;
     chunk_overlap := match CHUNK_OVERLAP with Some n => n | None => 200 end |}.

(** An index of a slice brought into [0, n]: a negative index counts from
    the end. *)
Definition clamp (n i : Z) : Z :=
  if i <? 0 then Z.max 0 (i + n) else Z.min i n.

(** [l[start:stop]] *)
Definition slice {A : Type} (l : list A) (start stop : Z) : list A :=
  let n := Z.of_nat (List.length l) in
  let lo := clamp n start in
  let hi := clamp n stop in
  firstn (Z.to_nat (hi - lo)) (skipn (Z.to_nat lo) l).

Section Chunker.
Variable token : Type.
Variable B : Type.
(** [encoding.decode] (or the identity, to read the windows themselves). *)
Variable decode : list token -> B.

(** The [while start < len(tokens)] loop.  [None]: the loop is still
    running when the fuel is used up. *)
Fixpoint chunk_loop (self : EmbeddingService) (tokens : list token)
    (fuel : nat) (start : Z) (chunks : list B) : option (list B) :=
  if start <? Z.of_nat (List.length tokens) then
    match fuel with
    | O => None
    | S fuel' =>
        let end_ := start + chunk_size self in
        let chunk_tokens := slice tokens start end_ in
        chunk_loop self tokens fuel' (end_ - chunk_overlap self)
          (chunks ++ [decode chunk_tokens])
    end
  else Some chunks.

End Chunker.

(** The token windows the loop cuts, before decoding. *)
Definition chunk_tokens {token : Type} (self : EmbeddingService)
    (tokens : list token) (fuel : nat) : option (list (list token)) :=
  chunk_loop token (list token) (fun w => w) self tokens fuel 0 [].

Section ChunkText.
Variable token : Type.
(** [tiktoken.encoding_for_model("gpt-4")] *)
Variable encode : string -> list token.
Variable decode : list token -> string.

(** [chunk_text]: the method has no [raise]; it returns its chunks or is
    still looping. *)
Definition chunk_text (self : EmbeddingService) (text : string) (fuel : nat)
  : option (result (list string)) :=
  option_map Ok (chunk_loop token string decode self (encode text) fuel 0 []).

End ChunkText.

Section Construction.
Variable W : Type.
(** [os.getenv(name)] *)
Variable environ : string -> option string.
(** [int(s)] on a string: a [ValueError] when [s] is no integer literal. *)
Variable int : string -> result Z.
(** [AsyncOpenAI(api_key=...)]: the client library may refuse the key. *)
Variable new_client : option string -> W -> result unit * W.

Local Open Scope monad_scope.

(** [int(os.getenv(name, default))], the default being an [int] already. *)
Definition int_setting (name : string) (default : Z) : M W Z :=
  match environ name with
  | Some s => match int s with
              | Ok n => ret n
              | Raise e => raise e
              end
  | None => ret default
  end.

(** [__init__], statement by statement: the client, the model and the two
    window settings.  No setting is compared with another. *)
Definition construct : M W EmbeddingService :=
  _ <- Files.fs (new_client (environ "OPENAI_API_KEY")) ;;
  let model := match environ "EMBEDDING_MODEL" with
               | Some m => m
               | None => "text-embedding-3-small"
               end in
  chunk_size <- int_setting "CHUNK_SIZE" 1000 ;;
  chunk_overlap <- int_setting "CHUNK_OVERLAP" 200 ;;
  ret {| model := model;
         chunk_size := chunk_size;
         chunk_overlap := chunk_overlap |}.

End Construction.

Section Tokenizer.
Variable W : Type.
Variable token : Type.
(** [tiktoken.encoding_for_model("gpt-4")]: the vocabulary is loaded on
    first use, which may raise. *)
Variable encoding_for_model : string -> W -> result unit * W.
(** [encoding.encode(text)]: raises on a text that holds a special token. *)
Variable encode : string -> result (list token).
(** [encoding.decode(chunk_tokens)] *)
Variable decode : list token -> string.

(** [chunk_text] with the failures of the tokenizer, as a run from a world:
    [None] when the loop is still running once the fuel is used up. *)
Definition chunk_text_run (self : EmbeddingService) (text : string)
    (fuel : nat) (s : world W) : option (result (list string) * world W) :=
  match Files.fs (encoding_for_model "gpt-4") s with
  | (Raise e, s1) => Some (Raise e, s1)
  | (Ok _, s1) =>
      match encode text with
      | Raise e => Some (Raise e, s1)
      | Ok tokens =>
          match chunk_loop token string decode self tokens fuel 0 [] with
          | Some chunks => Some (Ok chunks, s1)
          | None => None
          end
      end
  end.

End Tokenizer.

(** A one-token-per-character tokenizer, to run the chunker on examples. *)
Definition char_encode (s : string) : list ascii := list_ascii_of_string s.
Definition char_decode (l : list ascii) : string := string_of_list_ascii l.

(** The last [n] elements of a list. *)
Definition lastn {A : Type} (n : nat) (l : list A) : list A :=
  skipn (List.length l - n) l.

(** The windows in closed form: [n] windows from [start], one every
    [chunk_size - chunk_overlap] tokens. *)
Fixpoint windows {token : Type} (self : EmbeddingService)
    (tokens : list token) (n : nat) (start : Z) : list (list token) :=
  match n with
  | O => []
  | S n' =>
      slice tokens start (start + chunk_size self)
      :: windows self tokens n' (start + chunk_size self - chunk_overlap self)
  end.

(** The number of windows that start in [start, len): the ceiling of
    [(len - start) / step]. *)
Definition window_count (len step start : Z) : nat :=
  Z.to_nat ((len - start + step - 1) / step).

End EmbeddingService.

(* ===================================================================== *)
(** ** [simple_upload.py]: the ingestion driver *)
(* ===================================================================== *)

Module SimpleUpload.
Import PyNum Effects.
Local Open Scope Z_scope.

Section Chunking.
Variable B : Type.
(** What is appended for a group of words: [' '.join] in the source. *)
Variable render : list string -> B.

(** The [for word in words] loop followed by the final [if current:]. *)
Fixpoint chunk_loop (size : Z) (words : list string) (chunks : list B)
    (current : list string) (current_size : Z) : list B :=
  match words with
  | [] =>
      match current with
      | [] => chunks
      | _ :: _ => chunks ++ [render current]
      end
  | word :: rest =>
      let current := current ++ [word] in
      let current_size := current_size + PyStr.len word + 1 in
      if current_size >=? size
      then chunk_loop size rest (chunks ++ [render current]) [] 0
      else chunk_loop size rest chunks current current_size
  end.

End Chunking.

(** [chunk_text(text, size)] *)
Definition chunk_text (text : string) (size : Z) : list string :=
  chunk_loop string (PyStr.join " ") size (PyStr.split text) [] [] 0.

(** The groups of words behind the chunks of [chunk_text]. *)
Definition chunk_groups (text : string) (size : Z) : list (list string) :=
  chunk_loop (list string) (fun g => g) size (PyStr.split text) [] [] 0.

(** *** [clean_content]: the regular expressions, read as scanners *)

Definition newline : ascii := ascii_of_nat 10.

(** [s[n:]] *)
Fixpoint skip_chars (n : nat) (s : string) : string :=
  match n, s with
  | O, _ => s
  | S _, EmptyString => EmptyString
  | S n', String _ s' => skip_chars n' s'
  end.

(** [needle in s] *)
Fixpoint contains (needle s : string) : bool :=
  String.prefix needle s
  || match s with
     | EmptyString => false
     | String _ s' => contains needle s'
     end.

(** Where the scanner of [^kw\s+.*$] stands: outside a match (at the
    beginning of a line or not), inside the keyword with [k] characters
    left, inside the white space, or inside the rest of the line. *)
Inductive kw_mode : Type :=
| KwOut (bol : bool)
| KwWord (k : nat)
| KwSpace
| KwLine.

Definition after_word (k : nat) : kw_mode :=
  match k with
  | O => KwSpace
  | S _ => KwWord k
  end.

(** The keyword followed by at least one white-space character. *)
Definition kw_at (kw s : string) : bool :=
  String.prefix kw s
  && match skip_chars (String.length kw) s with
     | String c _ => PyStr.is_space c
     | EmptyString => false
     end.

(** [re.sub(r'^kw\s+.*$', '', s, flags=re.MULTILINE)]: at the beginning
    of a line, the keyword, all the white space after it (line breaks
    included) and the rest of the line reached are dropped; the line break
    that ends the match is kept. *)
Fixpoint remove_kw (kw : string) (mode : kw_mode) (s : string) : string :=
  match s with
  | EmptyString => EmptyString
  | String c s' =>
      match mode with
      | KwOut bol =>
          if bol && kw_at kw s
          then remove_kw kw (after_word (String.length kw - 1)) s'
          else String c (remove_kw kw (KwOut (Ascii.eqb c newline)) s')
      | KwWord k => remove_kw kw (after_word (k - 1)) s'
      | KwSpace =>
          if PyStr.is_space c then remove_kw kw KwSpace s'
          else remove_kw kw KwLine s'
      | KwLine =>
          if Ascii.eqb c newline
          then String c (remove_kw kw (KwOut true) s')
          else remove_kw kw KwLine s'
      end
  end.

(** After a ["<"]: at least one character other than [">"], and a [">"]
    further on. *)
Definition tag_closes (rest : string) : bool :=
  match rest with
  | EmptyString => false
  | String c _ => negb (Ascii.eqb c ">") && contains ">" rest
  end.

(** [re.sub(r'<[^>]+>', '', s)] *)
Fixpoint strip_tags (inside : bool) (s : string) : string :=
  match s with
  | EmptyString => EmptyString
  | String c s' =>
      if inside then strip_tags (negb (Ascii.eqb c ">")) s'
      else if Ascii.eqb c "<" && tag_closes s' then strip_tags true s'
      else String c (strip_tags false s')
  end.

(** [re.sub(r'op.*?cl', '', s, flags=re.DOTALL)] for literal [op] and
    [cl]: from an opener to the first closer after it.  [skip] counts the
    characters of an opener or closer still to drop. *)
Fixpoint remove_delimited (op cl : string) (skip : nat) (inside : bool)
    (s : string) : string :=
  match s with
  | EmptyString => EmptyString
  | String c s' =>
      match skip with
      | S skip' => remove_delimited op cl skip' inside s'
      | O =>
          if inside then
            if String.prefix cl s
            then remove_delimited op cl (String.length cl - 1) false s'
            else remove_delimited op cl 0 true s'
          else if String.prefix op s
                  && contains cl (skip_chars (String.length op) s)
          then remove_delimited op cl (String.length op - 1) true s'
          else String c (remove_delimited op cl 0 false s')
      end
  end.

(** Over the white space at the head of [rest]: the length up to its last
    line break, and the number of its line breaks.  [n] counts the
    characters read so far. *)
Fixpoint blank_span (rest : string) (n last cnt : nat) : nat * nat :=
  match rest with
  | EmptyString => (last, cnt)
  | String c rest' =>
      if PyStr.is_space c then
        if Ascii.eqb c newline
        then blank_span rest' (S n) (S n) (S cnt)
        else blank_span rest' (S n) last cnt
      else (last, cnt)
  end.

(** [re.sub(r'\n\s*\n\s*\n', '\n\n', s)]: a line break whose white
    space holds two more line breaks is replaced, up to the last of them, by
    two line breaks. *)
Fixpoint collapse_blank_lines (skip : nat) (s : string) : string :=
  match s with
  | EmptyString => EmptyString
  | String c s' =>
      match skip with
      | S skip' => collapse_blank_lines skip' s'
      | O =>
          if Ascii.eqb c newline then
            let '(last, cnt) := blank_span s' 0 0 0 in
            if (2 <=? cnt)%nat
            then String newline
                   (String newline (collapse_blank_lines last s'))
            else String c (collapse_blank_lines 0 s')
          else String c (collapse_blank_lines 0 s')
      end
  end.

(** [clean_content]: imports, exports, JSX tags and comments removed,
    blank lines collapsed, the result stripped. *)
Definition clean_content (content : string) : string :=
  let content := remove_kw "import" (KwOut true) content in
  let content := remove_kw "export" (KwOut true) content in
  let content := strip_tags false content in
  let content := remove_delimited "<!--" "-->" 0 false content in
  let content := remove_delimited "{/*" "*/}" 0 false content in
  let content := collapse_blank_lines 0 content in
  PyStr.strip content.

(** [Path]: the two parts of a file path the uploader reads. *)
Record Path : Type := { name : string; stem : string }.

Section Upload.
Variable W : Type.
Variable vector : Type.
(** [file_path.read_text(encoding='utf-8')] *)
Variable read_text : Path -> W -> result string * W.
(** [openai_client.embeddings.create(model, input).data[0].embedding] *)
Variable embeddings_create : string -> string -> W -> result vector * W.
(** [str(uuid.uuid4())] *)
Variable uuid4 : W -> string * W.

Record PointStruct : Type := {
  id : string;
  point_vector : vector;
  point_payload : payload
}.

(** [qdrant_client.upsert(collection_name, points)] *)
Variable upsert : string -> list PointStruct -> W -> result unit * W.
(** [qdrant_client.get_collection(name).points_count] *)
Variable get_collection : string -> W -> result Z * W.
Variable COLLECTION_NAME : string.

Local Open Scope monad_scope.

(** The loop [for i, chunk in enumerate(chunks)]: one embedding call per
    chunk, the point appended to [points]. *)
Fixpoint embed_chunks (file_path : Path) (i : Z) (chunks : list string)
    (points : list PointStruct) : M W (list PointStruct) :=
  match chunks with
  | [] => ret points
  | chunk :: rest =>
      embedding <-
        provider (EmbeddingsCreate "text-embedding-3-small" chunk)
          (embeddings_create "text-embedding-3-small" chunk) ;;
      uid <- local_effect uuid4 ;;
      let point :=
        {| id := uid;
           point_vector := embedding;
           point_payload :=
             [("text", VStr chunk); ("doc_id", VStr (stem file_path));
              ("file", VStr (name file_path)); ("chunk_index", VInt i)] |} in
      embed_chunks file_path (i + 1) rest (points ++ [point])
  end.

(** The body of the [try] block of [upload_file]. *)
Definition upload_body (file_path : Path) : M W Z :=
  content <- provider (ReadText (name file_path)) (read_text file_path) ;;
  let cleaned := clean_content content in
  if PyStr.len cleaned <? 50 then ret 0
  else
    let chunks := chunk_text cleaned 1000 in
    points <- embed_chunks file_path 0 chunks [] ;;
    _ <- provider (Upsert COLLECTION_NAME (List.length points))
           (upsert COLLECTION_NAME points) ;;
    ret (Z.of_nat (List.length points)).

(** [upload_file]: [except Exception: return 0]. *)
Definition upload_file (file_path : Path) : M W Z :=
  try_except (upload_body file_path) (fun _ => ret 0).

(** The loop of [main]: [for file in sorted(files): total += count]. *)
Fixpoint upload_all (files : list Path) (total : Z) : M W Z :=
  match files with
  | [] => ret total
  | file :: rest =>
      count <- upload_file file ;;
      upload_all rest (total + count)
  end.

(** [main] on the sorted list of files: the total it prints and the final
    count read back from the index. *)
Definition main (files : list Path) : M W (Z * Z) :=
  total <- upload_all files 0 ;;
  points_count <-
    provider (GetCollection COLLECTION_NAME) (get_collection COLLECTION_NAME) ;;
  ret (total, points_count).

End Upload.

(** The files read, in order, among the calls of a log. *)
Fixpoint files_read (log : list call) : list string :=
  match log with
  | [] => []
  | ReadText f :: log' => f :: files_read log'
  | _ :: log' => files_read log'
  end.

(** The calls a step adds to the log read no file. *)
Definition reads_nothing {W : Type} (s s' : world W) : Prop :=
  exists l, calls s' = calls s ++ l /\ files_read l = [].

End SimpleUpload.

(* ===================================================================== *)
(** ** [services/rag_service.py]: the service-level query *)
(* ===================================================================== *)

Module RAGService.
Import PyNum Effects.
Local Open Scope monad_scope.

Record RAGService : Type := {
  collection_name : string;
  chat_model : string;
  max_tokens : Z;
  temperature : Q
}.

Definition nl : string := String (ascii_of_nat 10) "".

Definition system_prompt : string :=
  ("You are an expert AI assistant for the Physical AI & Humanoid Robotics Lab textbook." ++ nl ++
  "Your role is to answer questions accurately based on the provided context from the book." ++ nl ++
  nl ++
  "Guidelines:" ++ nl ++
  "- Answer based ONLY on the provided context" ++ nl ++
  "- Be precise and technical when appropriate" ++ nl ++
  "- If the context doesn't contain enough information, say so" ++ nl ++
  "- Cite sources when possible" ++ nl ++
  "- Use clear, educational language")%string.

Definition user_prompt (context q : string) : string :=
  ("Context from the textbook:" ++ nl ++ context ++ nl ++ nl ++
  "Question: " ++ q ++ nl ++ nl ++
  "Please provide a detailed answer based on the context above.")%string.

(** One element of the list [search_similar] returns. *)
Definition to_source (hit : ScoredPoint) : source :=
  {| src_id := hit_id hit;
     src_score := hit_score hit;
     src_text := payload_get (hit_payload hit) "text" (VStr "");
     src_metadata := without_text (hit_payload hit) |}.

(** [for i, chunk in enumerate(similar_chunks, 1)] *)
Fixpoint context_parts (i : Z) (similar_chunks : list source) : list string :=
  match similar_chunks with
  | [] => []
  | chunk :: rest =>
      ("[Source " ++ PyStr.str_of_Z i ++ "]: " ++ fmt (src_text chunk))%string
      :: context_parts (i + 1) rest
  end.

(** The [if additional_context:] branch. *)
Definition with_additional_context (extra : option string) (context : string)
  : string :=
  match extra with
  | Some s =>
      if String.eqb s "" then context
      else ("Selected Text:" ++ nl ++ s ++ nl ++ nl ++ context)%string
  | None => context
  end.

Section Service.
Variable W : Type.
Variable vector : Type.
(** [client.embeddings.create(model, input).data[0].embedding] *)
Variable embeddings_create : string -> string -> W -> result vector * W.
(** [client.search(collection_name, query_vector, limit)] *)
Variable search :
  string -> vector -> Z -> W -> result (list ScoredPoint) * W.
(** [openai_client.chat.completions.create(...).choices[0].message.content] *)
Variable chat_completion :
  string -> string -> string -> Z -> Q -> W -> result string * W.
(** [EmbeddingService()]: the settings are read from the environment, where
    [int] of a setting, or the client of the provider, may raise. *)
Variable new_embedding_service :
  W -> result EmbeddingService.EmbeddingService * W.

Definition create_embedding (svc : EmbeddingService.EmbeddingService)
    (text : string) : M W vector :=
  provider (EmbeddingsCreate (EmbeddingService.model svc) text)
    (embeddings_create (EmbeddingService.model svc) text).

Definition search_similar (self : RAGService) (query_embedding : vector)
    (limit : Z) : M W (list source) :=
  results <-
    provider (Search (collection_name self) limit)
      (search (collection_name self) query_embedding limit) ;;
  ret (map to_source results).

(** [query]: no [try] here, an exception of the construction of the
    embedding service or of a provider propagates. *)
Definition query (self : RAGService)
    (question : string) (max_results : Z) (additional_context : option string)
  : M W response :=
  embedding_service <- Files.fs new_embedding_service ;;
  question_embedding <- create_embedding embedding_service question ;;
  similar_chunks <- search_similar self question_embedding max_results ;;
  let context :=
    with_additional_context additional_context
      (PyStr.join (nl ++ nl)%string (context_parts 1 similar_chunks)) in
  text <-
    provider (ChatCompletion system_prompt (user_prompt context question))
      (chat_completion (chat_model self) system_prompt
         (user_prompt context question) (max_tokens self)
         (temperature self)) ;;
  ret {| answer := text;
         sources := similar_chunks;
         confidence := round2 (avg_score (map src_score similar_chunks)) |}.

End Service.

End RAGService.

(* ===================================================================== *)
(** ** The vocabulary of the specification *)
(* ===================================================================== *)

Module Spec.
Import PyNum.







(** A score in the closed interval [0, 1]. *)
Definition in_unit_interval (q : Q) : Prop := 0 <= q /\ q <= 1.

(** [c] is an infinity or the double nearest to a whole number of
    hundredths; it is finite and lies in [0, 1] when every score lies in
    [0, 1], for fewer than [2 ^ 53] scores. *)
Definition bounded_confidence (scores : list Q) (c : pynum) : Prop :=
  ((exists negative, c = PInf negative)
   \/ exists n : Z, num_val c == to_double (n # 100))
  /\ ((Z.of_nat (List.length scores) < 2 ^ 53)%Z ->
      Forall in_unit_interval scores ->
      (forall negative, c <> PInf negative)
      /\ in_unit_interval (num_val c)).

End Spec.

(* ===================================================================== *)
(** ** Collaborators for examples *)
(* ===================================================================== *)

Module Doubles.
Import PyNum Effects.

(** An embedding provider that always answers. *)
Definition embed_ok (_ _ : string) (w : unit) : result unit * unit :=
  (Ok tt, w).

(** An embedding provider that is down. *)
Definition embed_down (_ _ : string) (w : unit) : result unit * unit :=
  (Raise (Exception "Connection error."), w).

(** An index whose collection holds [hits] for every query. *)
Definition index_with (hits : list ScoredPoint) (_ : string) (_ : unit)
    (_ : option Z) (w : unit) : result (list ScoredPoint) * unit :=
  (Ok hits, w).

(** An index without the collection: the search raises. *)
Definition index_missing (_ : string) (_ : unit) (_ : option Z) (w : unit)
  : result (list ScoredPoint) * unit :=
  (Raise (Exception "Collection `robotics_book_embeddings` doesn't exist!"),
   w).

(** A generation provider that always answers the same text. *)
Definition generate_ok (_ : string) (_ : Main.generation_config) (w : unit)
  : result string * unit :=
  (Ok "ROS 2 is a robotics middleware.", w).

Definition generate_down (_ : string) (_ : Main.generation_config) (w : unit)
  : result string * unit :=
  (Raise (Exception "429 quota exceeded"), w).

Definition config : Main.generation_config :=
  {| Main.temperature := 7 # 10; Main.max_output_tokens := 1000 |}.

Definition start : world unit := {| ext := tt; calls := [] |}.

Definition ask (q : string) : Main.QueryRequest :=
  {| Main.question := q; Main.max_results := Some 5%Z;
     Main.selected_text := None |}.

Definition hit (score : Q) (text : string) : ScoredPoint :=
  {| hit_id := "c0ffee"; hit_score := score;
     hit_payload := [("text", VStr text); ("doc_id", VStr "intro");
                     ("file", VStr "intro.mdx"); ("chunk_index", VInt 0)] |}.

(** The endpoint wired to an index holding [hits]. *)
Definition query_with (hits : list ScoredPoint) (q : string)
  : result response * world unit :=
  Main.query_chatbot unit unit embed_ok (index_with hits) generate_ok
    "robotics_book_embeddings" config (ask q) start.

(** The endpoint wired to an index whose collection is missing. *)
Definition query_missing (q : string) : result response * world unit :=
  Main.query_chatbot unit unit embed_ok index_missing generate_ok
    "robotics_book_embeddings" config (ask q) start.

(** The collaborators of the service-level query. *)
Definition service_index_with (hits : list ScoredPoint) (_ : string)
    (_ : unit) (_ : Z) (w : unit) : result (list ScoredPoint) * unit :=
  (Ok hits, w).

Definition chat_ok (_ _ _ : string) (_ : Z) (_ : Q) (w : unit)
  : result string * unit :=
  (Ok "ROS 2 is a robotics middleware.", w).

Definition rag : RAGService.RAGService :=
  {| RAGService.collection_name := "robotics_book_embeddings";
     RAGService.chat_model := "gpt-4-turbo-preview";
     RAGService.max_tokens := 1000;
     RAGService.temperature := 7 # 10 |}.

(** An embedding service built with no setting in the environment. *)
Definition new_embedding_service (w : unit)
  : result EmbeddingService.EmbeddingService * unit :=
  (Ok (EmbeddingService.init None None None), w).

Definition service_query_with (hits : list ScoredPoint) (q : string)
  : result response * world unit :=
  RAGService.query unit unit embed_ok (service_index_with hits) chat_ok
    new_embedding_service rag q 5 None start.

(** The collaborators of the uploader: the file "broken.mdx" cannot be
    read, every other file holds the same paragraph. *)
Definition paragraph : string :=
  "ROS 2 is a set of software libraries and tools for building robot applications.".

Fixpoint spaces (n : nat) : string :=
  match n with
  | O => ""
  | S n' => String " " (spaces n')
  end.

(** A placeholder page: a label, fifty spaces of padding, three words. *)
Definition sparse : string :=
  ("TODO:" ++ spaces 50 ++ "write this chapter")%string.

Definition read_text (p : SimpleUpload.Path) (w : unit)
  : result string * unit :=
  if String.eqb (SimpleUpload.name p) "broken.mdx"
  then (Raise (Exception "invalid start byte"), w)
  else if String.eqb (SimpleUpload.name p) "stub.mdx"
  then (Ok "  TODO  ", w)
  else if String.eqb (SimpleUpload.name p) "sparse.mdx"
  then (Ok sparse, w)
  else (Ok paragraph, w).

Definition uuid4 (w : unit) : string * unit := ("c0ffee", w).

Definition upsert (_ : string) (_ : list (SimpleUpload.PointStruct unit))
    (w : unit) : result unit * unit :=
  (Ok tt, w).

Definition get_collection (_ : string) (w : unit) : result Z * unit :=
  (Ok 2%Z, w).

Definition mdx (stem : string) : SimpleUpload.Path :=
  {| SimpleUpload.name := (stem ++ ".mdx")%string;
     SimpleUpload.stem := stem |}.

(** The upload loop over a batch. *)
Definition upload_batch (files : list SimpleUpload.Path)
  : result Z * world unit :=
  SimpleUpload.upload_all unit unit read_text embed_ok uuid4 upsert
    "robotics_book_embeddings" files 0 start.

(** An embedding service with the given window parameters. *)
Definition windowed (size overlap : Z) : EmbeddingService.EmbeddingService :=
  {| EmbeddingService.model := "text-embedding-3-small";
     EmbeddingService.chunk_size := size;
     EmbeddingService.chunk_overlap := overlap |}.

End Doubles.

(* ===================================================================== *)
(** ** Measures used to state further properties *)
(* ===================================================================== *)

Module Measures.
Local Open Scope Z_scope.

(** The value of [current_size] once the words of a group have been added:
    the length of each word plus one. *)
Fixpoint group_size (g : list string) : Z :=
  match g with
  | [] => 0
  | word :: g' => PyStr.len word + 1 + group_size g'
  end.

(** A text made of white space only ([s.strip() == ""]). *)
Fixpoint all_space (s : string) : bool :=
  match s with
  | EmptyString => true
  | String c s' => PyStr.is_space c && all_space s'
  end.

(** No ["<"] of the text opens a tag: none is followed by a character
    other than [">"] and, further on, by a [">"]. *)
Fixpoint tag_free (s : string) : Prop :=
  match s with
  | EmptyString => True
  | String c s' =>
      (c = "<"%char -> SimpleUpload.tag_closes s' = false) /\ tag_free s'
  end.

(** A finite number between two bounds. *)
Definition finite_between (lo hi : Q) (x : PyNum.pynum) : Prop :=
  (forall negative, x <> PyNum.PInf negative)
  /\ (lo <= PyNum.num_val x)%Q /\ (PyNum.num_val x <= hi)%Q.

(** The calls of a log that embed a text, in order. *)
Fixpoint embedded (log : list Effects.call) : list string :=
  match log with
  | [] => []
  | Effects.EmbeddingsCreate _ input :: log' => input :: embedded log'
  | _ :: log' => embedded log'
  end.

End Measures.

(* ===================================================================== *)
(** ** [services/phr_service.py]: names of prompt history records *)
(* ===================================================================== *)

Module PHRService.
Local Open Scope Z_scope.

Inductive Stage : Type :=
| CONSTITUTION | SPEC | PLAN | TASKS | RED | GREEN | REFACTOR | EXPLAINER
| MISC | GENERAL.

(** [stage.value] *)
Definition value (stage : Stage) : string :=
  match stage with
  | CONSTITUTION => "constitution"
  | SPEC => "spec"
  | PLAN => "plan"
  | TASKS => "tasks"
  | RED => "red"
  | GREEN => "green"
  | REFACTOR => "refactor"
  | EXPLAINER => "explainer"
  | MISC => "misc"
  | GENERAL => "general"
  end.

Definition stages : list Stage :=
  [CONSTITUTION; SPEC; PLAN; TASKS; RED; GREEN; REFACTOR; EXPLAINER; MISC;
   GENERAL].

(** [Stage(x)]: the member whose value is [x]; [None] stands for the
    [ValueError] of a string that is no value. *)
Definition Stage_of (x : string) : option Stage :=
  find (fun stage => String.eqb (value stage) x) stages.

(** [c.isalnum()] on one code point below 256. *)
Definition isalnum (c : ascii) : bool :=
  let n := PyStr.code c in
  ((48 <=? n) && (n <=? 57) || (65 <=? n) && (n <=? 90)
   || (97 <=? n) && (n <=? 122) || (n =? 170) || (178 <=? n) && (n <=? 179)
   || (n =? 181) || (185 <=? n) && (n <=? 186) || (188 <=? n) && (n <=? 190)
   || (192 <=? n) && (n <=? 214) || (216 <=? n) && (n <=? 246)
   || (248 <=? n) && (n <=? 255))%nat.

(** [c.isdigit()] on one code point below 256: the ten digits and the
    superscripts 1, 2, 3. *)
Definition isdigit_char (c : ascii) : bool :=
  let n := PyStr.code c in
  ((48 <=? n) && (n <=? 57) || (178 <=? n) && (n <=? 179) || (n =? 185))%nat.

Fixpoint all_chars (p : ascii -> bool) (s : string) : bool :=
  match s with
  | EmptyString => true
  | String c s' => p c && all_chars p s'
  end.

(** [s.isdigit()]: at least one character, all of them digits. *)
Definition isdigit (s : string) : bool :=
  negb (String.eqb s "") && all_chars isdigit_char s.

(** [s.replace(a, b)] for two single characters. *)
Fixpoint replace_char (a b : ascii) (s : string) : string :=
  match s with
  | EmptyString => EmptyString
  | String c s' =>
      String (if Ascii.eqb c a then b else c) (replace_char a b s')
  end.

(** [s[:n]] *)
Fixpoint take (n : nat) (s : string) : string :=
  match n, s with
  | S n', String c s' => String c (take n' s')
  | _, _ => EmptyString
  end.

(** ["".join(c if p(c) else "" for c in s)] *)
Fixpoint keep_chars (p : ascii -> bool) (s : string) : string :=
  match s with
  | EmptyString => EmptyString
  | String c s' =>
      if p c then String c (keep_chars p s') else keep_chars p s'
  end.

(** The slug of a title: lower case, spaces and slashes turned into
    dashes, cut at 30 characters, then letters, digits and dashes only. *)
Definition slug_of (title : string) : string :=
  keep_chars (fun c => isalnum c || Ascii.eqb c "-")
    (take 30
       (replace_char "/" "-" (replace_char " " "-" (PyStr.lower title)))).

(** [name.split("-")[0]]: what comes before the first dash. *)
Fixpoint before_dash (name : string) : string :=
  match name with
  | EmptyString => EmptyString
  | String c name' =>
      if Ascii.eqb c "-" then EmptyString else String c (before_dash name')
  end.

(** [int(s)] for a string of digits; [None] stands for [ValueError] (a
    superscript digit is a digit for [isdigit] but not for [int]).  The
    strings read here are heads of file names, far shorter than the length
    at which [int] refuses a numeral. *)
Definition int_of (s : string) : option Z :=
  match NilZero.uint_of_string s with
  | Some d => Some (Z.of_uint d)
  | None => None
  end.

(** The loop over [existing_files]: the greatest numeric id read at the
    head of a file name. *)
Fixpoint max_id_of (existing_files : list string) (max_id : Z) : Z :=
  match existing_files with
  | [] => max_id
  | f :: rest =>
      let id_part := before_dash f in
      max_id_of rest
        (if isdigit id_part then
           match int_of id_part with
           | Some n => Z.max max_id n
           | None => max_id
           end
         else max_id)
  end.

Fixpoint zeros (n : nat) : string :=
  match n with
  | O => ""
  | S n' => String "0" (zeros n')
  end.

(** [s.zfill(width)] for a string without sign. *)
Definition zfill (width : nat) (s : string) : string :=
  (zeros (width - String.length s) ++ s)%string.

(** [f"{n:04d}"] *)
Definition format_04d (n : Z) : string :=
  if n <? 0 then String "-" (zfill 3 (PyStr.str_of_Z (- n)))
  else zfill 4 (PyStr.str_of_Z n).

(** [generate_phr_filename]: [existing_files] holds the names of the files
    [*.prompt.md] of the directory of the stage and feature. *)
Definition generate_phr_filename (stage : Stage) (title : string)
    (existing_files : list string) : string :=
  let slug := slug_of title in
  let new_id := max_id_of existing_files 0 + 1 in
  (format_04d new_id ++ "-" ++ slug ++ "." ++ value stage
   ++ ".prompt.md")%string.

(** The id [create_phr] writes in the metadata: [filename.split("-")[0]]. *)
Definition phr_id_of (filename : string) : string := before_dash filename.

(** The ["preview"] of a listed record:
    [text[:100] + "..." if len(text) > 100 else text]. *)
Definition preview (prompt_text : string) : string :=
  if (100 <? PyStr.len prompt_text) then (take 100 prompt_text ++ "...")%string
  else prompt_text.

End PHRService.

(* ===================================================================== *)
(** ** Prefixes, suffixes and dictionaries *)
(* ===================================================================== *)

Module PyText.

(** [s.startswith(prefix)] *)
Definition startswith (s prefix : string) : bool := String.prefix prefix s.

(** [s.endswith(suffix)] *)
Fixpoint endswith (s suffix : string) : bool :=
  String.eqb s suffix
  || match s with
     | EmptyString => false
     | String _ s' => endswith s' suffix
     end.

End PyText.

(** A [dict] with string keys, kept as the list of its items in insertion
    order; the keys of a dictionary are pairwise distinct. *)
Module PyDict.
Section Dict.
Context {V : Type}.

Definition dict : Type := list (string * V).

(** [key in d] *)
Definition contains (d : dict) (key : string) : bool :=
  existsb (fun kv => String.eqb (fst kv) key) d.

(** [d.get(key)] *)
Fixpoint get (d : dict) (key : string) : option V :=
  match d with
  | [] => None
  | (k, v) :: d' => if String.eqb k key then Some v else get d' key
  end.

(** [d[key] = v]: the value of an existing key is replaced where it
    stands, a new key is added at the end. *)
Fixpoint set (d : dict) (key : string) (v : V) : dict :=
  match d with
  | [] => [(key, v)]
  | (k, v0) :: d' =>
      if String.eqb k key then (k, v) :: d' else (k, v0) :: set d' key v
  end.

(** [d.pop(key, None)], the value dropped. *)
Definition pop (d : dict) (key : string) : dict :=
  filter (fun kv => negb (String.eqb (fst kv) key)) d.

(** [{**d, **more}] *)
Definition update (d more : dict) : dict :=
  fold_left (fun acc kv => set acc (fst kv) (snd kv)) more d.

End Dict.
Arguments dict : clear implicits.
End PyDict.

(* ===================================================================== *)
(** ** [services/phr_service.py]: the files of a directory *)
(* ===================================================================== *)

Module PHRFiles.

(** The names [directory.glob("*.prompt.md")] yields, out of the names of
    the entries of the directory: those that end in [.prompt.md]. *)
Definition glob_prompt_md (entries : list string) : list string :=
  filter (fun name => PyText.endswith name ".prompt.md") entries.

(** The name [generate_phr_filename] returns in a directory that holds
    [entries]. *)
Definition new_filename (stage : PHRService.Stage) (title : string)
    (entries : list string) : string :=
  PHRService.generate_phr_filename stage title (glob_prompt_md entries).

End PHRFiles.

(* ===================================================================== *)
(** ** [services/rag_service.py]: the payload of a stored chunk *)
(* ===================================================================== *)

Module RAGStore.
Import PyNum.

(** [doc_id or "unknown"] *)
Definition doc_id_or_unknown (doc_id : option string) : string :=
  match doc_id with
  | Some s => if String.eqb s "" then "unknown" else s
  | None => "unknown"
  end.

(** The payload [add_text_chunk] gives the point:
    [{"text": text, "doc_id": doc_id or "unknown", **metadata}]. *)
Definition chunk_payload (text : string) (metadata : payload)
    (doc_id : option string) : payload :=
  PyDict.update
    [("text", VStr text); ("doc_id", VStr (doc_id_or_unknown doc_id))]
    metadata.

(** The payloads [upload_file] of [simple_upload.py] gives the points of
    the chunks numbered from [i], in closed form. *)
Fixpoint uploaded_payloads (file_path : SimpleUpload.Path) (i : Z)
    (chunks : list string) : list payload :=
  match chunks with
  | [] => []
  | chunk :: rest =>
      [("text", VStr chunk); ("doc_id", VStr (SimpleUpload.stem file_path));
       ("file", VStr (SimpleUpload.name file_path)); ("chunk_index", VInt i)]
      :: uploaded_payloads file_path (i + 1) rest
  end.

End RAGStore.

(* ===================================================================== *)
(** ** [main.py]: the record and content endpoints *)
(* ===================================================================== *)

(** [PHRMetadata], [PHRContent] and [PHR] of [services/phr_service.py]. *)
Module PHRData.

Record PHRMetadata : Type := {
  id : string;
  title : string;
  stage : PHRService.Stage;
  date_iso : string;
  surface : string;
  model : string;
  feature : string;
  branch : string;
  user : string;
  command : string;
  labels : list string;
  links : PyDict.dict string;
  files_yaml : list string;
  tests_yaml : list string
}.

Record PHRContent : Type := {
  prompt_text : string;
  response_text : string;
  outcome : option string;
  evaluation : option string
}.

Record PHR : Type := {
  metadata : PHRMetadata;
  content : PHRContent
}.

End PHRData.

Module PHREndpoints.
Import Effects.
Local Open Scope monad_scope.

Record PHRCreateRequest : Type := {
  title : string;
  stage : string;
  prompt_text : string;
  response_text : string;
  surface : option string;
  model : option string;
  feature : option string;
  branch : option string;
  user : option string;
  command : option string;
  labels : option (list string);
  links : option (PyDict.dict string);
  files_yaml : option (list string);
  tests_yaml : option (list string);
  outcome : option string;
  evaluation : option string
}.

(** A value of the dictionary [get_phr] returns. *)
Inductive field : Type :=
| Str (s : string)
| OptStr (s : option string)
| Strs (l : list string)
| Links (d : PyDict.dict string).

(** The dictionary [get_phr] builds from a loaded record. *)
Definition phr_response (phr : PHRData.PHR)
  : PyDict.dict (PyDict.dict field) :=
  let m := PHRData.metadata phr in
  let c := PHRData.content phr in
  [("metadata",
    [("id", Str (PHRData.id m));
     ("title", Str (PHRData.title m));
     ("stage", Str (PHRService.value (PHRData.stage m)));
     ("date_iso", Str (PHRData.date_iso m));
     ("surface", Str (PHRData.surface m));
     ("model", Str (PHRData.model m));
     ("feature", Str (PHRData.feature m));
     ("branch", Str (PHRData.branch m));
     ("user", Str (PHRData.user m));
     ("command", Str (PHRData.command m));
     ("labels", Strs (PHRData.labels m));
     ("links", Links (PHRData.links m));
     ("files_yaml", Strs (PHRData.files_yaml m));
     ("tests_yaml", Strs (PHRData.tests_yaml m))]);
   ("content",
    [("prompt_text", Str (PHRData.prompt_text c));
     ("response_text", Str (PHRData.response_text c));
     ("outcome", OptStr (PHRData.outcome c));
     ("evaluation", OptStr (PHRData.evaluation c))])].

Section Endpoints.
Variable W : Type.
(** [PHRService().create_phr(...)] with the fields of the request, the
    parsed stage and the e-mail of the current user: the record is written
    and its path returned. *)
Variable service_create_phr :
  PHRCreateRequest -> PHRService.Stage -> string -> W -> result string * W.
(** [PHRService().load_phr(file_path)]: [None] when the file cannot be read
    or parsed; it never raises. *)
Variable load_phr : string -> W -> option PHRData.PHR * W.

(** The body of the [try] block of [create_phr]. *)
Definition create_phr_body (request : PHRCreateRequest)
    (current_user_email : string) : M W (PyDict.dict string) :=
  stage <-
    match PHRService.Stage_of (PyStr.lower (stage request)) with
    | Some stage => ret stage
    | None =>
        raise (HTTPException 400
                 ("Invalid stage: " ++ stage request)%string)
    end ;;
  file_path <-
    Files.fs (service_create_phr request stage current_user_email) ;;
  ret [("message", "PHR created successfully");
       ("file_path", file_path);
       ("stage", PHRService.value stage);
       ("title", title request)].

(** [create_phr]: [except Exception as e] catches the [HTTPException] of
    the body as well. *)
Definition create_phr (request : PHRCreateRequest)
    (current_user_email : string) : M W (PyDict.dict string) :=
  try_except (create_phr_body request current_user_email)
    (fun e => raise (HTTPException 500 (str_exn e))).

(** The body of the [try] block of [get_phr]. *)
Definition get_phr_body (file_path : string)
  : M W (PyDict.dict (PyDict.dict field)) :=
  phr <- Files.fs (fun w => let (r, w') := load_phr file_path w in
                            (Ok r, w')) ;;
  match phr with
  | None => raise (HTTPException 404 "PHR not found")
  | Some phr => ret (phr_response phr)
  end.

Definition get_phr (file_path : string)
  : M W (PyDict.dict (PyDict.dict field)) :=
  try_except (get_phr_body file_path)
    (fun e => raise (HTTPException 500 (str_exn e))).

End Endpoints.

End PHREndpoints.

Module Content.
Import Effects.
Local Open Scope monad_scope.

Section Docs.
Variable W : Type.
(** [str((Path(__file__).parent.parent / "docs" / file_path).resolve())] *)
Variable resolve_doc : string -> W -> result string * W.
(** [str((Path(__file__).parent.parent / "docs").resolve())] *)
Variable resolve_root : W -> result string * W.
(** [doc_path.exists()] *)
Variable path_exists : string -> W -> result bool * W.
(** [open(doc_path, 'r', encoding='utf-8').read()] *)
Variable read : string -> W -> result string * W.

(** The body of the [try] block of [get_doc_content]. *)
Definition get_doc_content_body (file_path : string)
  : M W (PyDict.dict string) :=
  doc_path <- Files.fs (resolve_doc file_path) ;;
  docs_root <- Files.fs resolve_root ;;
  if negb (PyText.startswith doc_path docs_root) then
    raise (HTTPException 403 "Access denied")
  else
    found <- Files.fs (path_exists doc_path) ;;
    if negb found then
      raise (HTTPException 404 "Documentation file not found")
    else
      content <- provider (ReadText doc_path) (read doc_path) ;;
      ret [("path", file_path);
           ("content", content);
           ("type",
            if PyText.endswith file_path ".md"
               || PyText.endswith file_path ".mdx"
            then "markdown" else "text")].

(** [get_doc_content]: [except HTTPException: raise] lets the statuses of
    the body through, any other exception becomes an HTTP 500. *)
Definition get_doc_content (file_path : string) : M W (PyDict.dict string) :=
  try_except (get_doc_content_body file_path)
    (fun e =>
       match e with
       | HTTPException _ _ => raise e
       | Exception _ => raise (HTTPException 500 (str_exn e))
       end).

End Docs.

End Content.

(* ===================================================================== *)
(** ** [main.py]: the validator of [UserSignup] *)
(* ===================================================================== *)

Module UserSignup.
Import Effects.

#[local] Unset Elimination Schemes.

(** A value of the JSON body of the request. *)
Inductive json : Type :=
| JNull
| JBool (b : bool)
| JNumber (q : Q)
| JString (s : string)
| JArray (items : list json)
| JObject (items : list (string * json)).

#[local] Set Elimination Schemes.

(** Truth value in an [if]. *)
Definition truthy (v : json) : bool :=
  match v with
  | JNull => false
  | JBool b => b
  | JNumber q => negb (Qeq_bool q 0)
  | JString s => negb (String.eqb s "")
  | JArray items => match items with [] => false | _ :: _ => true end
  | JObject items => match items with [] => false | _ :: _ => true end
  end.

(** [extract_name], run on the dictionary of the body before validation:
    a [full_name] with a true value becomes the [name] and is removed;
    otherwise a [name] entry must be there. *)
Definition extract_name (values : PyDict.dict json)
  : result (PyDict.dict json) :=
  match PyDict.get values "full_name" with
  | Some full_name =>
      if truthy full_name then
        Ok (PyDict.pop (PyDict.set values "name" full_name) "full_name")
      else if negb (PyDict.contains values "name") then
        Raise (Exception "Either name or full_name must be provided")
      else Ok values
  | None =>
      if negb (PyDict.contains values "name") then
        Raise (Exception "Either name or full_name must be provided")
      else Ok values
  end.

End UserSignup.

(* ===================================================================== *)
(** ** Test doubles of the environment and of the tokenizer *)
(* ===================================================================== *)

Module TokenDoubles.
Import Effects.

(** An environment that sets both window settings to 2. *)
Definition environ (name : string) : option string :=
  if String.eqb name "OPENAI_API_KEY" then Some "sk-test"
  else if String.eqb name "CHUNK_SIZE" then Some "2"
  else if String.eqb name "CHUNK_OVERLAP" then Some "2"
  else None.

(** [int] on the numerals made of the ten digits. *)
Definition int (s : string) : result Z :=
  match PHRService.int_of s with
  | Some n => Ok n
  | None => Raise (Exception "invalid literal for int() with base 10")
  end.

Definition new_client (_ : option string) (w : unit) : result unit * unit :=
  (Ok tt, w).

Definition encoding_for_model (_ : string) (w : unit) : result unit * unit :=
  (Ok tt, w).

(** One token per character; the end-of-text marker is refused. *)
Definition encode (text : string) : result (list ascii) :=
  if String.eqb text "<|endoftext|>"
  then Raise (Exception "Encountered text corresponding to disallowed special token '<|endoftext|>'.")
  else Ok (EmbeddingService.char_encode text).

End TokenDoubles.

(* ===================================================================== *)
(** ** Test doubles of the file system *)
(* ===================================================================== *)

Module FileDoubles.
Import Effects.

(** A file system rooted at [/srv/app]: the path is appended to the root of
    the documents, two dots and a slash at its head taking it to the
    parent directory. *)
Definition resolve_doc (file_path : string) (w : unit)
  : result string * unit :=
  (Ok (if String.prefix "../" file_path
       then ("/srv/app/" ++ String.substring 3 (String.length file_path - 3)
                              file_path)%string
       else ("/srv/app/docs/" ++ file_path)%string), w).

Definition resolve_root (w : unit) : result string * unit :=
  (Ok "/srv/app/docs", w).

Definition path_exists (_ : string) (w : unit) : result bool * unit :=
  (Ok true, w).

Definition read (_ : string) (w : unit) : result string * unit :=
  (Ok "# Notes", w).

Definition start : world unit := {| ext := tt; calls := [] |}.

End FileDoubles.

(* ===================================================================== *)
(** * Properties *)
(* ===================================================================== *)

Import PyNum Effects.

(** One step of a run: the operations of the monad unfolded. *)
Ltac run :=
  unfold Effects.try_except, Effects.bind, Effects.provider,
    Effects.local_effect, Effects.raise, Effects.ret.

(** A hypothesis [In x [a; b; ...]] split into its cases. *)
Ltac each_member H tac :=
  simpl in H;
  repeat (destruct H as [H | H]; [tac |]);
  try contradiction.

(** ** Rounding and doubles *)

Lemma round_half_even_le (q : Q) (b : Z) :
  q <= inject_Z b -> (round_half_even q <= b)%Z.
Proof.
  unfold round_half_even, Qle, inject_Z.
  destruct q as [n d]; cbn [Qnum Qden]. intros Hb.
  pose proof (Z.div_mod n (Zpos d) ltac:(lia)) as Hdm.
  pose proof (Z.mod_pos_bound n (Zpos d) ltac:(lia)) as Hr.
  set (f := (n / Zpos d)%Z) in *. set (r := (n mod Zpos d)%Z) in *.
  assert (Hfb : (f < b \/ (f = b /\ r = 0))%Z) by nia.
  destruct (Z.compare_spec (2 * r) (Zpos d)) as [He | Hl | Hg];
    [destruct (Z.even f) |..]; lia.
Qed.

Lemma round_half_even_ge (q : Q) (a : Z) :
  inject_Z a <= q -> (a <= round_half_even q)%Z.
Proof.
  unfold round_half_even, Qle, inject_Z.
  destruct q as [n d]; cbn [Qnum Qden]. intros Ha.
  pose proof (Z.div_mod n (Zpos d) ltac:(lia)) as Hdm.
  pose proof (Z.mod_pos_bound n (Zpos d) ltac:(lia)) as Hr.
  set (f := (n / Zpos d)%Z) in *. set (r := (n mod Zpos d)%Z) in *.
  assert (Hfa : (a <= f)%Z) by nia.
  destruct (Z.compare_spec (2 * r) (Zpos d)) as [He | Hl | Hg];
    [destruct (Z.even f) |..]; lia.
Qed.

Lemma pow2_pos (x : Z) : 0 < 2 ^ x.
Proof. apply Qpower_0_lt. reflexivity. Qed.

Lemma two_not_0 : ~ 2 == 0.
Proof. discriminate. Qed.

(** [2 ^ ilog2 q] is at most [|q|]. *)
Lemma ilog2_le (q : Q) : ~ q == 0 -> 2 ^ ilog2 q <= Qabs q.
Proof.
  intros Hq. unfold ilog2.
  set (n := Z.abs (Qnum q)). set (d := Zpos (Qden q)).
  destruct (Qle_bool (2 ^ (Z.log2 n - Z.log2 d)) (Qabs q)) eqn:H;
    [apply Qle_bool_iff; exact H |].
  assert (Hn : (0 < n)%Z).
  { subst n. destruct q as [[| p | p] dq]; cbn; try lia.
    exfalso. apply Hq. reflexivity. }
  pose proof (Z.log2_spec n Hn) as [Hlo _].
  pose proof (Z.log2_spec d ltac:(subst d; lia)) as [_ Hhi].
  pose proof (Z.log2_nonneg n) as Ha. pose proof (Z.log2_nonneg d) as Hb.
  set (a := Z.log2 n) in *. set (b := Z.log2 d) in *.
  replace (a - b - 1)%Z with (a - (b + 1))%Z by lia.
  rewrite (Qpower_minus 2 a (b + 1) two_not_0).
  rewrite <- !(Zpower_Qpower 2) by lia.
  apply Qle_shift_div_r.
  - change 0 with (inject_Z 0). rewrite <- Zlt_Qlt. lia.
  - assert (Habs : Qabs q = n # Qden q) by (destruct q; reflexivity).
    rewrite Habs. unfold Qle, Qmult, inject_Z; cbn [Qnum Qden].
    fold d. nia.
Qed.

Lemma pow2_int (x : Z) : (0 <= x)%Z -> 2 ^ x == inject_Z (2 ^ x).
Proof. intros H. now rewrite (Zpower_Qpower 2 x H). Qed.

(** Below [2 ^ 53] the unit in the last place is at most 1. *)
Lemma ulp_exponent_small (q : Q) :
  Qabs q < inject_Z (2 ^ 53) -> (ulp_exponent q <= 0)%Z.
Proof.
  intros Hlt. unfold ulp_exponent.
  destruct (Qeq_dec q 0) as [H0 | H0].
  - assert (ilog2 q <= 52)%Z; [| lia].
    unfold ilog2. destruct q as [n d]. unfold Qeq in H0; cbn in H0.
    assert (n = 0%Z) by lia. subst n. cbn [Qnum Qden Z.abs].
    pose proof (Z.log2_nonneg (Zpos d)).
    change (Z.log2 0) with 0%Z.
    destruct (Qle_bool _ _); lia.
  - pose proof (ilog2_le q H0) as Hle.
    assert (ilog2 q <= 52)%Z; [| lia].
    destruct (Z_le_gt_dec (ilog2 q) 52) as [|Hgt]; [assumption | exfalso].
    assert (H53 : 2 ^ 53 <= 2 ^ ilog2 q).
    { apply Qpower_le_compat_l; [lia | discriminate]. }
    rewrite (pow2_int 53) in H53 by lia.
    apply (Qlt_irrefl (Qabs q)).
    eapply Qlt_le_trans; [exact Hlt |]. eapply Qle_trans; eassumption.
Qed.

(** Rounding to a double does not cross an integer below [2 ^ 53]. *)
Lemma to_double_le_int (q : Q) (k : Z) :
  Qabs q < inject_Z (2 ^ 53) ->
  q <= inject_Z k -> to_double q <= inject_Z k.
Proof.
  intros Hsmall Hle. unfold to_double.
  pose proof (ulp_exponent_small q Hsmall) as Hx.
  set (x := ulp_exponent q) in *.
  assert (Hk : inject_Z k == inject_Z (k * 2 ^ (- x)) * 2 ^ x).
  { rewrite inject_Z_mult, (Zpower_Qpower 2 (- x)) by lia.
    rewrite <- Qmult_assoc, <- Qpower_plus by exact two_not_0.
    replace (- x + x)%Z with 0%Z by lia. cbn. ring. }
  rewrite Hk. apply Qmult_le_compat_r; [| apply Qlt_le_weak, pow2_pos].
  rewrite <- Zle_Qle. apply round_half_even_le.
  apply Qle_shift_div_r; [apply pow2_pos |]. rewrite <- Hk. exact Hle.
Qed.

Lemma to_double_ge_int (q : Q) (k : Z) :
  Qabs q < inject_Z (2 ^ 53) ->
  inject_Z k <= q -> inject_Z k <= to_double q.
Proof.
  intros Hsmall Hle. unfold to_double.
  pose proof (ulp_exponent_small q Hsmall) as Hx.
  set (x := ulp_exponent q) in *.
  assert (Hk : inject_Z k == inject_Z (k * 2 ^ (- x)) * 2 ^ x).
  { rewrite inject_Z_mult, (Zpower_Qpower 2 (- x)) by lia.
    rewrite <- Qmult_assoc, <- Qpower_plus by exact two_not_0.
    replace (- x + x)%Z with 0%Z by lia. cbn. ring. }
  rewrite Hk. apply Qmult_le_compat_r; [| apply Qlt_le_weak, pow2_pos].
  rewrite <- Zle_Qle. apply round_half_even_ge.
  apply Qle_shift_div_l; [apply pow2_pos |]. rewrite <- Hk. exact Hle.
Qed.


Lemma small_of_bounds (q : Q) (k : Z) :
  0 <= q -> q <= inject_Z k -> (k < 2 ^ 53)%Z ->
  Qabs q < inject_Z (2 ^ 53).
Proof.
  intros H0 Hk Hlt. rewrite Qabs_pos by exact H0.
  eapply Qle_lt_trans; [exact Hk |]. now rewrite <- Zlt_Qlt.
Qed.

(** A sum or quotient between 0 and an integer below [2 ^ 53] stays there
    when rounded. *)
Lemma to_double_between (q : Q) (k : Z) :
  0 <= q -> q <= inject_Z k -> (k < 2 ^ 53)%Z ->
  0 <= to_double q /\ to_double q <= inject_Z k.
Proof.
  intros H0 Hk Hlt.
  pose proof (small_of_bounds q k H0 Hk Hlt) as Hs. split.
  - change 0 with (inject_Z 0). now apply to_double_ge_int.
  - now apply to_double_le_int.
Qed.

(** Below [2 ^ 53] nothing overflows. *)
Lemma float_of_between (q : Q) (k : Z) :
  0 <= q -> q <= inject_Z k -> (k < 2 ^ 53)%Z ->
  float_of q = PFloat (to_double q)
  /\ 0 <= to_double q /\ to_double q <= inject_Z k.
Proof.
  intros H0 Hk Hlt.
  destruct (to_double_between q k H0 Hk Hlt) as [Ha Hb].
  split; [| split; assumption].
  unfold float_of. destruct (Qle_bool (2 ^ 1024) (Qabs (to_double q))) eqn:Ho;
    [| reflexivity].
  exfalso. apply Qle_bool_iff in Ho. rewrite Qabs_pos in Ho by exact Ha.
  assert (Hbig : inject_Z k < 2 ^ 1024).
  { eapply Qlt_le_trans; [rewrite <- Zlt_Qlt; exact Hlt |].
    rewrite (Zpower_Qpower 2 53) by lia.
    apply Qpower_le_compat_l; [lia | discriminate]. }
  apply (Qlt_irrefl (2 ^ 1024)).
  eapply Qle_lt_trans; [exact Ho |]. eapply Qle_lt_trans; eassumption.
Qed.

Lemma float_of_unit_interval (q : Q) :
  Spec.in_unit_interval q ->
  float_of q = PFloat (to_double q) /\ Spec.in_unit_interval (to_double q).
Proof.
  intros [H0 H1]. apply (float_of_between q 1); [exact H0 | exact H1 | lia].
Qed.

Lemma to_double_int (n : Z) :
  (0 <= n < 2 ^ 53)%Z -> to_double (inject_Z n) == inject_Z n.
Proof.
  intros Hn.
  assert (H0 : 0 <= inject_Z n).
  { change 0 with (inject_Z 0). rewrite <- Zle_Qle. lia. }
  pose proof (small_of_bounds (inject_Z n) n H0 (Qle_refl _) ltac:(lia)) as Hs.
  apply Qle_antisym.
  - apply to_double_le_int; [exact Hs | apply Qle_refl].
  - apply to_double_ge_int; [exact Hs | apply Qle_refl].
Qed.

Lemma fadd_finite (acc : pynum) (x : Q) :
  (forall negative, acc <> PInf negative) ->
  fadd acc x = float_of (num_val acc + x).
Proof.
  destruct acc as [z | a | b]; intros Hf; [reflexivity | reflexivity |].
  exfalso. exact (Hf b eq_refl).
Qed.

Lemma fdiv_finite (acc : pynum) (n : Z) :
  (forall negative, acc <> PInf negative) ->
  fdiv acc n = float_of (num_val acc / to_double (inject_Z n)).
Proof.
  destruct acc as [z | a | b]; intros Hf; [reflexivity | reflexivity |].
  exfalso. exact (Hf b eq_refl).
Qed.

Lemma PFloat_finite (lo hi q : Q) :
  lo <= q -> q <= hi -> Measures.finite_between lo hi (PFloat q).
Proof. intros H0 H1. split; [discriminate | split; assumption]. Qed.

Lemma sum_unit_interval (xs : list Q) :
  forall (acc : pynum) (n : Z),
    Forall Spec.in_unit_interval xs ->
    Measures.finite_between 0 (inject_Z n) acc ->
    (n + Z.of_nat (List.length xs) < 2 ^ 53)%Z ->
    Measures.finite_between 0 (inject_Z (n + Z.of_nat (List.length xs)))
      (fold_left fadd xs acc).
Proof.
  induction xs as [| x xs IH]; intros acc n Hall Hacc Hlen;
    cbn [fold_left List.length] in *.
  - now rewrite Z.add_0_r.
  - inversion Hall as [| ? ? [Hx0 Hx1] Hall']; subst.
    destruct Hacc as (Hfin & H0 & Hn).
    rewrite Nat2Z.inj_succ in *.
    assert (Hsum0 : 0 <= num_val acc + x).
    { change 0 with (0 + 0). apply Qplus_le_compat; assumption. }
    assert (Hsum1 : num_val acc + x <= inject_Z (n + 1)).
    { rewrite inject_Z_plus. apply Qplus_le_compat; assumption. }
    destruct (float_of_between _ (n + 1) Hsum0 Hsum1 ltac:(lia))
      as (Hf & Ha0 & Ha1).
    rewrite (fadd_finite acc x Hfin), Hf.
    replace (n + Z.succ (Z.of_nat (List.length xs)))%Z
      with (n + 1 + Z.of_nat (List.length xs))%Z by lia.
    apply IH; [exact Hall' | now apply PFloat_finite | lia].
Qed.

Lemma avg_score_unit_interval (x : Q) (xs : list Q) :
  (Z.of_nat (List.length (x :: xs)) < 2 ^ 53)%Z ->
  Forall Spec.in_unit_interval (x :: xs) ->
  exists m, avg_score (x :: xs) = PFloat m /\ Spec.in_unit_interval m.
Proof.
  intros Hlen Hall. unfold avg_score, sum.
  set (len := Z.of_nat (List.length (x :: xs))) in *.
  assert (Hpos : (0 < len)%Z) by (subst len; cbn [List.length]; lia).
  assert (Hstart : Measures.finite_between 0 (inject_Z 0) (PInt 0)).
  { split; [discriminate | split; apply Qle_refl]. }
  destruct (sum_unit_interval (x :: xs) (PInt 0) 0 Hall Hstart
              ltac:(fold len; lia)) as (Hfin & S0 & S1).
  fold len in S1. rewrite Z.add_0_l in S1.
  rewrite (fdiv_finite _ len Hfin).
  pose proof (to_double_int len ltac:(lia)) as Hn.
  set (s := num_val (fold_left fadd (x :: xs) (PInt 0))) in *.
  set (N := to_double (inject_Z len)) in *.
  assert (HN : 0 < N).
  { rewrite Hn. change 0 with (inject_Z 0). rewrite <- Zlt_Qlt. exact Hpos. }
  assert (Hq : Spec.in_unit_interval (s / N)).
  { split.
    - apply Qle_shift_div_l; [exact HN |]. now rewrite Qmult_0_l.
    - apply Qle_shift_div_r; [exact HN |]. rewrite Qmult_1_l, Hn. exact S1. }
  destruct (float_of_unit_interval _ Hq) as [Hf Hu].
  exists (to_double (s / N)). split; [exact Hf | exact Hu].
Qed.

Lemma round2_unit_interval (q : Q) :
  Spec.in_unit_interval q ->
  exists c, round2 (PFloat q) = PFloat c /\ Spec.in_unit_interval c.
Proof.
  intros [H0 H1]. cbn [round2].
  assert (Ha : (0 <= round_half_even (q * 100))%Z).
  { apply round_half_even_ge. change (inject_Z 0) with (0 * 100).
    apply Qmult_le_compat_r; [exact H0 | discriminate]. }
  assert (Hb : (round_half_even (q * 100) <= 100)%Z).
  { apply round_half_even_le. change (inject_Z 100) with (1 * 100).
    apply Qmult_le_compat_r; [exact H1 | discriminate]. }
  assert (Hq : Spec.in_unit_interval (round_half_even (q * 100) # 100)).
  { unfold Spec.in_unit_interval, Qle; cbn. lia. }
  destruct (float_of_unit_interval _ Hq) as [Hf Hu].
  eexists. split; [exact Hf | exact Hu].
Qed.

Lemma confidence_empty : round2 (avg_score []) = PInt 0.
Proof. reflexivity. Qed.


Lemma float_of_hundredths (n : Z) :
  (exists negative, float_of (n # 100) = PInf negative)
  \/ exists k : Z, num_val (float_of (n # 100)) == to_double (k # 100).
Proof.
  unfold float_of. destruct (Qle_bool _ _).
  - left. eexists. reflexivity.
  - right. exists n. reflexivity.
Qed.

Lemma avg_score_not_int (x : Q) (xs : list Q) (z : Z) :
  avg_score (x :: xs) <> PInt z.
Proof.
  unfold avg_score, fdiv, float_of.
  destruct (sum (x :: xs)); try destruct (Qle_bool _ _); discriminate.
Qed.

Lemma confidence_bounded (scores : list Q) :
  Spec.bounded_confidence scores (round2 (avg_score scores)).
Proof.
  destruct scores as [| x xs].
  - split.
    + right. exists 0%Z. reflexivity.
    + intros _ _. split; [discriminate | split; discriminate].
  - split.
    + destruct (avg_score (x :: xs)) as [z | m | b] eqn:Havg; cbn [round2].
      * exfalso. exact (avg_score_not_int x xs z Havg).
      * apply float_of_hundredths.
      * left. eexists. reflexivity.
    + intros Hlen Hall.
      destruct (avg_score_unit_interval x xs Hlen Hall) as (m & -> & Hm).
      destruct (round2_unit_interval m Hm) as (c & -> & Hc).
      split; [discriminate | exact Hc].
Qed.

(** ** The [/query] endpoint, run by run *)

Section Endpoint.
Variables (W vector : Type).
Variable embeddings_create : string -> string -> W -> result vector * W.
Variable query_points :
  string -> vector -> option Z -> W -> result (list ScoredPoint) * W.
Variable generate_content :
  string -> Main.generation_config -> W -> result string * W.
Variable COLLECTION_NAME : string.
Variable config : Main.generation_config.

Local Abbreviation query_chatbot :=
  (Main.query_chatbot W vector embeddings_create query_points
     generate_content COLLECTION_NAME config).
Local Abbreviation embed_call request :=
  (EmbeddingsCreate "text-embedding-3-small" (Main.question request)).
Local Abbreviation search_call request :=
  (QueryPoints COLLECTION_NAME (Main.max_results request)).
Local Abbreviation prompt_of request hits :=
  (Main.combined_prompt request (Main.context_parts_from 1 hits)).

Lemma build_context_eq (hits : list ScoredPoint) :
  forall i srcs parts,
    Main.build_context i hits srcs parts
    = (srcs ++ map Main.to_source hits,
       parts ++ Main.context_parts_from i hits).
Proof.
  induction hits as [| hit rest IH]; intros i srcs parts; cbn.
  - now rewrite !app_nil_r.
  - rewrite IH, <- !app_assoc. reflexivity.
Qed.

Lemma scores_of_sources (hits : list ScoredPoint) :
  map src_score (map Main.to_source hits) = map hit_score hits.
Proof. rewrite map_map. reflexivity. Qed.

Lemma vague_short_circuit (request : Main.QueryRequest) (s : world W) :
  Main.is_vague (Main.question request) = true ->
  query_chatbot request s
  = (Ok {| answer := Main.greeting; sources := []; confidence := PFloat 1 |},
     s).
Proof.
  intros Hv. unfold Main.query_chatbot, Main.query_body.
  rewrite Hv. reflexivity.
Qed.


Lemma query_search_fails request s v w1 e w2 :
  Main.is_vague (Main.question request) = false ->
  embeddings_create "text-embedding-3-small" (Main.question request) (ext s)
  = (Ok v, w1) ->
  query_points COLLECTION_NAME v (Main.max_results request) w1
  = (Raise e, w2) ->
  query_chatbot request s
  = (Raise (HTTPException 500 (str_exn e)),
     {| ext := w2;
        calls := (calls s ++ [embed_call request]) ++ [search_call request] |}).
Proof.
  intros Hv He Hq.
  unfold Main.query_chatbot, Main.query_body. run.
  rewrite Hv, He. cbn [ext calls]. rewrite Hq. reflexivity.
Qed.


Lemma query_completes request s v w1 hits w2 text w3 :
  Main.is_vague (Main.question request) = false ->
  embeddings_create "text-embedding-3-small" (Main.question request) (ext s)
  = (Ok v, w1) ->
  query_points COLLECTION_NAME v (Main.max_results request) w1
  = (Ok hits, w2) ->
  generate_content (prompt_of request hits) config w2 = (Ok text, w3) ->
  query_chatbot request s
  = (Ok {| answer := text;
           sources := map Main.to_source hits;
           confidence := round2 (avg_score (map hit_score hits)) |},
     {| ext := w3;
        calls := ((calls s ++ [embed_call request]) ++ [search_call request])
                 ++ [GenerateContent (prompt_of request hits)] |}).
Proof.
  intros Hv He Hq Hg.
  unfold Main.query_chatbot, Main.query_body. run.
  rewrite Hv, He. cbn [ext calls]. rewrite Hq. cbn [ext calls].
  rewrite build_context_eq. cbn [app ext calls]. rewrite Hg.
  rewrite scores_of_sources. reflexivity.
Qed.

End Endpoint.

(** ** The service-level query, run by run *)

Section ServiceRuns.
Variables (W vector : Type).
Variable embeddings_create : string -> string -> W -> result vector * W.
Variable search :
  string -> vector -> Z -> W -> result (list ScoredPoint) * W.
Variable chat_completion :
  string -> string -> string -> Z -> Q -> W -> result string * W.
Variable new_embedding_service :
  W -> result EmbeddingService.EmbeddingService * W.

Local Abbreviation query :=
  (RAGService.query W vector embeddings_create search chat_completion
     new_embedding_service).
Local Abbreviation user_prompt_of question extra hits :=
  (RAGService.user_prompt
     (RAGService.with_additional_context extra
        (PyStr.join (RAGService.nl ++ RAGService.nl)%string
           (RAGService.context_parts 1 (map RAGService.to_source hits))))
     question).

Lemma service_scores_of_sources (hits : list ScoredPoint) :
  map src_score (map RAGService.to_source hits) = map hit_score hits.
Proof. rewrite map_map. reflexivity. Qed.

Lemma service_query_completes
    self question k extra s svc w0 v w1 hits w2 text w3 :
  new_embedding_service (ext s) = (Ok svc, w0) ->
  embeddings_create (EmbeddingService.model svc) question w0 = (Ok v, w1) ->
  search (RAGService.collection_name self) v k w1 = (Ok hits, w2) ->
  chat_completion (RAGService.chat_model self) RAGService.system_prompt
    (user_prompt_of question extra hits) (RAGService.max_tokens self)
    (RAGService.temperature self) w2 = (Ok text, w3) ->
  query self question k extra s
  = (Ok {| answer := text;
           sources := map RAGService.to_source hits;
           confidence := round2 (avg_score (map hit_score hits)) |},
     {| ext := w3;
        calls := ((calls s
                   ++ [EmbeddingsCreate (EmbeddingService.model svc) question])
                  ++ [Search (RAGService.collection_name self) k])
                 ++ [ChatCompletion RAGService.system_prompt
                       (user_prompt_of question extra hits)] |}).
Proof.
  intros Hn He Hq Hg.
  unfold RAGService.query, RAGService.create_embedding,
    RAGService.search_similar, Files.fs. run.
  rewrite Hn. cbn [ext calls]. rewrite He. cbn [ext calls]. rewrite Hq.
  cbn [ext calls]. rewrite Hg.
  rewrite service_scores_of_sources. reflexivity.
Qed.

End ServiceRuns.

(** ** The claims about the query *)

(** C1.  A question that, lower-cased and stripped, is one of "hi", "hello",
    "hey", "ok", "thanks" is answered with the canned greeting, no sources
    and confidence 1.0, and the world is left as it was: no embedding,
    search or generation call is added to the log. *)
Theorem query_chatbot_greeting_short_circuit
    (W vector : Type)
    (embeddings_create : string -> string -> W -> result vector * W)
    (query_points :
       string -> vector -> option Z -> W -> result (list ScoredPoint) * W)
    (generate_content :
       string -> Main.generation_config -> W -> result string * W)
    (COLLECTION_NAME : string) (config : Main.generation_config)
    (request : Main.QueryRequest) (s : world W) :
  In (PyStr.strip (PyStr.lower (Main.question request)))
     ["hi"; "hello"; "hey"; "ok"; "thanks"] ->
  let out :=
    Main.query_chatbot W vector embeddings_create query_points
      generate_content COLLECTION_NAME config request s in
  fst out
  = Ok {| answer := Main.greeting; sources := []; confidence := PFloat 1 |}
  /\ snd out = s
  /\ calls (snd out) = calls s.
Proof.
  intros Hin out. subst out.
  rewrite vague_short_circuit; [repeat split |].
  unfold Main.is_vague.
  each_member Hin ltac:(rewrite <- Hin; reflexivity).
Qed.

Lemma query_chatbot_greeting_short_circuit_witness :
  In (PyStr.strip (PyStr.lower (Main.question (Doubles.ask "  HeLLo "))))
     ["hi"; "hello"; "hey"; "ok"; "thanks"]
  /\ fst (Doubles.query_missing "  HeLLo ")
     = Ok {| answer := Main.greeting; sources := [];
             confidence := PFloat 1 |}
  /\ calls (snd (Doubles.query_missing "  HeLLo ")) = [].
Proof.
  assert (H : In (PyStr.strip (PyStr.lower
                 (Main.question (Doubles.ask "  HeLLo "))))
                ["hi"; "hello"; "hey"; "ok"; "thanks"]).
  { vm_compute. right. left. reflexivity. }
  split; [exact H |].
  destruct (query_chatbot_greeting_short_circuit unit unit Doubles.embed_ok
              Doubles.index_missing Doubles.generate_ok
              "robotics_book_embeddings" Doubles.config
              (Doubles.ask "  HeLLo ") Doubles.start H) as (Ha & _ & Hc).
  split; [exact Ha | exact Hc].
Defined.

(** C9.  The short-circuit set of the endpoint is larger than the five
    words of the specification: a question that, lower-cased and stripped,
    is one of "ji", "yes", "no", "okay", "thank you" (none of which is among
    the five) is answered in the same way, with the canned greeting, no
    sources, confidence 1.0 and no provider call. *)
Theorem query_chatbot_further_fillers_short_circuit
    (W vector : Type)
    (embeddings_create : string -> string -> W -> result vector * W)
    (query_points :
       string -> vector -> option Z -> W -> result (list ScoredPoint) * W)
    (generate_content :
       string -> Main.generation_config -> W -> result string * W)
    (COLLECTION_NAME : string) (config : Main.generation_config)
    (request : Main.QueryRequest) (s : world W) :
  In (PyStr.strip (PyStr.lower (Main.question request)))
     ["ji"; "yes"; "no"; "okay"; "thank you"] ->
  let out :=
    Main.query_chatbot W vector embeddings_create query_points
      generate_content COLLECTION_NAME config request s in
  ~ In (PyStr.strip (PyStr.lower (Main.question request)))
       ["hi"; "hello"; "hey"; "ok"; "thanks"]
  /\ fst out
     = Ok {| answer := Main.greeting; sources := []; confidence := PFloat 1 |}
  /\ snd out = s
  /\ calls (snd out) = calls s.
Proof.
  intros Hin out. subst out. split.
  - intros Hfive.
    each_member Hin
      ltac:(rewrite <- Hin in Hfive;
            each_member Hfive ltac:(discriminate Hfive)).
  - rewrite vague_short_circuit; [repeat split |].
    unfold Main.is_vague.
    each_member Hin ltac:(rewrite <- Hin; reflexivity).
Qed.

Lemma query_chatbot_further_fillers_short_circuit_witness :
  In (PyStr.strip (PyStr.lower (Main.question (Doubles.ask " Thank YOU  "))))
     ["ji"; "yes"; "no"; "okay"; "thank you"]
  /\ fst (Doubles.query_missing " Thank YOU  ")
     = Ok {| answer := Main.greeting; sources := [];
             confidence := PFloat 1 |}
  /\ calls (snd (Doubles.query_missing " Thank YOU  ")) = [].
Proof.
  assert (H : In (PyStr.strip (PyStr.lower
                 (Main.question (Doubles.ask " Thank YOU  "))))
                ["ji"; "yes"; "no"; "okay"; "thank you"]).
  { vm_compute. do 4 right. left. reflexivity. }
  split; [exact H |].
  destruct (query_chatbot_further_fillers_short_circuit unit unit
              Doubles.embed_ok Doubles.index_missing Doubles.generate_ok
              "robotics_book_embeddings" Doubles.config
              (Doubles.ask " Thank YOU  ") Doubles.start H) as (_ & Ha & _ & Hc).
  split; [exact Ha | exact Hc].
Defined.




(** C3, as stated, fails: with the collection missing the search raises and
    the question "What is ROS 2?" ends in an HTTP 500 error, not in a
    response with zero sources. *)
Lemma query_on_missing_collection_fails :
  fst (Doubles.query_missing "What is ROS 2?")
  = Raise (HTTPException 500
             "Collection `robotics_book_embeddings` doesn't exist!")
  /\ ~ (exists r, fst (Doubles.query_missing "What is ROS 2?") = Ok r
                  /\ sources r = [] /\ num_val (confidence r) == 0).
Proof.
  split; [reflexivity |].
  intros (r & Hr & _). discriminate Hr.
Qed.

(** C3, amended.  For a question that is not a conversational filler and
    whose embedding succeeds: when the search returns no point (an empty
    collection) and the generation provider answers, the query completes
    with zero sources and confidence 0; when the search raises (a missing
    collection), the query fails with one HTTP 500 error whose detail is the
    cause, and the generation provider is not called. *)
Theorem query_on_empty_or_missing_collection
    (W vector : Type)
    (embeddings_create : string -> string -> W -> result vector * W)
    (query_points :
       string -> vector -> option Z -> W -> result (list ScoredPoint) * W)
    (generate_content :
       string -> Main.generation_config -> W -> result string * W)
    (COLLECTION_NAME : string) (config : Main.generation_config)
    (request : Main.QueryRequest) (s : world W) v w1 :
  Main.is_vague (Main.question request) = false ->
  embeddings_create "text-embedding-3-small" (Main.question request) (ext s)
  = (Ok v, w1) ->
  let out :=
    Main.query_chatbot W vector embeddings_create query_points
      generate_content COLLECTION_NAME config request s in
  (forall w2 text w3,
      query_points COLLECTION_NAME v (Main.max_results request) w1
      = (Ok [], w2) ->
      generate_content (Main.combined_prompt request []) config w2
      = (Ok text, w3) ->
      exists r, fst out = Ok r /\ answer r = text /\ sources r = []
                /\ num_val (confidence r) == 0)
  /\
  (forall e w2,
      query_points COLLECTION_NAME v (Main.max_results request) w1
      = (Raise e, w2) ->
      fst out = Raise (HTTPException 500 (str_exn e))
      /\ calls (snd out)
         = calls s
           ++ [EmbeddingsCreate "text-embedding-3-small"
                 (Main.question request);
               QueryPoints COLLECTION_NAME (Main.max_results request)]).
Proof.
  intros Hv He out. subst out. split.
  - intros w2 text w3 Hq Hg.
    rewrite (query_completes _ _ _ _ _ _ _ _ _ _ _ [] _ _ _ Hv He Hq Hg).
    eexists. cbn. repeat split; reflexivity.
  - intros e w2 Hq.
    rewrite (query_search_fails _ _ _ _ _ _ _ _ _ _ _ _ _ Hv He Hq).
    cbn [fst snd calls]. rewrite <- app_assoc. split; reflexivity.
Qed.

Lemma query_on_empty_or_missing_collection_witness :
  (exists r, fst (Doubles.query_with [] "What is ROS 2?") = Ok r
             /\ answer r = "ROS 2 is a robotics middleware."
             /\ sources r = [] /\ num_val (confidence r) == 0)
  /\ fst (Doubles.query_missing "What is ROS 2?")
     = Raise (HTTPException 500
                "Collection `robotics_book_embeddings` doesn't exist!").
Proof.
  split.
  - apply (proj1 (query_on_empty_or_missing_collection unit unit
                    Doubles.embed_ok (Doubles.index_with [])
                    Doubles.generate_ok "robotics_book_embeddings"
                    Doubles.config (Doubles.ask "What is ROS 2?")
                    Doubles.start tt tt eq_refl eq_refl)
             tt "ROS 2 is a robotics middleware." tt); reflexivity.
  - apply (proj2 (query_on_empty_or_missing_collection unit unit
                    Doubles.embed_ok Doubles.index_missing
                    Doubles.generate_ok "robotics_book_embeddings"
                    Doubles.config (Doubles.ask "What is ROS 2?")
                    Doubles.start tt tt eq_refl eq_refl)
             (Exception "Collection `robotics_book_embeddings` doesn't exist!")
             tt eq_refl).
Defined.

(** C7, as stated, fails: the index may return a negative cosine
    similarity, and the confidence of a single passage of score -0.5 is
    -0.5, outside [0, 1].  (-0.5 is a double: the sum [0 + -0.5], the
    division by 1 and the rounding to 2 decimal places all give -0.5
    again.) *)
Lemma query_confidence_can_be_negative :
  exists r s',
    Doubles.query_with [Doubles.hit (- (1 # 2)) "Gazebo is a simulator."]
      "What is ROS 2?" = (Ok r, s')
    /\ num_val (confidence r) == - (1 # 2)
    /\ ~ Spec.in_unit_interval (num_val (confidence r)).
Proof.
  do 2 eexists. split; [reflexivity |].
  split; [vm_compute; reflexivity |].
  intros [H0 _]. vm_compute in H0. apply H0. reflexivity.
Qed.

(** C7, amended.  For every completed query that is not short-circuited, of
    the endpoint and of the service, the confidence is the double nearest to
    a whole number of hundredths (or an infinity, when the sum of the scores
    goes beyond the doubles), and it is finite and lies in [0, 1] whenever
    every similarity score the index returned lies in [0, 1] (for fewer than
    [2 ^ 53] passages, beyond which the count is no double). *)
Theorem query_confidence_bounded_by_scores :
  (forall (W vector : Type)
      (embeddings_create : string -> string -> W -> result vector * W)
      (query_points :
         string -> vector -> option Z -> W -> result (list ScoredPoint) * W)
      (generate_content :
         string -> Main.generation_config -> W -> result string * W)
      (COLLECTION_NAME : string) (config : Main.generation_config)
      (request : Main.QueryRequest) (s : world W) v w1 hits w2 text w3,
      Main.is_vague (Main.question request) = false ->
      embeddings_create "text-embedding-3-small" (Main.question request)
        (ext s) = (Ok v, w1) ->
      query_points COLLECTION_NAME v (Main.max_results request) w1
      = (Ok hits, w2) ->
      generate_content
        (Main.combined_prompt request (Main.context_parts_from 1 hits))
        config w2 = (Ok text, w3) ->
      exists r s',
        Main.query_chatbot W vector embeddings_create query_points
          generate_content COLLECTION_NAME config request s = (Ok r, s')
        /\ Spec.bounded_confidence (map hit_score hits) (confidence r))
  /\
  (forall (W vector : Type)
      (embeddings_create : string -> string -> W -> result vector * W)
      (search : string -> vector -> Z -> W -> result (list ScoredPoint) * W)
      (chat_completion :
         string -> string -> string -> Z -> Q -> W -> result string * W)
      (new_embedding_service :
         W -> result EmbeddingService.EmbeddingService * W)
      (self : RAGService.RAGService)
      (question : string) (k : Z) (extra : option string)
      (s : world W) svc w0 v w1 hits w2 text w3,
      new_embedding_service (ext s) = (Ok svc, w0) ->
      embeddings_create (EmbeddingService.model svc) question w0
      = (Ok v, w1) ->
      search (RAGService.collection_name self) v k w1 = (Ok hits, w2) ->
      chat_completion (RAGService.chat_model self) RAGService.system_prompt
        (RAGService.user_prompt
           (RAGService.with_additional_context extra
              (PyStr.join (RAGService.nl ++ RAGService.nl)%string
                 (RAGService.context_parts 1
                    (map RAGService.to_source hits))))
           question)
        (RAGService.max_tokens self) (RAGService.temperature self) w2
      = (Ok text, w3) ->
      exists r s',
        RAGService.query W vector embeddings_create search chat_completion
          new_embedding_service self question k extra s = (Ok r, s')
        /\ Spec.bounded_confidence (map hit_score hits) (confidence r)).
Proof.
  split.
  - intros W vector ec qp gc coll cfg request s v w1 hits w2 text w3
      Hv He Hq Hg.
    do 2 eexists. split.
    + eapply query_completes; eassumption.
    + apply confidence_bounded.
  - intros W vector ec sr cc ns self question k extra s svc w0 v w1 hits w2
      text w3 Hn He Hq Hg.
    do 2 eexists. split.
    + eapply service_query_completes; eassumption.
    + apply confidence_bounded.
Qed.

Lemma query_confidence_bounded_by_scores_witness :
  (exists r s',
      Doubles.query_with
        [Doubles.hit (to_double (91 # 100)) "ROS 2 is a robotics middleware...";
         Doubles.hit (to_double (1 # 3)) "Gazebo is a simulator."]
        "What is ROS 2?" = (Ok r, s')
      /\ Spec.bounded_confidence [to_double (91 # 100); to_double (1 # 3)]
           (confidence r))
  /\
  (exists r s',
      Doubles.service_query_with [Doubles.hit 1 "Isaac Sim"]
        "What is ROS 2?" = (Ok r, s')
      /\ Spec.bounded_confidence [1] (confidence r)).
Proof.
  split.
  - apply (proj1 query_confidence_bounded_by_scores unit unit Doubles.embed_ok
             (Doubles.index_with
                [Doubles.hit (to_double (91 # 100))
                   "ROS 2 is a robotics middleware...";
                 Doubles.hit (to_double (1 # 3)) "Gazebo is a simulator."])
             Doubles.generate_ok "robotics_book_embeddings" Doubles.config
             (Doubles.ask "What is ROS 2?") Doubles.start tt tt
             [Doubles.hit (to_double (91 # 100))
                "ROS 2 is a robotics middleware...";
              Doubles.hit (to_double (1 # 3)) "Gazebo is a simulator."]
             tt "ROS 2 is a robotics middleware." tt); reflexivity.
  - apply (proj2 query_confidence_bounded_by_scores unit unit Doubles.embed_ok
             (Doubles.service_index_with [Doubles.hit 1 "Isaac Sim"])
             Doubles.chat_ok Doubles.new_embedding_service Doubles.rag
             "What is ROS 2?" 5%Z None Doubles.start
             (EmbeddingService.init None None None) tt tt tt
             [Doubles.hit 1 "Isaac Sim"]
             tt "ROS 2 is a robotics middleware." tt); reflexivity.
Defined.

(** ** The token-window chunker *)

Section ChunkerFacts.
Import EmbeddingService.
Local Open Scope Z_scope.
Variable token : Type.
Variable self : EmbeddingService.
Variable tokens : list token.

Local Abbreviation len := (Z.of_nat (List.length tokens)).
Local Abbreviation step := (chunk_size self - chunk_overlap self).

Lemma window_count_done (start : Z) :
  0 < step -> len <= start -> window_count len step start = 0%nat.
Proof.
  intros Hs Hl. unfold window_count.
  assert ((len - start + step - 1) / step <= 0); [| lia].
  apply Z.lt_succ_r, Z.div_lt_upper_bound; lia.
Qed.

Lemma window_count_next (start : Z) :
  0 < step -> start < len ->
  window_count len step start = S (window_count len step (start + step)).
Proof.
  intros Hs Hl. unfold window_count.
  replace (len - start + step - 1)
    with (len - (start + step) + step - 1 + 1 * step) by ring.
  rewrite Z.div_add by lia.
  rewrite Z2Nat.inj_add; [rewrite Nat.add_1_r; reflexivity | | lia].
  apply Z.div_pos; lia.
Qed.

(** With enough fuel the loop returns the windows in closed form. *)
Lemma chunk_loop_windows (B : Type) (decode : list token -> B) :
  0 < step ->
  forall (fuel : nat) (start : Z) (chunks : list B),
    (Z.to_nat (len - start) < fuel)%nat ->
    chunk_loop token B decode self tokens fuel start chunks
    = Some (chunks
            ++ map decode
                 (windows self tokens (window_count len step start) start)).
Proof.
  intros Hs. induction fuel as [| fuel IH]; intros start chunks Hf; [lia |].
  cbn [chunk_loop]. destruct (Z.ltb_spec start len) as [Hlt | Hge].
  - rewrite IH by lia.
    rewrite (window_count_next start Hs Hlt). cbn [windows map].
    rewrite <- app_assoc. cbn [app].
    replace (start + chunk_size self - chunk_overlap self)
      with (start + step) by ring.
    reflexivity.
  - rewrite (window_count_done start Hs Hge). cbn. now rewrite app_nil_r.
Qed.

(** More fuel does not change a result. *)
Lemma chunk_loop_more_fuel (B : Type) (decode : list token -> B) :
  forall (fuel fuel' : nat) (start : Z) (chunks r : list B),
    chunk_loop token B decode self tokens fuel start chunks = Some r ->
    (fuel <= fuel')%nat ->
    chunk_loop token B decode self tokens fuel' start chunks = Some r.
Proof.
  induction fuel as [| fuel IH]; intros fuel' start chunks r Hr Hle.
  - destruct fuel'; cbn [chunk_loop] in *;
      destruct (start <? len); congruence.
  - destruct fuel' as [| fuel']; [lia |]. cbn [chunk_loop] in *.
    destruct (start <? len); [| exact Hr].
    eapply IH; [exact Hr | lia].
Qed.

(** With degenerate parameters the start index never advances: on a
    non-empty token sequence the loop is still running whatever the fuel. *)
Lemma chunk_loop_degenerate (B : Type) (decode : list token -> B) :
  chunk_size self <= chunk_overlap self -> tokens <> [] ->
  forall (fuel : nat) (start : Z) (chunks : list B),
    start <= 0 ->
    chunk_loop token B decode self tokens fuel start chunks = None.
Proof.
  intros Hd Hne.
  assert (Hlen : 0 < len) by (destruct tokens; [congruence | cbn; lia]).
  induction fuel as [| fuel IH]; intros start chunks Hs; cbn [chunk_loop];
    destruct (Z.ltb_spec start len); try lia; [reflexivity |].
  apply IH. lia.
Qed.

Lemma slice_window (start size : Z) :
  0 <= start -> 0 <= size ->
  slice tokens start (start + size)
  = firstn (Z.to_nat size) (skipn (Z.to_nat start) tokens).
Proof.
  intros Hs Hz. unfold slice, clamp.
  destruct (Z.ltb_spec start 0); [lia |].
  destruct (Z.ltb_spec (start + size) 0); [lia |].
  destruct (Z.le_gt_cases len start) as [Hout | Hin].
  - rewrite (@skipn_all2 _ (Z.to_nat start)) by lia.
    rewrite (@skipn_all2 _ (Z.to_nat (Z.min start len))) by lia.
    now rewrite !firstn_nil.
  - rewrite (Z.min_l start len) by lia.
    destruct (Z.le_gt_cases (start + size) len) as [Hfit | Hcut].
    + rewrite Z.min_l by lia. f_equal. lia.
    + rewrite Z.min_r by lia.
      rewrite (@firstn_all2 _ (Z.to_nat size)) by (rewrite length_skipn; lia).
      rewrite firstn_all2 by (rewrite length_skipn; lia). reflexivity.
Qed.

Lemma windows_length (n : nat) (start : Z) :
  List.length (windows self tokens n start) = n.
Proof.
  revert start; induction n as [| n IH]; intros start; cbn; [| rewrite IH];
    reflexivity.
Qed.

Lemma windows_nth (n i : nat) (start : Z) :
  (i < n)%nat ->
  nth_error (windows self tokens n start) i
  = Some (slice tokens (start + Z.of_nat i * step)
            (start + Z.of_nat i * step + chunk_size self)).
Proof.
  revert i start; induction n as [| n IH]; intros i start Hi; [lia |].
  destruct i as [| i]; cbn [windows nth_error].
  - do 2 f_equal; lia.
  - rewrite IH by lia. do 2 f_equal; lia.
Qed.

End ChunkerFacts.

Section ChunkerResults.
Import EmbeddingService.
Local Open Scope Z_scope.
Variable token : Type.
Variable self : EmbeddingService.
Variable tokens : list token.
Hypothesis valid : 0 <= chunk_overlap self < chunk_size self.

Local Abbreviation len := (Z.of_nat (List.length tokens)).
Local Abbreviation step := (chunk_size self - chunk_overlap self).
Local Abbreviation all_windows :=
  (windows self tokens (window_count len step 0) 0).

Lemma chunk_tokens_total :
  chunk_tokens self tokens (S (List.length tokens)) = Some all_windows.
Proof.
  unfold chunk_tokens.
  rewrite chunk_loop_windows by lia. cbn [app]. now rewrite map_id.
Qed.

Lemma chunk_tokens_any_fuel (fuel : nat) (chunks : list (list token)) :
  chunk_tokens self tokens fuel = Some chunks -> chunks = all_windows.
Proof.
  intros Hr. pose proof chunk_tokens_total as Ht. unfold chunk_tokens in *.
  apply chunk_loop_more_fuel
    with (fuel' := Nat.max fuel (S (List.length tokens))) in Hr; [| lia].
  apply chunk_loop_more_fuel
    with (fuel' := Nat.max fuel (S (List.length tokens))) in Ht; [| lia].
  congruence.
Qed.

Lemma chunk_text_total (encode : string -> list token)
    (decode : list token -> string) (text : string) :
  tokens = encode text ->
  chunk_text token encode decode self text (S (List.length tokens))
  = Some (Ok (map decode all_windows)).
Proof.
  intros Ht. unfold chunk_text. rewrite <- Ht.
  rewrite chunk_loop_windows by lia. reflexivity.
Qed.

(** Window [i + 1] starts [step] tokens into window [i]. *)
Lemma consecutive_windows (n i : nat) (ci cj : list token) :
  nth_error (windows self tokens n 0) i = Some ci ->
  nth_error (windows self tokens n 0) (S i) = Some cj ->
  skipn (Z.to_nat step) ci = firstn (Z.to_nat (chunk_overlap self)) cj.
Proof.
  intros Hi Hj.
  assert (Hlt : (S i < n)%nat).
  { rewrite <- (windows_length token self tokens n 0).
    apply nth_error_Some. congruence. }
  rewrite windows_nth in Hi, Hj by lia.
  assert (Hk : 0 <= Z.of_nat i * step) by nia.
  replace (0 + Z.of_nat (S i) * step) with (Z.of_nat i * step + step) in Hj
    by (rewrite Nat2Z.inj_succ; ring).
  rewrite Z.add_0_l in Hi.
  set (k := Z.of_nat i * step) in *.
  assert (Eci : ci = slice tokens k (k + chunk_size self)) by congruence.
  assert (Ecj : cj = slice tokens (k + step) (k + step + chunk_size self))
    by congruence.
  rewrite Eci, Ecj.
  rewrite !slice_window by lia.
  rewrite skipn_firstn_comm, skipn_skipn, firstn_firstn.
  rewrite Nat.min_l by lia.
  f_equal; [lia | f_equal; lia].
Qed.

Lemma window_count_one :
  window_count len step 0 = 1%nat <-> 0 < len <= step.
Proof.
  unfold window_count. rewrite Z.sub_0_r.
  pose proof (Z.div_mod (len + step - 1) step ltac:(lia)) as Hdm.
  pose proof (Z.mod_pos_bound (len + step - 1) step ltac:(lia)) as Hr.
  set (q := (len + step - 1) / step) in *.
  set (r := (len + step - 1) mod step) in *.
  split; intros H.
  - assert (q = 1) by lia. nia.
  - assert (q = 1) by nia. lia.
Qed.

Lemma single_window :
  0 < len <= step -> all_windows = [tokens].
Proof.
  intros H. rewrite (proj2 window_count_one H). cbn [windows].
  rewrite (slice_window _ tokens 0 (chunk_size self)) by lia.
  cbn [Z.to_nat skipn]. rewrite firstn_all2 by lia. reflexivity.
Qed.

End ChunkerResults.

(** ** The claims about the token-window chunker *)

(** C4, as stated, fails: with [CHUNK_SIZE] and [CHUNK_OVERLAP] both set
    to 2 the service is built without any check, and nothing is rejected.
    The empty text is chunked into no chunk, and on the text "ab" the loop
    is still running whatever the fuel, so not every call ends in a
    rejection. *)
Lemma chunk_text_degenerate_not_rejected :
  exists self,
    EmbeddingService.construct unit TokenDoubles.environ TokenDoubles.int
      TokenDoubles.new_client Doubles.start = (Ok self, Doubles.start)
    /\ (EmbeddingService.chunk_overlap self
        >= EmbeddingService.chunk_size self)%Z
    /\ EmbeddingService.chunk_text_run unit ascii
         TokenDoubles.encoding_for_model TokenDoubles.encode
         EmbeddingService.char_decode self "" 0 Doubles.start
       = Some (Ok [], Doubles.start)
    /\ (forall fuel,
           EmbeddingService.chunk_text_run unit ascii
             TokenDoubles.encoding_for_model TokenDoubles.encode
             EmbeddingService.char_decode self "ab" fuel Doubles.start
           = None)
    /\ ~ (forall text, exists fuel e s',
             EmbeddingService.chunk_text_run unit ascii
               TokenDoubles.encoding_for_model TokenDoubles.encode
               EmbeddingService.char_decode self text fuel Doubles.start
             = Some (Raise e, s')).
Proof.
  exists (Doubles.windowed 2 2).
  assert (Hloop : forall fuel,
             EmbeddingService.chunk_text_run unit ascii
               TokenDoubles.encoding_for_model TokenDoubles.encode
               EmbeddingService.char_decode (Doubles.windowed 2 2) "ab" fuel
               Doubles.start
             = None).
  { intros fuel. unfold EmbeddingService.chunk_text_run. cbn [Files.fs].
    change (TokenDoubles.encode "ab") with (@Ok (list ascii) ["a"; "b"]%char).
    cbv beta iota.
    rewrite chunk_loop_degenerate;
      cbn; [reflexivity | lia | discriminate | lia]. }
  split; [reflexivity |]. split; [cbn; lia |]. split; [reflexivity |].
  split; [exact Hloop |].
  intros Hrej. destruct (Hrej "ab") as (fuel & e & s' & He).
  rewrite Hloop in He. discriminate He.
Qed.

(** C4, amended.  The chunk operation validates nothing.  The constructor
    accepts any two integers as window settings, and raises only when the
    client of the provider or [int] of a setting does.  [chunk_text] calls
    no provider, and its only exceptions are those of the tokenizer,
    whatever the window parameters.  When the tokenizer answers: with
    [overlap >= window_size] and at least one token the call never returns,
    and under [0 <= overlap < window_size] it returns its chunks, one fuel
    unit per token and one more being enough. *)
Theorem chunk_text_never_rejects
    (W token : Type)
    (encoding_for_model : string -> W -> result unit * W)
    (encode : string -> result (list token))
    (decode : list token -> string)
    (self : EmbeddingService.EmbeddingService) (text : string) :
  let run :=
    EmbeddingService.chunk_text_run W token encoding_for_model encode decode
      self text in
  (forall (environ : string -> option string) (int : string -> result Z)
          (new_client : option string -> W -> result unit * W)
          (s : world W) (w : W) (a b : string) (size overlap : Z),
      new_client (environ "OPENAI_API_KEY") (ext s) = (Ok tt, w) ->
      environ "CHUNK_SIZE" = Some a -> int a = Ok size ->
      environ "CHUNK_OVERLAP" = Some b -> int b = Ok overlap ->
      exists built,
        EmbeddingService.construct W environ int new_client s
        = (Ok built, {| ext := w; calls := calls s |})
        /\ EmbeddingService.chunk_size built = size
        /\ EmbeddingService.chunk_overlap built = overlap)
  /\ (forall (environ : string -> option string) (int : string -> result Z)
             (new_client : option string -> W -> result unit * W)
             (s s' : world W) (e : exn),
         EmbeddingService.construct W environ int new_client s
         = (Raise e, s') ->
         (exists w, new_client (environ "OPENAI_API_KEY") (ext s)
                    = (Raise e, w))
         \/ (exists a, environ "CHUNK_SIZE" = Some a /\ int a = Raise e)
         \/ (exists b, environ "CHUNK_OVERLAP" = Some b /\ int b = Raise e))
  /\ (forall fuel s r s', run fuel s = Some (r, s') -> calls s' = calls s)
  /\ (forall fuel s e s',
         run fuel s = Some (Raise e, s') ->
         (exists w, encoding_for_model "gpt-4" (ext s) = (Raise e, w))
         \/ encode text = Raise e)
  /\ (forall s w tokens,
         encoding_for_model "gpt-4" (ext s) = (Ok tt, w) ->
         encode text = Ok tokens ->
         ((EmbeddingService.chunk_size self
           <= EmbeddingService.chunk_overlap self)%Z ->
          tokens <> [] ->
          forall fuel, run fuel s = None)
         /\ ((0 <= EmbeddingService.chunk_overlap self
              < EmbeddingService.chunk_size self)%Z ->
             exists chunks,
               run (S (List.length tokens)) s
               = Some (Ok chunks, {| ext := w; calls := calls s |}))).
Proof.
  intros run. subst run. split; [| split; [| split; [| split]]].
  - intros environ int new_client s w a b size overlap Hc Ha Hsize Hb Hov.
    unfold EmbeddingService.construct, EmbeddingService.int_setting,
      Files.fs. run.
    rewrite Hc, Ha, Hsize, Hb, Hov. cbn [ext calls].
    eexists. split; [reflexivity |]. split; reflexivity.
  - intros environ int new_client s s' e.
    unfold EmbeddingService.construct, EmbeddingService.int_setting,
      Files.fs. run.
    destruct (new_client (environ "OPENAI_API_KEY") (ext s)) as [[u | e1] w].
    2:{ intros H. inversion H; subst. left. exists w. reflexivity. }
    destruct (environ "CHUNK_SIZE") as [a |] eqn:Ha.
    + destruct (int a) as [size | e2] eqn:Hsize.
      2:{ intros H. inversion H; subst. right. left. exists a.
          split; reflexivity || assumption. }
      destruct (environ "CHUNK_OVERLAP") as [b |] eqn:Hb.
      * destruct (int b) as [overlap | e3] eqn:Hov; intros H; inversion H;
          subst. right. right. exists b. split; reflexivity || assumption.
      * intros H. inversion H.
    + destruct (environ "CHUNK_OVERLAP") as [b |] eqn:Hb.
      * destruct (int b) as [overlap | e3] eqn:Hov; intros H; inversion H;
          subst. right. right. exists b. split; reflexivity || assumption.
      * intros H. inversion H.
  - intros fuel s r s'. unfold EmbeddingService.chunk_text_run, Files.fs.
    destruct (encoding_for_model "gpt-4" (ext s)) as [[u | e] w].
    + destruct (encode text) as [tokens | e].
      * destruct (EmbeddingService.chunk_loop _ _ _ _ _ _ _ _);
          intros H; inversion H; reflexivity.
      * intros H; inversion H; reflexivity.
    + intros H; inversion H; reflexivity.
  - intros fuel s e s'. unfold EmbeddingService.chunk_text_run, Files.fs.
    destruct (encoding_for_model "gpt-4" (ext s)) as [[u | e'] w].
    + destruct (encode text) as [tokens | e'].
      * destruct (EmbeddingService.chunk_loop _ _ _ _ _ _ _ _);
          intros H; inversion H.
      * intros H; inversion H; subst. right. reflexivity.
    + intros H; inversion H; subst. left. exists w. reflexivity.
  - intros s w tokens Hload Henc.
    unfold EmbeddingService.chunk_text_run, Files.fs.
    rewrite Hload, Henc. split.
    + intros Hd Hne fuel.
      rewrite chunk_loop_degenerate by (assumption || lia). reflexivity.
    + intros Hv. eexists.
      rewrite chunk_loop_windows by lia. reflexivity.
Qed.

Lemma chunk_text_never_rejects_witness :
  exists chunks,
    EmbeddingService.chunk_text_run unit ascii TokenDoubles.encoding_for_model
      TokenDoubles.encode EmbeddingService.char_decode (Doubles.windowed 4 2)
      "abcdefghi" 10 Doubles.start
    = Some (Ok chunks, Doubles.start).
Proof.
  destruct (chunk_text_never_rejects unit ascii
              TokenDoubles.encoding_for_model TokenDoubles.encode
              EmbeddingService.char_decode (Doubles.windowed 4 2)
              "abcdefghi") as (_ & _ & _ & _ & Hrun).
  destruct (Hrun Doubles.start tt
              (EmbeddingService.char_encode "abcdefghi")
              eq_refl eq_refl) as [_ Hvalid].
  apply Hvalid. cbn. lia.
Defined.

(** C5, as stated, fails: with [window_size = 3] and [overlap = 2] the
    tokens 1, 2, 3 are cut into [1;2;3], [2;3], [3].  Chunk 1 is not the
    final chunk, its last two tokens are [2;3], and chunk 2 has the single
    token 3. *)
Lemma chunk_overlap_fails_after_short_chunk :
  exists chunks ci cj,
    (0 <= EmbeddingService.chunk_overlap (Doubles.windowed 3 2)
     < EmbeddingService.chunk_size (Doubles.windowed 3 2))%Z
    /\ EmbeddingService.chunk_tokens (Doubles.windowed 3 2) [1; 2; 3]%nat 4
       = Some chunks
    /\ chunks = [[1; 2; 3]; [2; 3]; [3]]%nat
    /\ nth_error chunks 1 = Some ci
    /\ nth_error chunks 2 = Some cj
    /\ EmbeddingService.lastn 2 ci = [2; 3]%nat
    /\ firstn 2 cj = [3]%nat
    /\ EmbeddingService.lastn 2 ci <> firstn 2 cj.
Proof.
  exists [[1; 2; 3]; [2; 3]; [3]]%nat, [2; 3]%nat, [3]%nat.
  split; [cbn; lia |]. repeat (split; [reflexivity |]). discriminate.
Qed.

(** C5, amended.  Under [0 <= overlap < window_size], for two consecutive
    chunks [i] and [i + 1], the first [overlap] tokens of chunk [i + 1] are
    the tokens of chunk [i] from position [window_size - overlap] on; so
    whenever chunk [i] has all its [window_size] tokens, its last [overlap]
    tokens are the first [overlap] tokens of chunk [i + 1]. *)
Theorem chunk_overlap_between_consecutive_chunks
    (token : Type) (encode : string -> list token)
    (decode : list token -> string)
    (self : EmbeddingService.EmbeddingService) (text : string) :
  (0 <= EmbeddingService.chunk_overlap self
   < EmbeddingService.chunk_size self)%Z ->
  let size := EmbeddingService.chunk_size self in
  let overlap := EmbeddingService.chunk_overlap self in
  let fuel := S (List.length (encode text)) in
  exists windows,
    EmbeddingService.chunk_tokens self (encode text) fuel = Some windows
    /\ EmbeddingService.chunk_text token encode decode self text fuel
       = Some (Ok (map decode windows))
    /\ forall i ci cj,
         nth_error windows i = Some ci ->
         nth_error windows (S i) = Some cj ->
         skipn (Z.to_nat (size - overlap)) ci = firstn (Z.to_nat overlap) cj
         /\ (Z.of_nat (List.length ci) = size ->
             EmbeddingService.lastn (Z.to_nat overlap) ci
             = firstn (Z.to_nat overlap) cj).
Proof.
  intros Hv size overlap fuel. subst size overlap fuel. eexists.
  split; [apply chunk_tokens_total; exact Hv |].
  split; [apply chunk_text_total; [exact Hv | reflexivity] |].
  intros i ci cj Hi Hj.
  pose proof (consecutive_windows token self (encode text) Hv _ i ci cj Hi Hj)
    as Hc.
  split; [exact Hc |].
  intros Hfull. unfold EmbeddingService.lastn. rewrite <- Hc.
  f_equal. lia.
Qed.

Lemma chunk_overlap_between_consecutive_chunks_witness :
  (0 <= 2 < 4)%Z
  /\ exists windows,
       EmbeddingService.chunk_tokens (Doubles.windowed 4 2)
         (EmbeddingService.char_encode "abcdefghi") 10 = Some windows
       /\ EmbeddingService.chunk_text ascii EmbeddingService.char_encode
            EmbeddingService.char_decode (Doubles.windowed 4 2) "abcdefghi" 10
          = Some (Ok (map EmbeddingService.char_decode windows))
       /\ forall i ci cj,
            nth_error windows i = Some ci ->
            nth_error windows (S i) = Some cj ->
            skipn 2 ci = firstn 2 cj
            /\ (Z.of_nat (List.length ci) = 4%Z ->
                EmbeddingService.lastn 2 ci = firstn 2 cj).
Proof.
  split; [lia |].
  apply (chunk_overlap_between_consecutive_chunks ascii
           EmbeddingService.char_encode EmbeddingService.char_decode
           (Doubles.windowed 4 2) "abcdefghi").
  cbn. lia.
Defined.

(** C6, as stated, fails: with [window_size = 3] and [overlap = 2] the two
    tokens 1, 2, fewer than the window size, are cut into two chunks. *)
Lemma chunk_short_input_two_chunks :
  exists chunks,
    (0 <= EmbeddingService.chunk_overlap (Doubles.windowed 3 2)
     < EmbeddingService.chunk_size (Doubles.windowed 3 2))%Z
    /\ (0 < Z.of_nat (List.length [1; 2]%nat)
        < EmbeddingService.chunk_size (Doubles.windowed 3 2))%Z
    /\ EmbeddingService.chunk_tokens (Doubles.windowed 3 2) [1; 2]%nat 3
       = Some chunks
    /\ chunks = [[1; 2]; [2]]%nat
    /\ List.length chunks <> 1%nat
    /\ EmbeddingService.chunk_text ascii EmbeddingService.char_encode
         EmbeddingService.char_decode (Doubles.windowed 3 2) "ab" 3
       = Some (Ok ["ab"; "b"]).
Proof.
  exists [[1; 2]; [2]]%nat.
  split; [cbn; lia |]. split; [cbn; lia |].
  repeat (split; [reflexivity |]). split; [discriminate | reflexivity].
Qed.

(** C6, amended.  Under [0 <= overlap < window_size] the chunk operation
    emits exactly one chunk, the whole text, for every input whose token
    sequence is non-empty and has at most [window_size - overlap] tokens;
    and those are the only inputs with exactly one chunk. *)
Theorem chunk_text_single_chunk
    (token : Type) (encode : string -> list token)
    (decode : list token -> string)
    (self : EmbeddingService.EmbeddingService) (text : string) :
  (0 <= EmbeddingService.chunk_overlap self
   < EmbeddingService.chunk_size self)%Z ->
  let step :=
    (EmbeddingService.chunk_size self
     - EmbeddingService.chunk_overlap self)%Z in
  let len := Z.of_nat (List.length (encode text)) in
  exists chunks,
    EmbeddingService.chunk_text token encode decode self text
      (S (List.length (encode text))) = Some (Ok chunks)
    /\ ((0 < len <= step)%Z -> chunks = [decode (encode text)])
    /\ (List.length chunks = 1%nat <-> (0 < len <= step)%Z).
Proof.
  intros Hv step len. subst step len. eexists.
  split; [apply chunk_text_total; [exact Hv | reflexivity] |].
  split.
  - intros Hlen. rewrite single_window by assumption. reflexivity.
  - rewrite length_map, windows_length. apply window_count_one. exact Hv.
Qed.

Lemma chunk_text_single_chunk_witness :
  (0 <= 1 < 4)%Z
  /\ exists chunks,
       EmbeddingService.chunk_text ascii EmbeddingService.char_encode
         EmbeddingService.char_decode (Doubles.windowed 4 1) "abc" 4
       = Some (Ok chunks)
       /\ ((0 < 3 <= 3)%Z -> chunks = ["abc"])
       /\ (List.length chunks = 1%nat <-> (0 < 3 <= 3)%Z).
Proof.
  split; [lia |].
  apply (chunk_text_single_chunk ascii EmbeddingService.char_encode
           EmbeddingService.char_decode (Doubles.windowed 4 1) "abc").
  cbn. lia.
Defined.

(** ** Words, [split] and [join] *)

Lemma str_app_assoc (a b c : string) :
  ((a ++ b) ++ c)%string = (a ++ (b ++ c))%string.
Proof. induction a as [| x a IH]; cbn; [| rewrite IH]; reflexivity. Qed.

Lemma str_app_nil_r (a : string) : (a ++ "")%string = a.
Proof. induction a as [| x a IH]; cbn; [| rewrite IH]; reflexivity. Qed.

Lemma no_space_app (a b : string) :
  PyStr.no_space a -> PyStr.no_space b -> PyStr.no_space (a ++ b).
Proof.
  induction a as [| x a IH]; cbn; [tauto |].
  intros [Hx Ha] Hb. split; [exact Hx | apply IH; assumption].
Qed.

(** Every element of [s.split()] is a word. *)
Lemma split_go_words (s : string) :
  forall cur, PyStr.no_space cur -> Forall PyStr.is_word (PyStr.split_go cur s).
Proof.
  induction s as [| c s IH]; intros cur Hcur; cbn [PyStr.split_go].
  - destruct (String.eqb_spec cur ""); constructor; [split; assumption |].
    constructor.
  - destruct (PyStr.is_space c) eqn:Hc.
    + destruct (String.eqb_spec cur "").
      * apply IH; exact I.
      * constructor; [split; assumption | apply IH; exact I].
    + apply IH. apply no_space_app; [exact Hcur | cbn; auto].
Qed.

Lemma split_words (s : string) : Forall PyStr.is_word (PyStr.split s).
Proof. apply split_go_words. exact I. Qed.

(** Reading a word moves it into the word being read. *)
Lemma split_go_word (w : string) :
  PyStr.no_space w ->
  forall cur rest,
    PyStr.split_go cur (w ++ rest) = PyStr.split_go (cur ++ w) rest.
Proof.
  induction w as [| c w IH]; intros Hw cur rest; cbn [String.append].
  - now rewrite str_app_nil_r.
  - destruct Hw as [Hc Hw]. cbn [PyStr.split_go]. rewrite Hc.
    rewrite IH by exact Hw. rewrite str_app_assoc. reflexivity.
Qed.

Lemma split_join (ws : list string) :
  Forall PyStr.is_word ws -> PyStr.split (PyStr.join " " ws) = ws.
Proof.
  unfold PyStr.split.
  induction 1 as [| w ws [Hne Hw] Hws IH]; [reflexivity |].
  destruct ws as [| w' ws'].
  - cbn [PyStr.join]. rewrite <- (str_app_nil_r w) at 1.
    rewrite split_go_word by exact Hw. cbn.
    destruct (String.eqb_spec w ""); [contradiction | reflexivity].
  - change (PyStr.join " " (w :: w' :: ws'))
      with (w ++ " " ++ PyStr.join " " (w' :: ws'))%string.
    rewrite split_go_word by exact Hw.
    cbn [String.append PyStr.split_go].
    change (PyStr.is_space " ") with true. cbn iota.
    destruct (String.eqb_spec w ""); [contradiction |].
    rewrite IH. reflexivity.
Qed.

Lemma join_app (sep : string) (l1 l2 : list string) :
  l1 <> [] -> l2 <> [] ->
  PyStr.join sep (l1 ++ l2)
  = (PyStr.join sep l1 ++ sep ++ PyStr.join sep l2)%string.
Proof.
  intros H1 H2. induction l1 as [| a l1 IH]; [contradiction |].
  destruct l1 as [| b l1].
  - destruct l2; [contradiction | reflexivity].
  - change (PyStr.join sep ((a :: b :: l1) ++ l2))
      with (a ++ sep ++ PyStr.join sep ((b :: l1) ++ l2))%string.
    rewrite IH by discriminate.
    change (PyStr.join sep (a :: b :: l1))
      with (a ++ sep ++ PyStr.join sep (b :: l1))%string.
    now rewrite !str_app_assoc.
Qed.

Lemma join_groups (sep : string) (gs : list (list string)) :
  Forall (fun g => g <> []) gs ->
  PyStr.join sep (map (PyStr.join sep) gs)
  = PyStr.join sep (List.concat gs).
Proof.
  induction 1 as [| g gs Hg Hgs IH]; [reflexivity |].
  destruct gs as [| g' gs'].
  - cbn. now rewrite app_nil_r.
  - change (PyStr.join sep (map (PyStr.join sep) (g :: g' :: gs')))
      with (PyStr.join sep g ++ sep
            ++ PyStr.join sep (map (PyStr.join sep) (g' :: gs')))%string.
    rewrite IH.
    change (List.concat (g :: g' :: gs'))
      with (g ++ List.concat (g' :: gs')).
    rewrite (join_app sep g (List.concat (g' :: gs')));
      [reflexivity | exact Hg |].
    inversion Hgs as [| ? ? Hg' _]; subst. destruct g'; [contradiction |].
    discriminate.
Qed.

(** ** The word-count chunker of the uploader *)

Section UploadChunks.
Variable size : Z.

Local Abbreviation groups_loop :=
  (SimpleUpload.chunk_loop (list string) (fun g => g) size).

Lemma groups_loop_acc (words : list string) :
  forall chunks current current_size,
    groups_loop words chunks current current_size
    = chunks ++ groups_loop words [] current current_size.
Proof.
  induction words as [| word rest IH]; intros chunks current current_size;
    cbn [SimpleUpload.chunk_loop].
  - destruct current; [now rewrite app_nil_r | reflexivity].
  - destruct (_ >=? size)%Z; [| apply IH].
    rewrite IH. rewrite (IH ([] ++ _)). now rewrite app_assoc.
Qed.

Lemma groups_loop_concat (words : list string) :
  forall current current_size,
    List.concat (groups_loop words [] current current_size)
    = current ++ words.
Proof.
  induction words as [| word rest IH]; intros current current_size;
    cbn [SimpleUpload.chunk_loop].
  - destruct current; cbn; now rewrite ?app_nil_r.
  - destruct (_ >=? size)%Z.
    + rewrite groups_loop_acc, concat_app, IH. cbn.
      now rewrite app_nil_r, <- app_assoc.
    + rewrite IH. now rewrite <- app_assoc.
Qed.

Lemma groups_loop_nonempty (words : list string) :
  forall current current_size,
    Forall (fun g => g <> []) (groups_loop words [] current current_size).
Proof.
  induction words as [| word rest IH]; intros current current_size;
    cbn [SimpleUpload.chunk_loop].
  - destruct current; repeat constructor. discriminate.
  - destruct (_ >=? size)%Z; [| apply IH].
    rewrite groups_loop_acc. apply Forall_app. split; [| apply IH].
    repeat constructor. destruct current; discriminate.
Qed.

Lemma chunk_loop_render (B : Type) (render : list string -> B)
    (words : list string) :
  forall chunks current current_size,
    SimpleUpload.chunk_loop B render size words chunks current current_size
    = chunks ++ map render (groups_loop words [] current current_size).
Proof.
  induction words as [| word rest IH]; intros chunks current current_size;
    cbn [SimpleUpload.chunk_loop].
  - destruct current; [now rewrite app_nil_r | reflexivity].
  - destruct (_ >=? size)%Z; [| apply IH].
    rewrite IH. rewrite (groups_loop_acc rest ([] ++ _)).
    cbn [app map]. rewrite <- app_assoc. reflexivity.
Qed.

End UploadChunks.

Lemma split_join_groups (groups : list (list string)) :
  Forall PyStr.is_word (List.concat groups) ->
  map PyStr.split (map (PyStr.join " ") groups) = groups.
Proof.
  induction groups as [| g groups IH]; cbn [List.concat map]; [reflexivity |].
  intros Hw. apply Forall_app in Hw as [Hg Hrest].
  rewrite split_join by exact Hg. rewrite IH by exact Hrest. reflexivity.
Qed.

(** C10.  The word-count chunker of the uploader cuts the words of the text
    into consecutive groups without overlap: each chunk is one non-empty
    group joined by single spaces and splits back into that group, the
    groups put end to end are the words of the text, in order and each
    occurrence once, and the chunks joined by single spaces split back into
    exactly the words of the text. *)
Theorem upload_chunks_partition_words (text : string) (size : Z) :
  let words := PyStr.split text in
  let chunks := SimpleUpload.chunk_text text size in
  let groups := SimpleUpload.chunk_groups text size in
  chunks = map (PyStr.join " ") groups
  /\ Forall (fun g => g <> []) groups
  /\ List.concat groups = words
  /\ map PyStr.split chunks = groups
  /\ PyStr.join " " chunks = PyStr.join " " words
  /\ PyStr.split (PyStr.join " " chunks) = words.
Proof.
  intros words chunks groups. subst words chunks groups.
  unfold SimpleUpload.chunk_text, SimpleUpload.chunk_groups.
  rewrite chunk_loop_render. cbn [app].
  set (groups := SimpleUpload.chunk_loop _ _ size (PyStr.split text) [] [] 0).
  assert (Hcat : List.concat groups = PyStr.split text)
    by apply groups_loop_concat.
  assert (Hne : Forall (fun g => g <> []) groups)
    by apply groups_loop_nonempty.
  pose proof (split_words text) as Hw.
  repeat split; try assumption.
  - apply split_join_groups. rewrite Hcat. exact Hw.
  - rewrite join_groups by exact Hne. now rewrite Hcat.
  - rewrite join_groups by exact Hne. rewrite Hcat.
    apply split_join. exact Hw.
Qed.

(** ** The ingestion driver *)

Lemma files_read_app (l1 l2 : list call) :
  SimpleUpload.files_read (l1 ++ l2)
  = SimpleUpload.files_read l1 ++ SimpleUpload.files_read l2.
Proof.
  induction l1 as [| c l1 IH]; [reflexivity |].
  destruct c; cbn; rewrite IH; reflexivity.
Qed.

Section Ingestion.
Variables (W vector : Type).
Variable read_text : SimpleUpload.Path -> W -> result string * W.
Variable embeddings_create : string -> string -> W -> result vector * W.
Variable uuid4 : W -> string * W.
Variable upsert :
  string -> list (SimpleUpload.PointStruct vector) -> W -> result unit * W.
Variable COLLECTION_NAME : string.

Local Abbreviation embed_chunks :=
  (SimpleUpload.embed_chunks W vector embeddings_create uuid4).
Local Abbreviation upload_body :=
  (SimpleUpload.upload_body W vector read_text
     embeddings_create uuid4 upsert COLLECTION_NAME).
Local Abbreviation upload_file :=
  (SimpleUpload.upload_file W vector read_text
     embeddings_create uuid4 upsert COLLECTION_NAME).
Local Abbreviation upload_all :=
  (SimpleUpload.upload_all W vector read_text
     embeddings_create uuid4 upsert COLLECTION_NAME).

Lemma embed_chunks_reads_nothing (chunks : list string) :
  forall file i points s,
    SimpleUpload.reads_nothing s (snd (embed_chunks file i chunks points s)).
Proof.
  induction chunks as [| chunk rest IH]; intros file i points s;
    cbn [SimpleUpload.embed_chunks].
  - exists []. cbn. now rewrite app_nil_r.
  - unfold bind at 1. unfold provider at 1.
    destruct (embeddings_create _ chunk (ext s)) as [[embedding | e] w1].
    + unfold bind at 1. unfold local_effect at 1. cbn [ext calls].
      destruct (uuid4 w1) as [uid w2].
      match goal with
      | |- SimpleUpload.reads_nothing _ (snd (SimpleUpload.embed_chunks _ _ _ _ ?f ?j ?r ?p ?t)) =>
          destruct (IH f j p t) as (l & Hl & Hr)
      end.
      cbn [calls] in Hl.
      exists (EmbeddingsCreate "text-embedding-3-small" chunk :: l).
      split; [rewrite Hl, <- app_assoc; reflexivity | exact Hr].
    + exists [EmbeddingsCreate "text-embedding-3-small" chunk].
      split; reflexivity.
Qed.

Lemma upload_body_reads_file (file : SimpleUpload.Path) (s : world W) :
  SimpleUpload.files_read (calls (snd (upload_body file s)))
  = SimpleUpload.files_read (calls s) ++ [SimpleUpload.name file].
Proof.
  unfold SimpleUpload.upload_body. unfold bind at 1. unfold provider at 1.
  destruct (read_text file (ext s)) as [[content | e] w1].
  - destruct (PyStr.len (SimpleUpload.clean_content content) <? 50)%Z.
    + cbn. now rewrite files_read_app.
    + unfold bind at 1.
      match goal with
      | |- context [SimpleUpload.embed_chunks _ _ _ _ ?f ?j ?c ?p ?t] =>
          pose proof (embed_chunks_reads_nothing c f j p t) as (l & Hl & Hr);
          destruct (SimpleUpload.embed_chunks _ _ _ _ f j c p t)
            as [[points | e] s2]
      end; cbn [snd calls] in Hl.
      * unfold bind, provider, ret.
        destruct (upsert _ points (ext s2)) as [[[] | e] w3]; cbn [snd calls];
          rewrite Hl, !files_read_app, Hr; cbn; now rewrite !app_nil_r.
      * cbn [snd]. rewrite Hl, !files_read_app, Hr. cbn. now rewrite app_nil_r.
  - cbn. now rewrite files_read_app.
Qed.

Lemma upload_file_returns (file : SimpleUpload.Path) (s : world W) :
  exists n,
    upload_file file s = (Ok n, snd (upload_body file s))
    /\ (forall e, fst (upload_body file s) = Raise e -> n = 0%Z).
Proof.
  unfold SimpleUpload.upload_file, try_except.
  destruct (upload_body file s) as [[n | e] s'].
  - exists n. split; [reflexivity | discriminate].
  - exists 0%Z. split; reflexivity.
Qed.

Lemma upload_all_reads_all (files : list SimpleUpload.Path) :
  forall total s,
  exists total' s',
    upload_all files total s = (Ok total', s')
    /\ SimpleUpload.files_read (calls s')
       = SimpleUpload.files_read (calls s) ++ map SimpleUpload.name files.
Proof.
  induction files as [| file rest IH]; intros total s;
    cbn [SimpleUpload.upload_all map].
  - exists total, s. split; [reflexivity | now rewrite app_nil_r].
  - destruct (upload_file_returns file s) as (n & Hn & _).
    unfold bind. rewrite Hn.
    destruct (IH (total + n)%Z (snd (upload_body file s)))
      as (total' & s' & Hrun & Hread).
    exists total', s'. split; [exact Hrun |].
    rewrite Hread, upload_body_reads_file, <- app_assoc. reflexivity.
Qed.

End Ingestion.

(** C8, as stated, fails: the floor of the uploader is on the cleaned text
    of the document, not on its chunks.  The cleaned text of the placeholder
    page has 73 characters, its only chunk "TODO: write this chapter" has
    24, below the floor of 50, and the count reported is 1. *)
Lemma upload_counts_chunk_below_floor :
  let cleaned := SimpleUpload.clean_content Doubles.sparse in
  PyStr.len cleaned = 73%Z
  /\ SimpleUpload.chunk_text cleaned 1000 = ["TODO: write this chapter"]
  /\ Forall (fun chunk => (PyStr.len chunk < 50)%Z)
       (SimpleUpload.chunk_text cleaned 1000)
  /\ fst (SimpleUpload.upload_file unit unit Doubles.read_text
            Doubles.embed_ok Doubles.uuid4 Doubles.upsert
            "robotics_book_embeddings" (Doubles.mdx "sparse") Doubles.start)
     = Ok 1%Z.
Proof.
  cbv zeta. split; [reflexivity |]. split; [reflexivity |].
  split; [| reflexivity].
  repeat constructor.
Qed.

(** C8, amended.  For every document of a batch, [upload_file] returns a
    count and never raises; the count is 0 when the processing of the
    document raises and when its cleaned text is below the 50-character
    floor (then without any embedding or upsert call); and the loop of
    [main] goes on with the remaining documents, so that every document of
    the batch is read. *)
Theorem upload_failures_are_isolated
    (W vector : Type)
    (read_text : SimpleUpload.Path -> W -> result string * W)
    (embeddings_create : string -> string -> W -> result vector * W)
    (uuid4 : W -> string * W)
    (upsert :
       string -> list (SimpleUpload.PointStruct vector) -> W
       -> result unit * W)
    (COLLECTION_NAME : string) :
  let upload_body :=
    SimpleUpload.upload_body W vector read_text
      embeddings_create uuid4 upsert COLLECTION_NAME in
  let upload_file :=
    SimpleUpload.upload_file W vector read_text
      embeddings_create uuid4 upsert COLLECTION_NAME in
  let upload_all :=
    SimpleUpload.upload_all W vector read_text
      embeddings_create uuid4 upsert COLLECTION_NAME in
  (forall file s, exists n s', upload_file file s = (Ok n, s'))
  /\ (forall file s e s',
         upload_body file s = (Raise e, s') ->
         upload_file file s = (Ok 0%Z, s'))
  /\ (forall file s content w1,
         read_text file (ext s) = (Ok content, w1) ->
         (PyStr.len (SimpleUpload.clean_content content) < 50)%Z ->
         upload_file file s
         = (Ok 0%Z,
            {| ext := w1;
               calls := calls s ++ [ReadText (SimpleUpload.name file)] |}))
  /\ (forall file rest total s e s',
         upload_body file s = (Raise e, s') ->
         upload_all (file :: rest) total s = upload_all rest total s')
  /\ (forall files total s,
         exists total' s',
           upload_all files total s = (Ok total', s')
           /\ SimpleUpload.files_read (calls s')
              = SimpleUpload.files_read (calls s)
                ++ map SimpleUpload.name files).
Proof.
  intros upload_body upload_file upload_all.
  subst upload_body upload_file upload_all.
  assert (Hraise : forall file s e s',
             SimpleUpload.upload_body W vector read_text
               embeddings_create uuid4 upsert COLLECTION_NAME file s
             = (Raise e, s') ->
             SimpleUpload.upload_file W vector read_text
               embeddings_create uuid4 upsert COLLECTION_NAME file s
             = (Ok 0%Z, s')).
  { intros file s e s' Hb. unfold SimpleUpload.upload_file, try_except.
    rewrite Hb. reflexivity. }
  split; [| split; [exact Hraise | split; [| split]]].
  - intros file s.
    destruct (upload_file_returns W vector read_text
                embeddings_create uuid4 upsert COLLECTION_NAME file s)
      as (n & Hn & _).
    eauto.
  - intros file s content w1 Hread Hshort.
    unfold SimpleUpload.upload_file, SimpleUpload.upload_body. run.
    rewrite Hread. apply Z.ltb_lt in Hshort. rewrite Hshort. reflexivity.
  - intros file rest total s e s' Hb. cbn [SimpleUpload.upload_all].
    unfold bind. rewrite (Hraise _ _ _ _ Hb). now rewrite Z.add_0_r.
  - apply upload_all_reads_all.
Qed.

Lemma upload_failures_are_isolated_witness :
  SimpleUpload.upload_file unit unit Doubles.read_text
    Doubles.embed_ok Doubles.uuid4 Doubles.upsert "robotics_book_embeddings"
    (Doubles.mdx "broken") Doubles.start
  = (Ok 0%Z, {| ext := tt; calls := [ReadText "broken.mdx"] |})
  /\ exists total s',
       Doubles.upload_batch
         [Doubles.mdx "broken"; Doubles.mdx "intro"; Doubles.mdx "stub"]
       = (Ok total, s')
       /\ SimpleUpload.files_read (calls s')
          = ["broken.mdx"; "intro.mdx"; "stub.mdx"].
Proof.
  pose proof (upload_failures_are_isolated unit unit Doubles.read_text
                Doubles.embed_ok Doubles.uuid4 Doubles.upsert
                "robotics_book_embeddings") as (_ & Hraise & _ & _ & Hall).
  split.
  - apply (Hraise (Doubles.mdx "broken") Doubles.start
             (Exception "invalid start byte")).
    reflexivity.
  - apply (Hall [Doubles.mdx "broken"; Doubles.mdx "intro";
                 Doubles.mdx "stub"] 0%Z Doubles.start).
Defined.

(* ===================================================================== *)
(** * Further properties of the code *)
(* ===================================================================== *)

(** ** The token windows of [EmbeddingService.chunk_text] *)

Lemma firstn_add {A : Type} (a b : nat) (l : list A) :
  firstn (a + b) l = firstn a l ++ firstn b (skipn a l).
Proof.
  revert l; induction a as [| a IH]; intros l; [reflexivity |].
  destruct l as [| x l]; cbn [Nat.add firstn skipn app].
  - now rewrite firstn_nil.
  - now rewrite IH.
Qed.

Section WindowFacts.
Import EmbeddingService.
Local Open Scope Z_scope.
Variable token : Type.
Variable self : EmbeddingService.
Variable tokens : list token.
Hypothesis valid : 0 <= chunk_overlap self < chunk_size self.

Local Abbreviation len := (Z.of_nat (List.length tokens)).
Local Abbreviation step := (chunk_size self - chunk_overlap self).

(** The heads of [n] windows, put end to end, are [n] steps of tokens. *)
Lemma windows_heads (n : nat) :
  forall p : nat,
    List.concat
      (map (firstn (Z.to_nat step)) (windows self tokens n (Z.of_nat p)))
    = firstn (n * Z.to_nat step) (skipn p tokens).
Proof.
  induction n as [| n IH]; intros p; [reflexivity |].
  cbn [windows map List.concat].
  replace (Z.of_nat p + chunk_size self - chunk_overlap self)
    with (Z.of_nat (p + Z.to_nat step)) by lia.
  rewrite IH, slice_window by lia.
  rewrite firstn_firstn, Nat.min_l by lia.
  replace (p + Z.to_nat step)%nat with (Z.to_nat step + p)%nat by lia.
  rewrite <- skipn_skipn, Nat2Z.id.
  change (S n * Z.to_nat step)%nat with (Z.to_nat step + n * Z.to_nat step)%nat.
  now rewrite firstn_add.
Qed.

Lemma window_count_covers :
  (List.length tokens <= window_count len step 0 * Z.to_nat step)%nat.
Proof.
  unfold window_count. rewrite Z.sub_0_r.
  pose proof (Z.div_mod (len + step - 1) step ltac:(lia)) as Hdm.
  pose proof (Z.mod_pos_bound (len + step - 1) step ltac:(lia)) as Hr.
  set (q := (len + step - 1) / step) in *.
  assert (Hq : 0 <= q) by (apply Z.div_pos; lia).
  apply Nat2Z.inj_le. rewrite Nat2Z.inj_mul, !Z2Nat.id by lia. nia.
Qed.

Lemma window_index_inside (i : nat) :
  (i < window_count len step 0)%nat -> Z.of_nat i * step < len.
Proof.
  unfold window_count. rewrite Z.sub_0_r.
  pose proof (Z.div_mod (len + step - 1) step ltac:(lia)) as Hdm.
  pose proof (Z.mod_pos_bound (len + step - 1) step ltac:(lia)) as Hr.
  set (q := (len + step - 1) / step) in *.
  intros Hi. assert (Hq : Z.of_nat i < q) by lia. nia.
Qed.

End WindowFacts.

(** X1.  Under [0 <= overlap < window_size] the chunks cover the token
    sequence without gap: keeping of each chunk its first
    [window_size - overlap] tokens and putting these heads end to end gives
    back the tokens of the text. *)
Theorem chunk_tokens_heads_rebuild_text
    (token : Type) (self : EmbeddingService.EmbeddingService)
    (tokens : list token) :
  (0 <= EmbeddingService.chunk_overlap self
   < EmbeddingService.chunk_size self)%Z ->
  exists chunks,
    EmbeddingService.chunk_tokens self tokens (S (List.length tokens))
    = Some chunks
    /\ List.concat
         (map (firstn (Z.to_nat (EmbeddingService.chunk_size self
                                 - EmbeddingService.chunk_overlap self)))
            chunks)
       = tokens.
Proof.
  intros Hv. eexists. split; [apply chunk_tokens_total; exact Hv |].
  rewrite (windows_heads token self tokens Hv _ 0). cbn [skipn].
  apply firstn_all2. apply window_count_covers. exact Hv.
Qed.

Lemma chunk_tokens_heads_rebuild_text_witness :
  (0 <= 2 < 4)%Z
  /\ exists chunks,
       EmbeddingService.chunk_tokens (Doubles.windowed 4 2)
         (EmbeddingService.char_encode "abcdefghi") 10 = Some chunks
       /\ List.concat (map (firstn 2) chunks)
          = EmbeddingService.char_encode "abcdefghi".
Proof.
  split; [lia |].
  apply (chunk_tokens_heads_rebuild_text ascii (Doubles.windowed 4 2)
           (EmbeddingService.char_encode "abcdefghi")).
  cbn. lia.
Defined.

(** X2.  Under [0 <= overlap < window_size] the number of chunks is the
    number of tokens divided by [window_size - overlap], rounded up, and
    chunk [i] holds [min(window_size, len - i * (window_size - overlap))]
    tokens: no chunk is empty and none is longer than the window. *)
Theorem chunk_tokens_count_and_lengths
    (token : Type) (self : EmbeddingService.EmbeddingService)
    (tokens : list token) :
  (0 <= EmbeddingService.chunk_overlap self
   < EmbeddingService.chunk_size self)%Z ->
  let size := EmbeddingService.chunk_size self in
  let step := (size - EmbeddingService.chunk_overlap self)%Z in
  let len := Z.of_nat (List.length tokens) in
  exists chunks,
    EmbeddingService.chunk_tokens self tokens (S (List.length tokens))
    = Some chunks
    /\ Z.of_nat (List.length chunks) = ((len + step - 1) / step)%Z
    /\ forall i ci,
         nth_error chunks i = Some ci ->
         Z.of_nat (List.length ci) = Z.min size (len - Z.of_nat i * step)
         /\ (1 <= Z.of_nat (List.length ci) <= size)%Z.
Proof.
  intros Hv size step len. subst size step len. eexists.
  split; [apply chunk_tokens_total; exact Hv |]. split.
  - rewrite windows_length. unfold EmbeddingService.window_count.
    rewrite Z.sub_0_r, Z2Nat.id; [reflexivity |]. apply Z.div_pos; lia.
  - intros i ci Hi.
    assert (Hlt : (i < List.length
                         (EmbeddingService.windows self tokens
                            (EmbeddingService.window_count
                               (Z.of_nat (List.length tokens))
                               (EmbeddingService.chunk_size self
                                - EmbeddingService.chunk_overlap self) 0)
                            0))%nat)
      by (apply nth_error_Some; congruence).
    rewrite windows_length in Hlt.
    pose proof (window_index_inside token self tokens Hv i Hlt) as Hin.
    rewrite windows_nth in Hi by exact Hlt. rewrite Z.add_0_l in Hi.
    set (k := (Z.of_nat i
               * (EmbeddingService.chunk_size self
                  - EmbeddingService.chunk_overlap self))%Z) in *.
    assert (Hk : (0 <= k)%Z) by (subst k; nia).
    assert (Eci : ci = EmbeddingService.slice tokens k
                         (k + EmbeddingService.chunk_size self))
      by congruence.
    rewrite Eci, slice_window by lia.
    rewrite length_firstn, length_skipn. lia.
Qed.

Lemma chunk_tokens_count_and_lengths_witness :
  (0 <= 2 < 4)%Z
  /\ exists chunks,
       EmbeddingService.chunk_tokens (Doubles.windowed 4 2)
         (EmbeddingService.char_encode "abcdefghi") 10 = Some chunks
       /\ Z.of_nat (List.length chunks) = 5%Z
       /\ forall i ci,
            nth_error chunks i = Some ci ->
            Z.of_nat (List.length ci) = Z.min 4 (9 - Z.of_nat i * 2)
            /\ (1 <= Z.of_nat (List.length ci) <= 4)%Z.
Proof.
  split; [lia |].
  apply (chunk_tokens_count_and_lengths ascii (Doubles.windowed 4 2)
           (EmbeddingService.char_encode "abcdefghi")).
  cbn. lia.
Defined.

(** X3.  With [overlap >= window_size] the start index never advances: on
    every text with at least one token [chunk_text] does not return, however
    much fuel the loop is given. *)
Theorem chunk_text_loops_on_degenerate_parameters
    (token : Type) (encode : string -> list token)
    (decode : list token -> string)
    (self : EmbeddingService.EmbeddingService) (text : string) :
  (EmbeddingService.chunk_size self
   <= EmbeddingService.chunk_overlap self)%Z ->
  encode text <> [] ->
  forall fuel,
    EmbeddingService.chunk_text token encode decode self text fuel = None.
Proof.
  intros Hd Hne fuel. unfold EmbeddingService.chunk_text.
  rewrite chunk_loop_degenerate; [reflexivity | exact Hd | exact Hne | lia].
Qed.

Lemma chunk_text_loops_on_degenerate_parameters_witness :
  (1000 <= 1000)%Z
  /\ EmbeddingService.char_encode "ROS" <> []
  /\ forall fuel,
       EmbeddingService.chunk_text ascii EmbeddingService.char_encode
         EmbeddingService.char_decode (Doubles.windowed 1000 1000) "ROS" fuel
       = None.
Proof.
  split; [lia |]. split; [discriminate |].
  apply (chunk_text_loops_on_degenerate_parameters ascii
           EmbeddingService.char_encode EmbeddingService.char_decode
           (Doubles.windowed 1000 1000) "ROS"); [cbn; lia | discriminate].
Defined.

(** ** The chunks of the uploader: sizes and edge cases *)

Lemma str_length_app (a b : string) :
  String.length (a ++ b) = (String.length a + String.length b)%nat.
Proof. induction a as [| x a IH]; cbn; [| rewrite IH]; reflexivity. Qed.

Lemma group_size_app (g1 g2 : list string) :
  Measures.group_size (g1 ++ g2)
  = (Measures.group_size g1 + Measures.group_size g2)%Z.
Proof. induction g1 as [| w g1 IH]; cbn [app Measures.group_size]; lia. Qed.

Lemma group_size_nonneg (g : list string) : (0 <= Measures.group_size g)%Z.
Proof.
  induction g as [| w g IH]; cbn [Measures.group_size]; unfold PyStr.len; lia.
Qed.

(** A group joined by single spaces is one character shorter than its
    [current_size]. *)
Lemma join_length (g : list string) :
  g <> [] ->
  (PyStr.len (PyStr.join " " g) + 1 = Measures.group_size g)%Z.
Proof.
  induction g as [| w g IH]; [congruence |]. intros _.
  destruct g as [| w' g].
  - cbn. lia.
  - change (PyStr.join " " (w :: w' :: g))
      with (w ++ " " ++ PyStr.join " " (w' :: g))%string.
    specialize (IH ltac:(discriminate)).
    cbn [Measures.group_size] in *. unfold PyStr.len in *.
    rewrite !str_length_app. cbn [String.length]. lia.
Qed.

Lemma removelast_map {A B : Type} (f : A -> B) (l : list A) :
  removelast (map f l) = map f (removelast l).
Proof.
  induction l as [| x l IH]; [reflexivity |].
  destruct l as [| y l]; [reflexivity |].
  cbn [map removelast] in *. now rewrite IH.
Qed.

Section UploadChunkSizes.
Variable size : Z.
Local Open Scope Z_scope.

Local Abbreviation groups_loop :=
  (SimpleUpload.chunk_loop (list string) (fun g => g) size).

(** A group is full when it reached [size], and minimal when it does not
    reach [size] without its last word. *)
Local Abbreviation full g := (size <= Measures.group_size g).
Local Abbreviation minimal g :=
  (removelast g <> [] -> Measures.group_size (removelast g) < size).

Lemma groups_loop_sizes (words : list string) :
  forall current current_size,
    current_size = Measures.group_size current ->
    (current <> [] -> current_size < size) ->
    Forall (fun g => full g)
      (removelast (groups_loop words [] current current_size))
    /\ Forall (fun g => minimal g)
         (groups_loop words [] current current_size).
Proof.
  induction words as [| word rest IH]; intros current cs Hcs Hlt;
    cbn [SimpleUpload.chunk_loop].
  - destruct current as [| w current]; [split; constructor |].
    split; [constructor |]. constructor; [| constructor].
    intros _. specialize (Hlt ltac:(discriminate)).
    pose proof (group_size_nonneg (removelast (w :: current))) as H0.
    rewrite (app_removelast_last "" (l := w :: current)) in Hcs
      by discriminate.
    rewrite group_size_app in Hcs.
    pose proof (group_size_nonneg [last (w :: current) ""]). lia.
  - assert (Hmin : minimal (current ++ [word])).
    { rewrite removelast_last. intros Hne. rewrite <- Hcs. auto. }
    destruct (Z.geb_spec (cs + PyStr.len word + 1) size) as [Hge | Hlt'].
    + rewrite groups_loop_acc. cbn [app].
      destruct (IH [] 0 eq_refl ltac:(congruence)) as [IHf IHm].
      split; [| constructor; assumption].
      destruct (groups_loop rest [] [] 0) as [| g gs] eqn:Hrest;
        [constructor |].
      change (removelast ((current ++ [word]) :: g :: gs))
        with ((current ++ [word]) :: removelast (g :: gs)).
      constructor; [| exact IHf].
      rewrite group_size_app. cbn [Measures.group_size]. lia.
    + apply IH.
      * rewrite group_size_app. cbn [Measures.group_size]. lia.
      * intros _. lia.
Qed.

(** Below the size, nothing is flushed before the end of the words. *)
Lemma chunk_loop_below_size (B : Type) (render : list string -> B)
    (words : list string) :
  forall chunks current current_size,
    current_size = Measures.group_size current ->
    Measures.group_size (current ++ words) < size ->
    SimpleUpload.chunk_loop B render size words chunks current current_size
    = match current ++ words with
      | [] => chunks
      | _ :: _ => chunks ++ [render (current ++ words)]
      end.
Proof.
  induction words as [| word rest IH]; intros chunks current cs Hcs Hlt;
    cbn [SimpleUpload.chunk_loop].
  - rewrite app_nil_r. reflexivity.
  - rewrite group_size_app in Hlt. cbn [Measures.group_size] in Hlt.
    pose proof (group_size_nonneg rest).
    destruct (Z.geb_spec (cs + PyStr.len word + 1) size) as [Hge | _];
      [lia |].
    rewrite IH.
    + rewrite <- app_assoc. reflexivity.
    + rewrite group_size_app. cbn [Measures.group_size]. lia.
    + rewrite <- app_assoc, group_size_app. cbn [app Measures.group_size].
      lia.
Qed.

(** At size 2 or less every word is flushed as soon as it is read. *)
Lemma chunk_loop_tiny_size (words : list string) :
  size <= 2 -> Forall PyStr.is_word words ->
  forall chunks,
    SimpleUpload.chunk_loop string (PyStr.join " ") size words chunks [] 0
    = chunks ++ words.
Proof.
  intros Hs. induction 1 as [| word rest [Hne _] _ IH]; intros chunks;
    cbn [SimpleUpload.chunk_loop].
  - now rewrite app_nil_r.
  - assert (1 <= PyStr.len word).
    { unfold PyStr.len. destruct word; [congruence | cbn; lia]. }
    destruct (Z.geb_spec (0 + PyStr.len word + 1) size) as [_ | Hlt]; [| lia].
    rewrite IH, <- app_assoc. reflexivity.
Qed.

End UploadChunkSizes.

Lemma split_go_empty (s : string) :
  forall cur,
    PyStr.split_go cur s = [] <-> cur = "" /\ Measures.all_space s = true.
Proof.
  induction s as [| c s IH]; intros cur; cbn [PyStr.split_go Measures.all_space].
  - destruct (String.eqb_spec cur ""); split; try tauto; try discriminate.
  - destruct (PyStr.is_space c); cbn [andb].
    + destruct (String.eqb_spec cur "") as [-> | Hne].
      * rewrite IH. tauto.
      * split; [discriminate | intros [? _]; contradiction].
    + rewrite IH. split; [| intros [_ H]; discriminate H].
      intros [H _]. destruct cur; discriminate H.
Qed.

Lemma In_removelast {A : Type} (x : A) (l : list A) :
  In x (removelast l) -> In x l.
Proof.
  induction l as [| y l IH]; [contradiction |].
  destruct l as [| z l]; [contradiction |].
  cbn [removelast]. intros [-> | Hin]; [now left | right; now apply IH].
Qed.

(** X4.  Every chunk of the uploader except the last has at least
    [size - 1] characters, and no chunk holds a word too many: a chunk
    without its last word has fewer than [size - 1] characters. *)
Theorem upload_chunk_size_bounds (text : string) (size : Z) :
  Forall (fun chunk => (size - 1 <= PyStr.len chunk)%Z)
    (removelast (SimpleUpload.chunk_text text size))
  /\ Forall (fun g =>
               removelast g <> [] ->
               (PyStr.len (PyStr.join " " (removelast g)) < size - 1)%Z)
       (SimpleUpload.chunk_groups text size).
Proof.
  unfold SimpleUpload.chunk_text, SimpleUpload.chunk_groups.
  rewrite chunk_loop_render. cbn [app].
  destruct (groups_loop_sizes size (PyStr.split text) [] 0 eq_refl
              ltac:(congruence)) as [Hfull Hmin].
  pose proof (groups_loop_nonempty size (PyStr.split text) [] 0) as Hne.
  set (groups := SimpleUpload.chunk_loop _ _ size (PyStr.split text) [] [] 0)
    in *.
  split.
  - rewrite removelast_map. apply Forall_map, Forall_forall. intros g Hin.
    rewrite Forall_forall in Hfull, Hne.
    pose proof (join_length g (Hne g (In_removelast g groups Hin))).
    specialize (Hfull g Hin). lia.
  - apply Forall_forall. intros g Hin Hlast.
    rewrite Forall_forall in Hmin.
    pose proof (join_length (removelast g) Hlast).
    specialize (Hmin g Hin Hlast). lia.
Qed.

Lemma chunk_text_groups (text : string) (size : Z) :
  SimpleUpload.chunk_text text size
  = map (PyStr.join " ") (SimpleUpload.chunk_groups text size)
  /\ Forall (fun g => g <> []) (SimpleUpload.chunk_groups text size)
  /\ List.concat (SimpleUpload.chunk_groups text size) = PyStr.split text.
Proof.
  unfold SimpleUpload.chunk_text, SimpleUpload.chunk_groups.
  rewrite chunk_loop_render. cbn [app].
  split; [reflexivity |].
  split; [apply groups_loop_nonempty | apply groups_loop_concat].
Qed.

Lemma chunk_text_empty_iff_blank (text : string) (size : Z) :
  SimpleUpload.chunk_text text size = []
  <-> Measures.all_space text = true.
Proof.
  destruct (chunk_text_groups text size)
    as (Hchunks & Hne & Hcat).
  rewrite Hchunks.
  transitivity (PyStr.split text = []).
  - rewrite <- Hcat. split.
    + intros Hmap. apply map_eq_nil in Hmap. now rewrite Hmap.
    + destruct (SimpleUpload.chunk_groups text size) as [| g gs];
        [reflexivity |].
      inversion Hne as [| ? ? Hg _]; subst. cbn [List.concat].
      intros Happ. apply app_eq_nil in Happ as [-> _]. congruence.
  - unfold PyStr.split. rewrite split_go_empty. tauto.
Qed.

(** X5.  The uploader's chunker returns no chunk exactly for a text made of
    white space only (the empty text included); any other text gives at
    least one chunk, whatever the size. *)
Theorem upload_no_chunk_iff_blank (text : string) (size : Z) :
  (SimpleUpload.chunk_text text size = []
   <-> Measures.all_space text = true)
  /\ (Measures.all_space text = false ->
      (1 <= List.length (SimpleUpload.chunk_text text size))%nat).
Proof.
  split; [apply chunk_text_empty_iff_blank |].
  intros Hb. destruct (SimpleUpload.chunk_text text size) eqn:Hc;
    [| cbn; lia].
  apply chunk_text_empty_iff_blank in Hc. congruence.
Qed.

(** X6.  With a size of 2 or less (zero and negative sizes included) the
    uploader's chunker gives one chunk per word of the text. *)
Theorem upload_chunks_are_words_at_tiny_size (text : string) (size : Z) :
  (size <= 2)%Z ->
  SimpleUpload.chunk_text text size = PyStr.split text.
Proof.
  intros Hs. unfold SimpleUpload.chunk_text.
  rewrite chunk_loop_tiny_size; [reflexivity | exact Hs | apply split_words].
Qed.

Lemma upload_chunks_are_words_at_tiny_size_witness :
  (0 <= 2)%Z
  /\ SimpleUpload.chunk_text "  ROS 2   is	middleware " 0
     = ["ROS"; "2"; "is"; "middleware"].
Proof.
  split; [lia |].
  apply (upload_chunks_are_words_at_tiny_size "  ROS 2   is	middleware " 0).
  lia.
Defined.

(** X7.  A text that is not blank and whose words, joined by single spaces,
    take fewer than [size - 1] characters is one chunk: its words joined by
    single spaces. *)
Theorem upload_short_text_is_one_chunk (text : string) (size : Z) :
  PyStr.split text <> [] ->
  (PyStr.len (PyStr.join " " (PyStr.split text)) + 1 < size)%Z ->
  SimpleUpload.chunk_text text size
  = [PyStr.join " " (PyStr.split text)].
Proof.
  intros Hne Hlen. unfold SimpleUpload.chunk_text.
  rewrite chunk_loop_below_size; cbn [app].
  - destruct (PyStr.split text); [congruence | reflexivity].
  - reflexivity.
  - rewrite <- join_length by exact Hne. exact Hlen.
Qed.

Lemma upload_short_text_is_one_chunk_witness :
  PyStr.split Doubles.sparse <> []
  /\ (PyStr.len (PyStr.join " " (PyStr.split Doubles.sparse)) + 1 < 1000)%Z
  /\ SimpleUpload.chunk_text Doubles.sparse 1000
     = ["TODO: write this chapter"].
Proof.
  assert (Hne : PyStr.split Doubles.sparse <> []) by (vm_compute; discriminate).
  assert (Hlen : (PyStr.len (PyStr.join " " (PyStr.split Doubles.sparse)) + 1
                  < 1000)%Z) by (vm_compute; reflexivity).
  split; [exact Hne |]. split; [exact Hlen |].
  exact (upload_short_text_is_one_chunk Doubles.sparse 1000 Hne Hlen).
Defined.

(** ** [strip] and [clean_content] *)

Lemma lstrip_head (s : string) :
  PyStr.lstrip s = ""
  \/ exists c r, PyStr.lstrip s = String c r /\ PyStr.is_space c = false.
Proof.
  induction s as [| c s IH]; [now left |]. cbn [PyStr.lstrip].
  destruct (PyStr.is_space c) eqn:Hc; [exact IH |]. right. eauto.
Qed.

Lemma rstrip_head (c : ascii) (s : string) :
  PyStr.is_space c = false ->
  exists r, PyStr.rstrip (String c s) = String c r.
Proof.
  intros Hc. cbn [PyStr.rstrip]. rewrite Hc.
  destruct (PyStr.rstrip s); eauto.
Qed.

Lemma rstrip_idem (s : string) : PyStr.rstrip (PyStr.rstrip s) = PyStr.rstrip s.
Proof.
  induction s as [| c s IH]; [reflexivity |]. cbn [PyStr.rstrip].
  destruct (PyStr.rstrip s) as [| d r] eqn:Hr.
  - destruct (PyStr.is_space c) eqn:Hc; [reflexivity |].
    cbn [PyStr.rstrip]. now rewrite Hc.
  - cbn [PyStr.rstrip] in *. now rewrite IH.
Qed.

(** A stripped text is empty or begins with a character that is not white
    space. *)
Lemma strip_head (s : string) :
  PyStr.strip s = ""
  \/ exists c r, PyStr.strip s = String c r /\ PyStr.is_space c = false.
Proof.
  unfold PyStr.strip.
  destruct (lstrip_head s) as [-> | (c & r & -> & Hc)]; [now left |].
  destruct (rstrip_head c r Hc) as (r' & ->). right. eauto.
Qed.

Lemma strip_idem (s : string) : PyStr.strip (PyStr.strip s) = PyStr.strip s.
Proof.
  destruct (strip_head s) as [-> | (c & r & Hs & Hc)]; [reflexivity |].
  unfold PyStr.strip at 1. rewrite Hs. cbn [PyStr.lstrip]. rewrite Hc.
  rewrite <- Hs. unfold PyStr.strip. apply rstrip_idem.
Qed.

Lemma strip_not_blank (s : string) :
  PyStr.strip s <> "" -> Measures.all_space (PyStr.strip s) = false.
Proof.
  destruct (strip_head s) as [-> | (c & r & -> & Hc)]; [congruence |].
  intros _. cbn [Measures.all_space]. now rewrite Hc.
Qed.

Lemma lstrip_length (s : string) :
  (String.length (PyStr.lstrip s) <= String.length s)%nat.
Proof.
  induction s as [| c s IH]; cbn [PyStr.lstrip String.length]; [lia |].
  destruct (PyStr.is_space c); cbn [String.length]; lia.
Qed.

Lemma rstrip_length (s : string) :
  (String.length (PyStr.rstrip s) <= String.length s)%nat.
Proof.
  induction s as [| c s IH]; cbn [PyStr.rstrip String.length]; [lia |].
  destruct (PyStr.rstrip s); [destruct (PyStr.is_space c) |];
    cbn [String.length] in *; lia.
Qed.

Lemma strip_length (s : string) :
  (String.length (PyStr.strip s) <= String.length s)%nat.
Proof.
  unfold PyStr.strip.
  pose proof (rstrip_length (PyStr.lstrip s)). pose proof (lstrip_length s).
  lia.
Qed.

Lemma remove_kw_length (kw : string) (s : string) :
  forall mode,
    (String.length (SimpleUpload.remove_kw kw mode s) <= String.length s)%nat.
Proof.
  induction s as [| c s IH]; intros mode; cbn [SimpleUpload.remove_kw];
    [cbn; lia |].
  destruct mode as [bol | k | |].
  - destruct (bol && SimpleUpload.kw_at kw (String c s));
      cbn [String.length]; [| apply le_n_S]; rewrite IH; lia.
  - cbn [String.length]. rewrite IH. lia.
  - destruct (PyStr.is_space c); cbn [String.length]; rewrite IH; lia.
  - destruct (Ascii.eqb c SimpleUpload.newline); cbn [String.length];
      [apply le_n_S |]; rewrite IH; lia.
Qed.

Lemma strip_tags_length (s : string) :
  forall inside,
    (String.length (SimpleUpload.strip_tags inside s) <= String.length s)%nat.
Proof.
  induction s as [| c s IH]; intros inside; cbn [SimpleUpload.strip_tags];
    [cbn; lia |].
  destruct inside; [cbn [String.length]; rewrite IH; lia |].
  destruct (Ascii.eqb c "<" && SimpleUpload.tag_closes s);
    cbn [String.length]; [| apply le_n_S]; rewrite IH; lia.
Qed.

Lemma remove_delimited_length (op cl : string) (s : string) :
  forall skip inside,
    (String.length (SimpleUpload.remove_delimited op cl skip inside s)
     <= String.length s)%nat.
Proof.
  induction s as [| c s IH]; intros skip inside;
    cbn [SimpleUpload.remove_delimited]; [cbn; lia |].
  destruct skip as [| skip]; [| cbn [String.length]; rewrite IH; lia].
  destruct inside.
  - destruct (String.prefix cl (String c s)); cbn [String.length];
      rewrite IH; lia.
  - destruct (String.prefix op (String c s) && _); cbn [String.length];
      [| apply le_n_S]; rewrite IH; lia.
Qed.

Lemma blank_span_bounds (rest : string) :
  forall n last cnt,
    (last <= n)%nat ->
    let r := SimpleUpload.blank_span rest n last cnt in
    (last <= fst r <= n + String.length rest)%nat
    /\ (cnt < snd r -> n < fst r)%nat.
Proof.
  induction rest as [| c rest IH]; intros n last cnt Hl;
    cbn [SimpleUpload.blank_span String.length].
  - cbn. lia.
  - destruct (PyStr.is_space c); [| cbn; lia].
    destruct (Ascii.eqb c SimpleUpload.newline).
    + specialize (IH (S n) (S n) (S cnt) ltac:(lia)). cbv zeta in *. lia.
    + specialize (IH (S n) last cnt ltac:(lia)). cbv zeta in *. lia.
Qed.

Lemma collapse_blank_lines_length (s : string) :
  forall skip,
    (String.length (SimpleUpload.collapse_blank_lines skip s)
     + Nat.min skip (String.length s) <= String.length s)%nat.
Proof.
  induction s as [| c s IH]; intros skip;
    cbn [SimpleUpload.collapse_blank_lines String.length]; [cbn; lia |].
  destruct skip as [| skip]; [| specialize (IH skip); lia].
  destruct (Ascii.eqb c SimpleUpload.newline);
    [| cbn [String.length]; specialize (IH 0%nat); lia].
  pose proof (blank_span_bounds s 0 0 0 ltac:(lia)) as Hb. cbv zeta in Hb.
  destruct (SimpleUpload.blank_span s 0 0 0) as [last cnt].
  cbn [fst snd] in Hb.
  destruct (Nat.leb_spec 2 cnt); cbn [String.length].
  - specialize (IH last). lia.
  - specialize (IH 0%nat). lia.
Qed.

Lemma clean_content_length (content : string) :
  (PyStr.len (SimpleUpload.clean_content content) <= PyStr.len content)%Z.
Proof.
  unfold SimpleUpload.clean_content, PyStr.len. apply Nat2Z.inj_le.
  etransitivity; [apply strip_length |].
  etransitivity; [pose proof (collapse_blank_lines_length
                                (SimpleUpload.remove_delimited "{/*" "*/}" 0 false
                                   (SimpleUpload.remove_delimited "<!--" "-->" 0 false
                                      (SimpleUpload.strip_tags false
                                         (SimpleUpload.remove_kw "export"
                                            (SimpleUpload.KwOut true)
                                            (SimpleUpload.remove_kw "import"
                                               (SimpleUpload.KwOut true)
                                               content))))) 0) as H;
                  rewrite Nat.min_0_l, Nat.add_0_r in H; exact H |].
  etransitivity; [apply remove_delimited_length |].
  etransitivity; [apply remove_delimited_length |].
  etransitivity; [apply strip_tags_length |].
  etransitivity; [apply remove_kw_length |].
  apply remove_kw_length.
Qed.

Lemma clean_content_empty_or_not_blank (content : string) :
  SimpleUpload.clean_content content = ""
  \/ Measures.all_space (SimpleUpload.clean_content content) = false.
Proof.
  unfold SimpleUpload.clean_content.
  match goal with
  | |- PyStr.strip ?t = "" \/ _ =>
      destruct (String.eqb_spec (PyStr.strip t) "") as [He | Hne];
      [left; exact He | right; apply strip_not_blank; exact Hne]
  end.
Qed.

(** X8.  The text [clean_content] returns is stripped (stripping it again
    changes nothing), is empty or holds a character that is not white
    space, and is never longer than the raw content. *)
Theorem clean_content_stripped_and_no_longer (content : string) :
  PyStr.strip (SimpleUpload.clean_content content)
  = SimpleUpload.clean_content content
  /\ (SimpleUpload.clean_content content = ""
      \/ Measures.all_space (SimpleUpload.clean_content content) = false)
  /\ (PyStr.len (SimpleUpload.clean_content content)
      <= PyStr.len content)%Z.
Proof.
  split; [apply strip_idem |]. split; [| apply clean_content_length].
  apply clean_content_empty_or_not_blank.
Qed.

Section IngestionRuns.
Variables (W vector : Type).
Variable read_text : SimpleUpload.Path -> W -> result string * W.
Variable embeddings_create : string -> string -> W -> result vector * W.
Variable uuid4 : W -> string * W.
Variable upsert :
  string -> list (SimpleUpload.PointStruct vector) -> W -> result unit * W.
Variable COLLECTION_NAME : string.
Hypothesis embeddings_answer :
  forall m x w, exists v w', embeddings_create m x w = (Ok v, w').

Local Abbreviation embed_chunks :=
  (SimpleUpload.embed_chunks W vector embeddings_create uuid4).

(** With an embedding provider that answers, the loop embeds every chunk,
    in order, and returns one point per chunk. *)
Lemma embed_chunks_all (chunks : list string) :
  forall file i points s,
  exists points' s',
    embed_chunks file i chunks points s = (Ok points', s')
    /\ List.length points' = (List.length points + List.length chunks)%nat
    /\ calls s'
       = calls s ++ map (EmbeddingsCreate "text-embedding-3-small") chunks.
Proof.
  induction chunks as [| chunk rest IH]; intros file i points s;
    cbn [SimpleUpload.embed_chunks map List.length].
  - exists points, s. rewrite app_nil_r, Nat.add_0_r. repeat split.
  - unfold bind at 1. unfold provider at 1.
    destruct (embeddings_answer "text-embedding-3-small" chunk (ext s))
      as (v & w1 & ->).
    unfold bind at 1. unfold local_effect at 1. cbn [ext calls].
    destruct (uuid4 w1) as [uid w2].
    match goal with
    | |- exists _ _, SimpleUpload.embed_chunks _ _ _ _ ?f ?j ?r ?p ?t = _ /\ _ =>
        destruct (IH f j p t) as (points' & s' & Hrun & Hlen & Hlog)
    end.
    exists points', s'. split; [exact Hrun |]. split.
    + rewrite Hlen, length_app. cbn. lia.
    + rewrite Hlog. cbn [calls]. now rewrite <- app_assoc.
Qed.

End IngestionRuns.

(** X9.  A file whose raw content has fewer than 50 characters is always
    skipped: [upload_file] returns 0 after the read, without any embedding
    or upsert call, whatever the content is. *)
Theorem upload_skips_short_raw_content
    (W vector : Type)
    (read_text : SimpleUpload.Path -> W -> result string * W)
    (embeddings_create : string -> string -> W -> result vector * W)
    (uuid4 : W -> string * W)
    (upsert :
       string -> list (SimpleUpload.PointStruct vector) -> W
       -> result unit * W)
    (COLLECTION_NAME : string)
    (file : SimpleUpload.Path) (s : world W) (content : string) (w1 : W) :
  read_text file (ext s) = (Ok content, w1) ->
  (PyStr.len content < 50)%Z ->
  SimpleUpload.upload_file W vector read_text embeddings_create uuid4 upsert
    COLLECTION_NAME file s
  = (Ok 0%Z,
     {| ext := w1; calls := calls s ++ [ReadText (SimpleUpload.name file)] |}).
Proof.
  intros Hread Hshort.
  unfold SimpleUpload.upload_file, SimpleUpload.upload_body. run.
  rewrite Hread.
  pose proof (clean_content_length content) as Hlen.
  destruct (Z.ltb_spec (PyStr.len (SimpleUpload.clean_content content)) 50);
    [reflexivity | lia].
Qed.

Lemma upload_skips_short_raw_content_witness :
  SimpleUpload.upload_file unit unit Doubles.read_text Doubles.embed_ok
    Doubles.uuid4 Doubles.upsert "robotics_book_embeddings"
    (Doubles.mdx "stub") Doubles.start
  = (Ok 0%Z, {| ext := tt; calls := [ReadText "stub.mdx"] |}).
Proof.
  apply (upload_skips_short_raw_content unit unit Doubles.read_text
           Doubles.embed_ok Doubles.uuid4 Doubles.upsert
           "robotics_book_embeddings" (Doubles.mdx "stub") Doubles.start
           "  TODO  " tt); [reflexivity | vm_compute; reflexivity].
Defined.

(** X10.  When the file is read, its cleaned text has at least 50
    characters, and the embedding provider and the index answer, then
    [upload_file] returns the number of chunks of the cleaned text, which is
    at least 1, after exactly these calls: the read, one embedding per
    chunk in the order of the chunks, and one upsert of all the points. *)
Theorem upload_counts_every_chunk
    (W vector : Type)
    (read_text : SimpleUpload.Path -> W -> result string * W)
    (embeddings_create : string -> string -> W -> result vector * W)
    (uuid4 : W -> string * W)
    (upsert :
       string -> list (SimpleUpload.PointStruct vector) -> W
       -> result unit * W)
    (COLLECTION_NAME : string)
    (file : SimpleUpload.Path) (s : world W) (content : string) (w1 : W) :
  (forall m x w, exists v w', embeddings_create m x w = (Ok v, w')) ->
  (forall c points w, exists w', upsert c points w = (Ok tt, w')) ->
  read_text file (ext s) = (Ok content, w1) ->
  (50 <= PyStr.len (SimpleUpload.clean_content content))%Z ->
  let chunks :=
    SimpleUpload.chunk_text (SimpleUpload.clean_content content) 1000 in
  exists s',
    SimpleUpload.upload_file W vector read_text embeddings_create uuid4
      upsert COLLECTION_NAME file s
    = (Ok (Z.of_nat (List.length chunks)), s')
    /\ (1 <= List.length chunks)%nat
    /\ calls s'
       = calls s
         ++ [ReadText (SimpleUpload.name file)]
         ++ map (EmbeddingsCreate "text-embedding-3-small") chunks
         ++ [Upsert COLLECTION_NAME (List.length chunks)].
Proof.
  intros Hembed Hupsert Hread Hfloor chunks.
  assert (Hchunks : (1 <= List.length chunks)%nat).
  { destruct chunks as [| c cs] eqn:Hc; [| cbn; lia]. exfalso.
    subst chunks. apply chunk_text_empty_iff_blank in Hc.
    destruct (clean_content_empty_or_not_blank content) as [He | Hb];
      [| congruence].
    rewrite He in Hfloor. cbn in Hfloor. lia. }
  unfold SimpleUpload.upload_file, SimpleUpload.upload_body.
  unfold try_except. unfold bind at 1. unfold provider at 1.
  rewrite Hread.
  destruct (Z.ltb_spec (PyStr.len (SimpleUpload.clean_content content)) 50);
    [lia |].
  fold chunks. unfold bind at 1.
  match goal with
  | |- context [SimpleUpload.embed_chunks _ _ _ _ ?f ?j ?c ?p ?t] =>
      destruct (embed_chunks_all W vector embeddings_create uuid4 Hembed
                  c f j p t) as (points & s2 & -> & Hlen & Hlog)
  end.
  cbn [List.length Nat.add calls] in Hlen, Hlog.
  unfold bind, provider, ret.
  destruct (Hupsert COLLECTION_NAME points (ext s2)) as (w3 & ->).
  rewrite Hlen, Hlog. eexists. split; [reflexivity |].
  split; [exact Hchunks |]. cbn [calls]. now rewrite <- !app_assoc.
Qed.

Lemma upload_counts_every_chunk_witness :
  exists s',
    SimpleUpload.upload_file unit unit Doubles.read_text Doubles.embed_ok
      Doubles.uuid4 Doubles.upsert "robotics_book_embeddings"
      (Doubles.mdx "sparse") Doubles.start
    = (Ok 1%Z, s')
    /\ (1 <= 1)%nat
    /\ calls s'
       = [ReadText "sparse.mdx";
          EmbeddingsCreate "text-embedding-3-small" "TODO: write this chapter";
          Upsert "robotics_book_embeddings" 1].
Proof.
  apply (upload_counts_every_chunk unit unit Doubles.read_text
           Doubles.embed_ok Doubles.uuid4 Doubles.upsert
           "robotics_book_embeddings" (Doubles.mdx "sparse") Doubles.start
           Doubles.sparse tt).
  - intros m x w. exists tt, w. reflexivity.
  - intros c points w. exists w. reflexivity.
  - reflexivity.
  - vm_compute. discriminate.
Defined.

(** ** Tags and comments in [clean_content] *)

Lemma prefix_inv (p t : string) :
  String.prefix p t = true -> exists r, t = (p ++ r)%string.
Proof.
  revert t; induction p as [| a p IH]; intros t H; [exists t; reflexivity |].
  destruct t as [| b t]; [discriminate |]. cbn [String.prefix] in H.
  destruct (ascii_dec a b) as [-> | _]; [| discriminate].
  destruct (IH t H) as (r & ->). exists r. reflexivity.
Qed.

Lemma contains_gt_cons (c : ascii) (s : string) :
  SimpleUpload.contains ">" (String c s)
  = Ascii.eqb c ">" || SimpleUpload.contains ">" s.
Proof.
  cbn [SimpleUpload.contains String.prefix].
  destruct (ascii_dec ">" c) as [<- | Hne]; [destruct s; reflexivity |].
  destruct (Ascii.eqb_spec c ">"); [congruence | reflexivity].
Qed.

Lemma contains_gt_skip (s : string) :
  SimpleUpload.contains ">" s = false ->
  forall k, SimpleUpload.contains ">" (SimpleUpload.skip_chars k s) = false.
Proof.
  induction s as [| c s IH]; intros H k.
  - destruct k; exact H.
  - destruct k as [| k]; [exact H |]. cbn [SimpleUpload.skip_chars].
    rewrite contains_gt_cons in H. apply orb_false_iff in H as [_ H].
    now apply IH.
Qed.

Lemma contains_closer_gt (t : string) :
  SimpleUpload.contains "-->" t = true -> SimpleUpload.contains ">" t = true.
Proof.
  induction t as [| c t IH]; [discriminate |].
  intros H. cbn [SimpleUpload.contains] in H.
  apply orb_true_iff in H as [H | H].
  - apply prefix_inv in H as (r & Hr). cbn [String.append] in Hr.
    injection Hr as -> ->. rewrite !contains_gt_cons. reflexivity.
  - rewrite contains_gt_cons, (IH H). apply orb_true_r.
Qed.

(** Without any [">"], no tag can be closed: the text is left as it is. *)
Lemma strip_tags_no_gt (s : string) :
  SimpleUpload.contains ">" s = false -> SimpleUpload.strip_tags false s = s.
Proof.
  induction s as [| c s IH]; [reflexivity |]. intros H.
  rewrite contains_gt_cons in H. apply orb_false_iff in H as [_ H].
  cbn [SimpleUpload.strip_tags].
  assert (Hc : SimpleUpload.tag_closes s = false).
  { destruct s; [reflexivity |]. unfold SimpleUpload.tag_closes.
    rewrite H. apply andb_false_r. }
  rewrite Hc, andb_false_r, IH by exact H. reflexivity.
Qed.

Lemma tag_closes_strip_tags (s : string) :
  SimpleUpload.tag_closes s = false ->
  SimpleUpload.tag_closes (SimpleUpload.strip_tags false s) = false.
Proof.
  destruct s as [| d r]; [reflexivity |]. intros H.
  unfold SimpleUpload.tag_closes in H.
  apply andb_false_iff in H as [H | H].
  - apply negb_false_iff in H. apply Ascii.eqb_eq in H as ->.
    cbn [SimpleUpload.strip_tags]. reflexivity.
  - rewrite strip_tags_no_gt by exact H.
    unfold SimpleUpload.tag_closes. rewrite H. apply andb_false_r.
Qed.

Lemma strip_tags_tag_free (s : string) :
  forall inside, Measures.tag_free (SimpleUpload.strip_tags inside s).
Proof.
  induction s as [| c s IH]; intros inside; cbn [SimpleUpload.strip_tags];
    [exact I |].
  destruct inside; [apply IH |].
  destruct (Ascii.eqb_spec c "<") as [-> | Hne]; cbn [andb].
  - destruct (SimpleUpload.tag_closes s) eqn:Hc; [apply IH |].
    split; [| apply IH]. intros _. now apply tag_closes_strip_tags.
  - split; [| apply IH]. intros ->. congruence.
Qed.

Lemma strip_tags_fixed (s : string) :
  Measures.tag_free s -> SimpleUpload.strip_tags false s = s.
Proof.
  induction s as [| c s IH]; [reflexivity |]. intros [Hc Hs].
  cbn [SimpleUpload.strip_tags].
  destruct (Ascii.eqb_spec c "<") as [-> | Hne]; cbn [andb].
  - rewrite (Hc eq_refl), IH by exact Hs. reflexivity.
  - rewrite IH by exact Hs. reflexivity.
Qed.

Lemma remove_comments_fixed (s : string) :
  Measures.tag_free s ->
  SimpleUpload.remove_delimited "<!--" "-->" 0 false s = s.
Proof.
  induction s as [| c s IH]; [reflexivity |]. intros [Hc Hs].
  cbn [SimpleUpload.remove_delimited].
  destruct (String.prefix "<!--" (String c s)) eqn:Hp; cbn [andb].
  - apply prefix_inv in Hp as (r & Hr). injection Hr as -> ->.
    specialize (Hc eq_refl). unfold SimpleUpload.tag_closes in Hc.
    cbn [Ascii.eqb negb andb] in Hc.
    change (negb (Ascii.eqb "!" ">")) with true in Hc. cbn [andb] in Hc.
    pose proof (contains_gt_skip _ Hc 3) as Hk.
    cbn [String.length SimpleUpload.skip_chars String.append] in *.
    destruct (SimpleUpload.contains "-->" r) eqn:Hcl.
    + apply contains_closer_gt in Hcl. congruence.
    + rewrite IH by exact Hs. reflexivity.
  - rewrite IH by exact Hs. reflexivity.
Qed.

(** X11.  After the tag substitution of [clean_content] no tag is left: no
    ["<"] of the result is followed by a character other than [">"] and,
    further on, by a [">"], so that applying the substitution a second time
    changes nothing. *)
Theorem strip_tags_leaves_no_tag (s : string) :
  Measures.tag_free (SimpleUpload.strip_tags false s)
  /\ SimpleUpload.strip_tags false (SimpleUpload.strip_tags false s)
     = SimpleUpload.strip_tags false s.
Proof.
  split; [apply strip_tags_tag_free |].
  apply strip_tags_fixed, strip_tags_tag_free.
Qed.

(** X12.  In [clean_content] the HTML-comment substitution, which runs after
    the tag substitution, never changes the text: whatever the content, the
    result is the one of the same steps without it (a comment is already
    removed, as a tag, up to its first [">"]). *)
Theorem clean_content_comment_step_is_idle (content : string) :
  SimpleUpload.clean_content content
  = PyStr.strip
      (SimpleUpload.collapse_blank_lines 0
         (SimpleUpload.remove_delimited "{/*" "*/}" 0 false
            (SimpleUpload.strip_tags false
               (SimpleUpload.remove_kw "export" (SimpleUpload.KwOut true)
                  (SimpleUpload.remove_kw "import" (SimpleUpload.KwOut true)
                     content))))).
Proof.
  unfold SimpleUpload.clean_content.
  rewrite remove_comments_fixed by apply strip_tags_tag_free.
  reflexivity.
Qed.

(** ** Every run of the two queries *)


Section ServiceFailures.
Variables (W vector : Type).
Variable embeddings_create : string -> string -> W -> result vector * W.
Variable search :
  string -> vector -> Z -> W -> result (list ScoredPoint) * W.
Variable chat_completion :
  string -> string -> string -> Z -> Q -> W -> result string * W.
Variable new_embedding_service :
  W -> result EmbeddingService.EmbeddingService * W.

Local Abbreviation query :=
  (RAGService.query W vector embeddings_create search chat_completion
     new_embedding_service).
Local Abbreviation user_prompt_of question extra hits :=
  (RAGService.user_prompt
     (RAGService.with_additional_context extra
        (PyStr.join (RAGService.nl ++ RAGService.nl)%string
           (RAGService.context_parts 1 (map RAGService.to_source hits))))
     question).





End ServiceFailures.


(** ** Sources and the classification of questions *)

Lemma without_text_keys (p : payload) :
  ~ In "text" (map fst (without_text p)).
Proof.
  unfold without_text. induction p as [| [k v] p IH]; cbn [filter fst];
    [tauto |].
  destruct (String.eqb_spec k "text") as [-> | Hne]; cbn [negb map fst In];
    [exact IH |].
  intros [Hk | Hin]; [congruence | contradiction].
Qed.

Lemma without_text_get (p : payload) (key : string) (default : pyval) :
  key <> "text" ->
  payload_get (without_text p) key default = payload_get p key default.
Proof.
  intros Hkey. unfold without_text.
  induction p as [| [k v] p IH]; cbn [filter fst payload_get]; [reflexivity |].
  destruct (String.eqb_spec k "text") as [-> | Hne]; cbn [negb payload_get].
  - destruct (String.eqb_spec "text" key); [congruence | exact IH].
  - destruct (String.eqb_spec k key); [reflexivity | exact IH].
Qed.

(** X15.  A source of a response is its hit with the text taken out of the
    payload: same id and score, the text stored under ["text"] (the empty
    string when there is none), and as metadata every other entry of the
    payload, unchanged, with no entry ["text"] left.  The endpoint and the
    service build the same source. *)
Theorem source_is_hit_without_text (hit : ScoredPoint) :
  let src := Main.to_source hit in
  RAGService.to_source hit = src
  /\ src_id src = hit_id hit
  /\ src_score src = hit_score hit
  /\ src_text src = payload_get (hit_payload hit) "text" (VStr "")
  /\ ~ In "text" (map fst (src_metadata src))
  /\ forall key default,
       key <> "text" ->
       payload_get (src_metadata src) key default
       = payload_get (hit_payload hit) key default.
Proof.
  cbv zeta. repeat split.
  - apply without_text_keys.
  - intros key default Hkey. now apply without_text_get.
Qed.

Lemma is_space_lower_char (c : ascii) :
  PyStr.is_space (PyStr.lower_char c) = PyStr.is_space c.
Proof. destruct c as [[] [] [] [] [] [] [] []]; reflexivity. Qed.

Lemma lower_char_idem (c : ascii) :
  PyStr.lower_char (PyStr.lower_char c) = PyStr.lower_char c.
Proof. destruct c as [[] [] [] [] [] [] [] []]; reflexivity. Qed.

Lemma lower_app (a b : string) :
  PyStr.lower (a ++ b) = (PyStr.lower a ++ PyStr.lower b)%string.
Proof. induction a as [| c a IH]; cbn; [| rewrite IH]; reflexivity. Qed.

Lemma lower_idem (s : string) : PyStr.lower (PyStr.lower s) = PyStr.lower s.
Proof.
  induction s as [| c s IH]; cbn [PyStr.lower]; [reflexivity |].
  now rewrite lower_char_idem, IH.
Qed.

Lemma all_space_lower (s : string) :
  Measures.all_space (PyStr.lower s) = Measures.all_space s.
Proof.
  induction s as [| c s IH]; cbn [PyStr.lower Measures.all_space];
    [reflexivity |].
  now rewrite is_space_lower_char, IH.
Qed.

Lemma lstrip_blank (ws : string) :
  Measures.all_space ws = true -> PyStr.lstrip ws = "".
Proof.
  induction ws as [| c ws IH]; cbn [Measures.all_space PyStr.lstrip];
    [reflexivity |].
  intros H. apply andb_true_iff in H as [-> H]. now apply IH.
Qed.

Lemma rstrip_blank (ws : string) :
  Measures.all_space ws = true -> PyStr.rstrip ws = "".
Proof.
  induction ws as [| c ws IH]; cbn [Measures.all_space PyStr.rstrip];
    [reflexivity |].
  intros H. apply andb_true_iff in H as [-> H]. now rewrite IH.
Qed.

Lemma lstrip_app (s post : string) :
  PyStr.lstrip (s ++ post)
  = if Measures.all_space s then PyStr.lstrip post
    else (PyStr.lstrip s ++ post)%string.
Proof.
  induction s as [| c s IH];
    cbn [String.append PyStr.lstrip Measures.all_space]; [reflexivity |].
  destruct (PyStr.is_space c); cbn [andb]; [exact IH | reflexivity].
Qed.

Lemma rstrip_app_blank (s post : string) :
  Measures.all_space post = true ->
  PyStr.rstrip (s ++ post) = PyStr.rstrip s.
Proof.
  intros Hp. induction s as [| c s IH]; cbn [String.append PyStr.rstrip].
  - now apply rstrip_blank.
  - now rewrite IH.
Qed.

Lemma strip_padded (pre s post : string) :
  Measures.all_space pre = true -> Measures.all_space post = true ->
  PyStr.strip (pre ++ s ++ post) = PyStr.strip s.
Proof.
  intros Hpre Hpost. unfold PyStr.strip.
  rewrite (lstrip_app pre), Hpre, (lstrip_app s).
  destruct (Measures.all_space s) eqn:Hs.
  - now rewrite (lstrip_blank post), (lstrip_blank s).
  - now apply rstrip_app_blank.
Qed.

(** X16.  The classification of a question as a conversational filler does
    not depend on white space around the question nor on the case of its
    letters: padding the question with white space on both sides, or
    lower-casing it, gives the same classification. *)
Theorem is_vague_ignores_padding_and_case (pre q post : string) :
  Measures.all_space pre = true ->
  Measures.all_space post = true ->
  Main.is_vague (pre ++ q ++ post) = Main.is_vague q
  /\ Main.is_vague (PyStr.lower q) = Main.is_vague q.
Proof.
  intros Hpre Hpost. unfold Main.is_vague. split.
  - rewrite !lower_app, strip_padded; [reflexivity | |];
      now rewrite all_space_lower.
  - now rewrite lower_idem.
Qed.

Lemma is_vague_ignores_padding_and_case_witness :
  Main.is_vague ("
  " ++ "Thank You" ++ "	 ") = Main.is_vague "Thank You"
  /\ Main.is_vague (PyStr.lower "Thank You") = Main.is_vague "Thank You".
Proof.
  apply (is_vague_ignores_padding_and_case "
  " "Thank You" "	 "); reflexivity.
Defined.

(** ** File names of prompt history records *)

Lemma all_chars_impl (p q : ascii -> bool) (s : string) :
  (forall c, p c = true -> q c = true) ->
  PHRService.all_chars p s = true -> PHRService.all_chars q s = true.
Proof.
  intros Hpq. induction s as [| c s IH]; cbn [PHRService.all_chars];
    [reflexivity |].
  intros H. apply andb_true_iff in H as [Hc Hs].
  now rewrite (Hpq c Hc), IH.
Qed.

Lemma all_chars_app (p : ascii -> bool) (a b : string) :
  PHRService.all_chars p (a ++ b)
  = PHRService.all_chars p a && PHRService.all_chars p b.
Proof.
  induction a as [| c a IH]; cbn [String.append PHRService.all_chars];
    [reflexivity |].
  now rewrite IH, andb_assoc.
Qed.

Lemma keep_chars_all (p : ascii -> bool) (s : string) :
  PHRService.all_chars p (PHRService.keep_chars p s) = true.
Proof.
  induction s as [| c s IH]; cbn [PHRService.keep_chars]; [reflexivity |].
  destruct (p c) eqn:Hc; [cbn [PHRService.all_chars]; now rewrite Hc |].
  exact IH.
Qed.

Lemma keep_chars_length (p : ascii -> bool) (s : string) :
  (String.length (PHRService.keep_chars p s) <= String.length s)%nat.
Proof.
  induction s as [| c s IH]; cbn [PHRService.keep_chars String.length];
    [lia |].
  destruct (p c); cbn [String.length]; lia.
Qed.

Lemma take_length (n : nat) (s : string) :
  (String.length (PHRService.take n s) <= n)%nat.
Proof.
  revert s; induction n as [| n IH]; intros [| c s]; cbn; try lia.
  specialize (IH s). lia.
Qed.

Lemma slug_char_is_safe (c : ascii) :
  PHRService.isalnum c || Ascii.eqb c "-" = true ->
  negb (Ascii.eqb c "/") && negb (Ascii.eqb c " ") && negb (Ascii.eqb c ".")
  && negb (Ascii.eqb c "\") = true.
Proof.
  destruct c as [[] [] [] [] [] [] [] []]; vm_compute; intros H;
    first [reflexivity | discriminate H].
Qed.

(** X17.  The slug of a title has at most 30 characters, all of them
    letters, digits or dashes: whatever the title, the file name of a
    record holds no slash, backslash, space or dot coming from it. *)
Theorem slug_is_short_and_safe (title : string) :
  (String.length (PHRService.slug_of title) <= 30)%nat
  /\ PHRService.all_chars
       (fun c => PHRService.isalnum c || Ascii.eqb c "-")
       (PHRService.slug_of title) = true
  /\ PHRService.all_chars
       (fun c => negb (Ascii.eqb c "/") && negb (Ascii.eqb c " ")
                 && negb (Ascii.eqb c ".") && negb (Ascii.eqb c "\"))
       (PHRService.slug_of title) = true.
Proof.
  unfold PHRService.slug_of. split; [| split].
  - etransitivity; [apply keep_chars_length | apply take_length].
  - apply keep_chars_all.
  - eapply all_chars_impl; [apply slug_char_is_safe | apply keep_chars_all].
Qed.

(** A character of a decimal numeral. *)
Local Abbreviation decimal_digit :=
  (fun c => (48 <=? PyStr.code c)%nat && (PyStr.code c <=? 57)%nat).

Lemma string_of_uint_digits (d : Decimal.uint) :
  PHRService.all_chars decimal_digit (NilEmpty.string_of_uint d) = true.
Proof. induction d; cbn; first [reflexivity | assumption]. Qed.

Lemma zeros_digits (k : nat) :
  PHRService.all_chars decimal_digit (PHRService.zeros k) = true.
Proof. induction k as [| k IH]; cbn; [reflexivity | exact IH]. Qed.

Lemma uint_of_zeros (k : nat) (s : string) (d : Decimal.uint) :
  NilEmpty.uint_of_string s = Some d ->
  exists d',
    NilEmpty.uint_of_string (PHRService.zeros k ++ s) = Some d'
    /\ Z.of_uint d' = Z.of_uint d.
Proof.
  intros Hs. induction k as [| k (d' & Hd' & Hz)]; [eauto |].
  exists (Decimal.D0 d'). cbn [PHRService.zeros String.append].
  cbn [NilEmpty.uint_of_string]. rewrite Hd'. split; [reflexivity | exact Hz].
Qed.

(** The decimal numeral of a natural number, with or without leading
    zeros, reads back as the number. *)
Lemma numeral_reads_back (n : Z) (k : nat) :
  (0 <= n)%Z ->
  let s := (PHRService.zeros k ++ PyStr.str_of_Z n)%string in
  PHRService.all_chars decimal_digit s = true
  /\ s <> ""
  /\ PHRService.int_of s = Some n.
Proof.
  intros Hn s. subst s.
  assert (Hd : exists d, d <> Decimal.Nil
                         /\ PyStr.str_of_Z n = NilEmpty.string_of_uint d
                         /\ Z.of_uint d = n).
  { unfold PyStr.str_of_Z. destruct n as [| p | p]; [| | lia].
    - exists (Decimal.D0 Decimal.Nil). repeat split. discriminate.
    - exists (Pos.to_uint p).
      pose proof (DecimalPos.Unsigned.to_uint_nonnil p) as Hnil.
      split; [exact Hnil |]. split.
      + cbn. destruct (Pos.to_uint p); [congruence | reflexivity ..].
      + unfold Z.of_uint. now rewrite DecimalPos.Unsigned.of_to. }
  destruct Hd as (d & Hnil & -> & Hval).
  assert (Hne : NilEmpty.string_of_uint d <> "")
    by (destruct d; [congruence | discriminate ..]).
  split; [| split].
  - now rewrite all_chars_app, zeros_digits, string_of_uint_digits.
  - destruct k; cbn; [exact Hne | discriminate].
  - destruct (uint_of_zeros k _ d (NilEmpty.usu d)) as (d' & Hd' & Hz).
    unfold PHRService.int_of, NilZero.uint_of_string.
    destruct (PHRService.zeros k ++ NilEmpty.string_of_uint d)%string eqn:Hs.
    + destruct k; cbn in Hs; [congruence | discriminate].
    + rewrite Hd'. congruence.
Qed.

Lemma before_dash_app (s rest : string) :
  PHRService.all_chars (fun c => negb (Ascii.eqb c "-")) s = true ->
  PHRService.before_dash (s ++ String "-" rest) = s.
Proof.
  induction s as [| c s IH];
    cbn [String.append PHRService.before_dash PHRService.all_chars];
    [reflexivity |].
  intros H. apply andb_true_iff in H as [Hc Hs].
  apply negb_true_iff in Hc. now rewrite Hc, IH.
Qed.

Lemma decimal_digit_facts (c : ascii) :
  decimal_digit c = true ->
  negb (Ascii.eqb c "-") = true /\ PHRService.isdigit_char c = true.
Proof.
  destruct c as [[] [] [] [] [] [] [] []]; vm_compute; intros H;
    first [split; reflexivity | discriminate H].
Qed.

(** The head of a generated name is the numeral of the new id. *)
Lemma generated_id (stage : PHRService.Stage) (title : string)
    (existing : list string) :
  (0 <= PHRService.max_id_of existing 0)%Z ->
  let name := PHRService.generate_phr_filename stage title existing in
  let new_id := (PHRService.max_id_of existing 0 + 1)%Z in
  PHRService.before_dash name = PHRService.format_04d new_id
  /\ PHRService.isdigit (PHRService.before_dash name) = true
  /\ PHRService.int_of (PHRService.before_dash name) = Some new_id.
Proof.
  intros Hmax name new_id. subst name new_id.
  unfold PHRService.generate_phr_filename, PHRService.format_04d.
  destruct (Z.ltb_spec (PHRService.max_id_of existing 0 + 1) 0); [lia |].
  unfold PHRService.zfill.
  destruct (numeral_reads_back (PHRService.max_id_of existing 0 + 1)
              (4 - String.length
                     (PyStr.str_of_Z (PHRService.max_id_of existing 0 + 1)))
              ltac:(lia)) as (Hdig & Hne & Hint).
  set (numeral := (PHRService.zeros _ ++ PyStr.str_of_Z _)%string) in *.
  assert (Hhead : PHRService.before_dash
                    (numeral ++ "-" ++ PHRService.slug_of title ++ "."
                     ++ PHRService.value stage ++ ".prompt.md")
                  = numeral).
  { apply before_dash_app.
    eapply all_chars_impl; [| exact Hdig].
    intros c Hc. apply (decimal_digit_facts c Hc). }
  rewrite Hhead. split; [reflexivity |]. split; [| exact Hint].
  unfold PHRService.isdigit. apply andb_true_iff. split.
  - apply negb_true_iff, String.eqb_neq. exact Hne.
  - eapply all_chars_impl; [| exact Hdig].
    intros c Hc. apply (decimal_digit_facts c Hc).
Qed.

Lemma max_id_of_bounds (existing : list string) :
  forall acc,
    (acc <= PHRService.max_id_of existing acc)%Z
    /\ forall f n,
         In f existing ->
         PHRService.isdigit (PHRService.before_dash f) = true ->
         PHRService.int_of (PHRService.before_dash f) = Some n ->
         (n <= PHRService.max_id_of existing acc)%Z.
Proof.
  induction existing as [| g rest IH]; intros acc;
    cbn [PHRService.max_id_of].
  - split; [lia | contradiction].
  - match goal with
    | |- context [PHRService.max_id_of rest ?a] =>
        destruct (IH a) as [Hacc Hall]; set (acc' := a) in *
    end.
    assert (Hle : (acc <= acc')%Z).
    { subst acc'. destruct (PHRService.isdigit _); [| lia].
      destruct (PHRService.int_of _); lia. }
    split; [lia |]. intros f n [<- | Hin] Hd Hi; [| eauto].
    assert (n <= acc')%Z by (subst acc'; rewrite Hd, Hi; lia). lia.
Qed.

Lemma max_id_of_attained (existing : list string) :
  forall acc,
    PHRService.max_id_of existing acc = acc
    \/ exists f,
         In f existing
         /\ PHRService.isdigit (PHRService.before_dash f) = true
         /\ PHRService.int_of (PHRService.before_dash f)
            = Some (PHRService.max_id_of existing acc).
Proof.
  induction existing as [| g rest IH]; intros acc;
    cbn [PHRService.max_id_of]; [now left |].
  destruct (PHRService.isdigit (PHRService.before_dash g)) eqn:Hd.
  2:{ destruct (IH acc) as [-> | (f & Hin & Hf)]; [now left |].
      right. exists f. split; [now right | exact Hf]. }
  destruct (PHRService.int_of (PHRService.before_dash g)) as [n |] eqn:Hi.
  2:{ destruct (IH acc) as [-> | (f & Hin & Hf)]; [now left |].
      right. exists f. split; [now right | exact Hf]. }
  destruct (IH (Z.max acc n)) as [Heq | (f & Hin & Hf)].
  - rewrite Heq. destruct (Z.max_spec acc n) as [[_ ->] | [_ ->]].
    + right. exists g. split; [now left |]. now rewrite Hd, Hi.
    + now left.
  - right. exists f. split; [now right | exact Hf].
Qed.

(** X18.  The file name [generate_phr_filename] returns is new: it is the
    name of no existing file of the directory.  Its head, which [create_phr]
    writes as the id of the record, is the zero-padded numeral of an id that
    reads back as a number greater than the numeric id of every existing
    file. *)
Theorem generated_filename_is_fresh
    (stage : PHRService.Stage) (title : string) (existing : list string) :
  let name := PHRService.generate_phr_filename stage title existing in
  let new_id := (PHRService.max_id_of existing 0 + 1)%Z in
  ~ In name existing
  /\ PHRService.phr_id_of name = PHRService.format_04d new_id
  /\ PHRService.int_of (PHRService.phr_id_of name) = Some new_id
  /\ forall f n,
       In f existing ->
       PHRService.isdigit (PHRService.before_dash f) = true ->
       PHRService.int_of (PHRService.before_dash f) = Some n ->
       (n < new_id)%Z.
Proof.
  intros name new_id. subst name new_id.
  destruct (max_id_of_bounds existing 0) as [H0 Hall].
  destruct (generated_id stage title existing H0) as (Hhead & Hdig & Hint).
  unfold PHRService.phr_id_of. split; [| split; [exact Hhead |]].
  - intros Hin. specialize (Hall _ _ Hin Hdig Hint). lia.
  - split; [exact Hint |]. intros f n Hin Hd Hi.
    specialize (Hall f n Hin Hd Hi). lia.
Qed.

(** X19.  Ids are consecutive: once the generated file is in the directory,
    beside the files that were there, the next id generated is the
    previous one plus 1, in whatever order the directory lists its files. *)
Theorem next_generated_id_follows
    (stage : PHRService.Stage) (title : string)
    (existing files : list string) :
  In (PHRService.generate_phr_filename stage title existing) files ->
  (forall f,
      In f files ->
      f = PHRService.generate_phr_filename stage title existing
      \/ In f existing) ->
  (PHRService.max_id_of files 0 + 1
   = (PHRService.max_id_of existing 0 + 1) + 1)%Z.
Proof.
  intros Hin Honly.
  destruct (max_id_of_bounds existing 0) as [H0 Hall].
  destruct (generated_id stage title existing H0) as (_ & Hdig & Hint).
  destruct (max_id_of_bounds files 0) as [_ Hfiles].
  pose proof (Hfiles _ _ Hin Hdig Hint) as Hlow.
  destruct (max_id_of_attained files 0) as [Hz | (f & Hf & Hd & Hi)];
    [lia |].
  destruct (Honly f Hf) as [-> | Hold].
  - rewrite Hint in Hi. injection Hi as Hi. lia.
  - specialize (Hall f _ Hold Hd Hi). lia.
Qed.

Lemma next_generated_id_follows_witness :
  (PHRService.max_id_of
     ["0041-old-notes.plan.prompt.md";
      PHRService.generate_phr_filename PHRService.SPEC "Chunk Window/Overlap"
        ["0041-old-notes.plan.prompt.md"; "README.prompt.md"];
      "README.prompt.md"] 0 + 1
   = (PHRService.max_id_of
        ["0041-old-notes.plan.prompt.md"; "README.prompt.md"] 0 + 1) + 1)%Z.
Proof.
  apply (next_generated_id_follows PHRService.SPEC "Chunk Window/Overlap"
           ["0041-old-notes.plan.prompt.md"; "README.prompt.md"]).
  - right. left. reflexivity.
  - intros f [<- | [<- | [<- | []]]].
    + right. left. reflexivity.
    + left. reflexivity.
    + right. right. left. reflexivity.
Defined.

Lemma endswith_refl (s : string) : PyText.endswith s s = true.
Proof. destruct s; cbn [PyText.endswith]; now rewrite String.eqb_refl. Qed.

Lemma endswith_app (a b : string) : PyText.endswith (a ++ b) b = true.
Proof.
  induction a as [| c a IH]; cbn [String.append]; [apply endswith_refl |].
  cbn [PyText.endswith]. rewrite IH. apply orb_true_r.
Qed.

Lemma generated_name_is_globbed
    (stage : PHRService.Stage) (title : string) (existing : list string) :
  PyText.endswith (PHRService.generate_phr_filename stage title existing)
    ".prompt.md" = true.
Proof.
  unfold PHRService.generate_phr_filename.
  rewrite <- !str_app_assoc. apply endswith_app.
Qed.

(** X20.  [create_phr] never writes over a file: in a directory that holds
    [entries], whatever they are, the name generated for the new record is
    the name of none of them. *)
Theorem new_record_overwrites_no_file
    (stage : PHRService.Stage) (title : string) (entries : list string) :
  ~ In (PHRFiles.new_filename stage title entries) entries.
Proof.
  unfold PHRFiles.new_filename. intros Hin.
  set (existing := PHRFiles.glob_prompt_md entries) in *.
  assert (Hglob :
    In (PHRService.generate_phr_filename stage title existing) existing).
  { unfold existing at 2. unfold PHRFiles.glob_prompt_md.
    apply filter_In. split; [exact Hin |].
    apply generated_name_is_globbed. }
  destruct (max_id_of_bounds existing 0) as [H0 Hall].
  destruct (generated_id stage title existing H0) as (_ & Hdig & Hint).
  specialize (Hall _ _ Hglob Hdig Hint). lia.
Qed.

Lemma payload_get_absent (p : payload) (key : string) (default : pyval) :
  ~ In key (map fst p) -> payload_get p key default = default.
Proof.
  induction p as [| [k v] p IH]; intros Hk; [reflexivity |].
  cbn [payload_get]. destruct (String.eqb_spec k key) as [-> | _].
  - exfalso. apply Hk. now left.
  - apply IH. intros H. apply Hk. now right.
Qed.

Lemma payload_get_set (p : payload) (k key : string) (v default : pyval) :
  payload_get (PyDict.set p k v) key default
  = if String.eqb k key then v else payload_get p key default.
Proof.
  induction p as [| [k0 v0] p IH]; cbn [PyDict.set payload_get].
  - reflexivity.
  - destruct (String.eqb_spec k0 k) as [-> | Hk0]; cbn [payload_get].
    + destruct (String.eqb_spec k key); reflexivity.
    + rewrite IH. destruct (String.eqb_spec k0 key) as [-> | _];
        [| reflexivity].
      destruct (String.eqb_spec k key) as [-> | _]; [congruence | reflexivity].
Qed.

Lemma payload_get_update (more : payload) :
  forall (p : payload) (key : string) (default : pyval),
    NoDup (map fst more) ->
    payload_get (PyDict.update p more) key default
    = payload_get more key (payload_get p key default).
Proof.
  unfold PyDict.update.
  induction more as [| [k v] more IH]; intros p key default Hnd;
    [reflexivity |].
  cbn [fold_left fst snd map] in *. inversion Hnd as [| ? ? Hk Hnd']; subst.
  rewrite IH by exact Hnd'. rewrite payload_get_set. cbn [payload_get].
  destruct (String.eqb_spec k key) as [-> | _]; [| reflexivity].
  now apply payload_get_absent.
Qed.

(** X21.  A chunk stored by [add_text_chunk] and found again by
    [search_similar]: the text of the source is the [text] entry of the
    metadata when the metadata has one, which then replaces the text of the
    chunk, and the text of the chunk otherwise; any other entry of the
    metadata comes back unchanged, and [doc_id] comes back as given by the
    metadata or else by the [doc_id] argument ([unknown] when there is
    none). *)
Theorem stored_chunk_comes_back
    (text : string) (metadata : payload) (doc_id : option string)
    (id : string) (score : Q) :
  NoDup (map fst metadata) ->
  let hit :=
    {| hit_id := id; hit_score := score;
       hit_payload := RAGStore.chunk_payload text metadata doc_id |} in
  let src := RAGService.to_source hit in
  src_text src = payload_get metadata "text" (VStr text)
  /\ (~ In "text" (map fst metadata) -> src_text src = VStr text)
  /\ forall key default,
       key <> "text" ->
       payload_get (src_metadata src) key default
       = payload_get metadata key
           (if String.eqb key "doc_id"
            then VStr (RAGStore.doc_id_or_unknown doc_id)
            else default).
Proof.
  intros Hnd hit src. subst src hit.
  unfold RAGService.to_source, RAGStore.chunk_payload.
  cbn [src_text src_metadata hit_payload].
  assert (Htext :
    payload_get
      (PyDict.update
         [("text", VStr text);
          ("doc_id", VStr (RAGStore.doc_id_or_unknown doc_id))] metadata)
      "text" (VStr "")
    = payload_get metadata "text" (VStr text)).
  { rewrite payload_get_update by exact Hnd. reflexivity. }
  split; [exact Htext |]. split.
  - intros Habs. rewrite Htext. now apply payload_get_absent.
  - intros key default Hkey. rewrite without_text_get by exact Hkey.
    rewrite payload_get_update by exact Hnd. f_equal.
    cbn [payload_get]. destruct (String.eqb_spec "text" key) as [<- | _];
      [congruence |].
    rewrite String.eqb_sym. reflexivity.
Qed.

Lemma stored_chunk_comes_back_witness :
  let src :=
    RAGService.to_source
      {| hit_id := "c0ffee"; hit_score := 3 # 4;
         hit_payload :=
           RAGStore.chunk_payload "ROS 2 nodes exchange messages."
             [("module", VStr "ros2"); ("text", VStr "override")] None |} in
  src_text src = VStr "override"
  /\ payload_get (src_metadata src) "doc_id" (VStr "") = VStr "unknown".
Proof.
  assert (Hnd : NoDup (map fst [("module", VStr "ros2");
                                ("text", VStr "override")])).
  { cbn. repeat constructor; cbn; intuition discriminate. }
  destruct (stored_chunk_comes_back "ROS 2 nodes exchange messages."
              [("module", VStr "ros2"); ("text", VStr "override")] None
              "c0ffee" (3 # 4) Hnd) as (Ht & _ & Hm).
  split; [exact Ht |]. apply (Hm "doc_id" (VStr "")). discriminate.
Defined.

Section UploadedPayloads.
Variables (W vector : Type).
Variable embeddings_create : string -> string -> W -> result vector * W.
Variable uuid4 : W -> string * W.

(** Whatever the providers answer, the points of a completed loop carry the
    payloads of the chunks, in order. *)
Lemma embed_chunks_payloads (chunks : list string) :
  forall file i points s points' s',
    SimpleUpload.embed_chunks W vector embeddings_create uuid4 file i chunks
      points s = (Ok points', s') ->
    map (SimpleUpload.point_payload vector) points'
    = map (SimpleUpload.point_payload vector) points
      ++ RAGStore.uploaded_payloads file i chunks.
Proof.
  induction chunks as [| chunk rest IH]; intros file i points s points' s';
    cbn [SimpleUpload.embed_chunks RAGStore.uploaded_payloads].
  - unfold ret. intros H. injection H as <- _. now rewrite app_nil_r.
  - unfold bind at 1. unfold provider at 1.
    destruct (embeddings_create "text-embedding-3-small" chunk (ext s))
      as [[v | e] w1]; [| discriminate].
    unfold bind at 1. unfold local_effect at 1. cbn [ext calls].
    destruct (uuid4 w1) as [uid w2].
    intros H. apply IH in H. rewrite H, map_app, <- app_assoc. reflexivity.
Qed.

End UploadedPayloads.

Lemma uploaded_payloads_In (file : SimpleUpload.Path) (chunks : list string) :
  forall i p,
    In p (RAGStore.uploaded_payloads file i chunks) ->
    exists chunk j,
      In chunk chunks
      /\ p = [("text", VStr chunk); ("doc_id", VStr (SimpleUpload.stem file));
              ("file", VStr (SimpleUpload.name file));
              ("chunk_index", VInt j)].
Proof.
  induction chunks as [| chunk rest IH]; intros i p Hin;
    cbn [RAGStore.uploaded_payloads] in Hin; [destruct Hin |].
  destruct Hin as [<- | Hin].
  - exists chunk, i. split; [now left | reflexivity].
  - destruct (IH _ _ Hin) as (c & j & Hc & ->).
    exists c, j. split; [now right | reflexivity].
Qed.

(** X22.  A chunk uploaded by [simple_upload.py] and retrieved by the
    [/query] endpoint: its payload has no [module] entry, so the endpoint
    labels it [[Source i ]] with an empty source information, gives its
    chunk as the text of the source, and returns as metadata the entries
    [doc_id], [file] and [chunk_index]. *)
Theorem uploaded_chunk_has_no_module_label
    (W vector : Type)
    (embeddings_create : string -> string -> W -> result vector * W)
    (uuid4 : W -> string * W)
    (file : SimpleUpload.Path) (chunks : list string) (s s' : world W)
    (points : list (SimpleUpload.PointStruct vector))
    (point : SimpleUpload.PointStruct vector) (hit : ScoredPoint) :
  SimpleUpload.embed_chunks W vector embeddings_create uuid4 file 0 chunks
    [] s = (Ok points, s') ->
  In point points ->
  hit_payload hit = SimpleUpload.point_payload vector point ->
  exists chunk,
    In chunk chunks
    /\ Main.source_info (hit_payload hit) = ""
    /\ (forall i,
          Main.context_part i hit
          = ("[Source " ++ PyStr.str_of_Z i ++ " ]: " ++ chunk)%string)
    /\ src_text (Main.to_source hit) = VStr chunk
    /\ map fst (src_metadata (Main.to_source hit))
       = ["doc_id"; "file"; "chunk_index"].
Proof.
  intros Hrun Hin Hhit.
  apply embed_chunks_payloads in Hrun. cbn [map app] in Hrun.
  assert (Hp : In (SimpleUpload.point_payload vector point)
                 (RAGStore.uploaded_payloads file 0 chunks)).
  { rewrite <- Hrun. now apply in_map. }
  apply uploaded_payloads_In in Hp as (chunk & j & Hc & Hp).
  exists chunk. split; [exact Hc |].
  unfold Main.context_part, Main.to_source. rewrite Hhit, Hp.
  repeat split.
Qed.

Lemma uploaded_chunk_has_no_module_label_witness :
  exists chunk,
    In chunk ["ROS 2 nodes"; "exchange messages"]
    /\ Main.source_info (hit_payload (Doubles.hit (3 # 4) "ROS 2 nodes")) = ""
    /\ (forall i,
          Main.context_part i (Doubles.hit (3 # 4) "ROS 2 nodes")
          = ("[Source " ++ PyStr.str_of_Z i ++ " ]: " ++ chunk)%string)
    /\ src_text (Main.to_source (Doubles.hit (3 # 4) "ROS 2 nodes"))
       = VStr chunk
    /\ map fst (src_metadata (Main.to_source
                                (Doubles.hit (3 # 4) "ROS 2 nodes")))
       = ["doc_id"; "file"; "chunk_index"].
Proof.
  apply (uploaded_chunk_has_no_module_label unit unit Doubles.embed_ok
           Doubles.uuid4 (Doubles.mdx "intro")
           ["ROS 2 nodes"; "exchange messages"] Doubles.start
           {| ext := tt;
              calls :=
                map (EmbeddingsCreate "text-embedding-3-small")
                  ["ROS 2 nodes"; "exchange messages"] |}
           [ {| SimpleUpload.id := "c0ffee"; SimpleUpload.point_vector := tt;
                SimpleUpload.point_payload :=
                  hit_payload (Doubles.hit (3 # 4) "ROS 2 nodes") |};
             {| SimpleUpload.id := "c0ffee"; SimpleUpload.point_vector := tt;
                SimpleUpload.point_payload :=
                  [("text", VStr "exchange messages");
                   ("doc_id", VStr "intro"); ("file", VStr "intro.mdx");
                   ("chunk_index", VInt 1)] |} ]
           {| SimpleUpload.id := "c0ffee"; SimpleUpload.point_vector := tt;
              SimpleUpload.point_payload :=
                hit_payload (Doubles.hit (3 # 4) "ROS 2 nodes") |}).
  - vm_compute. reflexivity.
  - left. reflexivity.
  - reflexivity.
Defined.

(** ** The record endpoints *)

Lemma Stage_of_sound (x : string) (stage : PHRService.Stage) :
  PHRService.Stage_of x = Some stage -> PHRService.value stage = x.
Proof.
  unfold PHRService.Stage_of. intros H. apply find_some in H as [_ H].
  now apply String.eqb_eq.
Qed.

(** X23.  [create_phr] of [main.py] answers a stage name that is no stage
    with the status 500, not 400, and without calling the record service:
    its own [HTTPException] is caught by its handler, and every failure of
    the endpoint has the status 500.  A response carries the stage in its
    canonical form, the lower-cased name of the request, which is then one
    of the ten values. *)
Theorem create_phr_hides_invalid_stage
    (W : Type)
    (service_create_phr :
       PHREndpoints.PHRCreateRequest -> PHRService.Stage -> string -> W
       -> result string * W)
    (request : PHREndpoints.PHRCreateRequest) (email : string)
    (s : world W) :
  let out :=
    PHREndpoints.create_phr W service_create_phr request email s in
  let name := PyStr.lower (PHREndpoints.stage request) in
  (PHRService.Stage_of name = None ->
   (exists detail, fst out = Raise (HTTPException 500 detail))
   /\ snd out = s)
  /\ (forall e,
        fst out = Raise e -> exists detail, e = HTTPException 500 detail)
  /\ (forall r,
        fst out = Ok r ->
        In name (map PHRService.value PHRService.stages)
        /\ PyDict.get r "stage" = Some name
        /\ PyDict.get r "title" = Some (PHREndpoints.title request)).
Proof.
  intros out name. subst out name.
  unfold PHREndpoints.create_phr, PHREndpoints.create_phr_body, Files.fs.
  run.
  destruct (PHRService.Stage_of (PyStr.lower (PHREndpoints.stage request)))
    as [stage |] eqn:Hstage.
  - destruct (service_create_phr request stage email (ext s))
      as [[file_path | e] w1]; cbn [fst snd].
    + split; [discriminate |]. split; [discriminate |].
      intros r Hr. injection Hr as <-.
      pose proof (Stage_of_sound _ _ Hstage) as Hv.
      split; [rewrite <- Hv; apply in_map; destruct stage; cbn; tauto |].
      cbn. rewrite Hv. split; reflexivity.
    + split; [discriminate |]. split; [| discriminate].
      intros e' He'. injection He' as <-. eexists. reflexivity.
  - cbn [fst snd]. split; [intros _; split; [eexists |]; reflexivity |].
    split; [| discriminate].
    intros e He. injection He as <-. eexists. reflexivity.
Qed.

(** X24.  [get_phr] never answers 404: when the record cannot be loaded its
    own [HTTPException] 404 is caught by its handler and leaves as a 500.
    The endpoint fails exactly when the record does not load, and otherwise
    returns the dictionary of the loaded record. *)
Theorem get_phr_hides_missing_record
    (W : Type) (load_phr : string -> W -> option PHRData.PHR * W)
    (file_path : string) (s : world W) :
  let out := PHREndpoints.get_phr W load_phr file_path s in
  (forall e,
      fst out = Raise e ->
      fst (load_phr file_path (ext s)) = None
      /\ exists detail, e = HTTPException 500 detail)
  /\ (forall r,
        fst out = Ok r ->
        exists phr,
          fst (load_phr file_path (ext s)) = Some phr
          /\ r = PHREndpoints.phr_response phr)
  /\ (fst (load_phr file_path (ext s)) = None ->
      exists detail, fst out = Raise (HTTPException 500 detail))
  /\ calls (snd out) = calls s.
Proof.
  intros out. subst out.
  unfold PHREndpoints.get_phr, PHREndpoints.get_phr_body, Files.fs. run.
  destruct (load_phr file_path (ext s)) as [[phr |] w1]; cbn [fst snd calls].
  - split; [discriminate |]. split.
    + intros r Hr. injection Hr as <-. exists phr. split; reflexivity.
    + split; [discriminate | reflexivity].
  - split.
    + intros e He. injection He as <-. split; [reflexivity |].
      eexists. reflexivity.
    + split; [discriminate |]. split; [| reflexivity].
      intros _. eexists. reflexivity.
Qed.

(** ** The content endpoints *)

Lemma startswith_app (root rest : string) :
  PyText.startswith (root ++ rest) root = true.
Proof.
  unfold PyText.startswith.
  induction root as [| c root IH]; cbn [String.append String.prefix].
  - destruct rest; reflexivity.
  - destruct (ascii_dec c c) as [_ | Hc]; [exact IH | congruence].
Qed.

(** X25.  [get_doc_content] reads at most one file, and only one whose
    resolved path begins with the resolved root of the documents; a
    response is returned only after this read, and carries the path of the
    request and the content read. *)
Theorem get_doc_content_reads_under_root_only
    (W : Type)
    (resolve_doc : string -> W -> result string * W)
    (resolve_root : W -> result string * W)
    (path_exists : string -> W -> result bool * W)
    (read : string -> W -> result string * W)
    (file_path : string) (s : world W) :
  let out :=
    Content.get_doc_content W resolve_doc resolve_root path_exists read
      file_path s in
  (calls (snd out) = calls s
   \/ exists doc_path docs_root w1 w2,
        resolve_doc file_path (ext s) = (Ok doc_path, w1)
        /\ resolve_root w1 = (Ok docs_root, w2)
        /\ PyText.startswith doc_path docs_root = true
        /\ calls (snd out) = calls s ++ [ReadText doc_path])
  /\ forall r,
       fst out = Ok r ->
       exists doc_path,
         calls (snd out) = calls s ++ [ReadText doc_path]
         /\ PyDict.get r "path" = Some file_path
         /\ exists w content w',
              read doc_path w = (Ok content, w')
              /\ PyDict.get r "content" = Some content.
Proof.
  intros out. subst out.
  unfold Content.get_doc_content, Content.get_doc_content_body, Files.fs.
  run.
  destruct (resolve_doc file_path (ext s)) as [[doc_path | e1] w1] eqn:H1;
    cbn [ext calls fst snd].
  2: { destruct e1; cbn [fst snd calls];
         (split; [left; reflexivity | discriminate]). }
  destruct (resolve_root w1) as [[docs_root | e2] w2] eqn:H2;
    cbn [ext calls fst snd].
  2: { destruct e2; cbn [fst snd calls];
         (split; [left; reflexivity | discriminate]). }
  destruct (PyText.startswith doc_path docs_root) eqn:Hguard;
    cbn [negb ext calls fst snd].
  2: { split; [left; reflexivity | discriminate]. }
  destruct (path_exists doc_path w2) as [[[|] | e3] w3] eqn:H3;
    cbn [negb ext calls fst snd].
  - destruct (read doc_path w3) as [[content | e4] w4] eqn:H4;
      cbn [ext calls fst snd].
    + split.
      * right. exists doc_path, docs_root, w1, w2. repeat split; assumption.
      * intros r Hr. injection Hr as <-. exists doc_path.
        split; [reflexivity |]. split; [reflexivity |].
        exists w3, content, w4. split; [exact H4 | reflexivity].
    + destruct e4; cbn [fst snd calls];
        (split; [| discriminate]); right;
        exists doc_path, docs_root, w1, w2; repeat split; assumption.
  - split; [left; reflexivity | discriminate].
  - destruct e3; cbn [fst snd calls];
      (split; [left; reflexivity | discriminate]).
Qed.

(** X26.  Unlike the record endpoints, [get_doc_content] lets its own
    statuses through: a resolved path that does not begin with the root is
    answered 403 before the file system is asked whether the file exists,
    and a path under the root that does not exist is answered 404; in both
    cases nothing is read. *)
Theorem get_doc_content_keeps_403_and_404
    (W : Type)
    (resolve_doc : string -> W -> result string * W)
    (resolve_root : W -> result string * W)
    (path_exists : string -> W -> result bool * W)
    (read : string -> W -> result string * W)
    (file_path : string) (s : world W)
    (doc_path docs_root : string) (w1 w2 : W) :
  resolve_doc file_path (ext s) = (Ok doc_path, w1) ->
  resolve_root w1 = (Ok docs_root, w2) ->
  let out :=
    Content.get_doc_content W resolve_doc resolve_root path_exists read
      file_path s in
  (PyText.startswith doc_path docs_root = false ->
   out = (Raise (HTTPException 403 "Access denied"),
          {| ext := w2; calls := calls s |}))
  /\ (PyText.startswith doc_path docs_root = true ->
      forall w3,
        path_exists doc_path w2 = (Ok false, w3) ->
        out = (Raise (HTTPException 404 "Documentation file not found"),
               {| ext := w3; calls := calls s |})).
Proof.
  intros H1 H2 out. subst out.
  unfold Content.get_doc_content, Content.get_doc_content_body, Files.fs.
  run. rewrite H1. cbn [ext calls]. rewrite H2. cbn [ext calls].
  split.
  - intros ->. reflexivity.
  - intros -> w3 H3. cbn [negb ext calls]. rewrite H3. reflexivity.
Qed.

Lemma get_doc_content_keeps_403_and_404_witness :
  Content.get_doc_content unit FileDoubles.resolve_doc
    FileDoubles.resolve_root FileDoubles.path_exists FileDoubles.read
    "../.env" FileDoubles.start
  = (Raise (HTTPException 403 "Access denied"), FileDoubles.start).
Proof.
  apply (get_doc_content_keeps_403_and_404 unit FileDoubles.resolve_doc
           FileDoubles.resolve_root FileDoubles.path_exists FileDoubles.read
           "../.env" FileDoubles.start "/srv/app/.env" "/srv/app/docs" tt tt);
    reflexivity.
Defined.

(** X27.  The guard of [get_doc_content] compares texts, not paths: a
    resolved path made of the text of the root followed by anything, a
    separator or not, passes it, and when the file exists its content is
    read and returned. *)
Theorem get_doc_content_guard_is_textual
    (W : Type)
    (resolve_doc : string -> W -> result string * W)
    (resolve_root : W -> result string * W)
    (path_exists : string -> W -> result bool * W)
    (read : string -> W -> result string * W)
    (file_path : string) (s : world W)
    (docs_root rest content : string) (w1 w2 w3 w4 : W) :
  resolve_doc file_path (ext s) = (Ok (docs_root ++ rest)%string, w1) ->
  resolve_root w1 = (Ok docs_root, w2) ->
  path_exists (docs_root ++ rest)%string w2 = (Ok true, w3) ->
  read (docs_root ++ rest)%string w3 = (Ok content, w4) ->
  Content.get_doc_content W resolve_doc resolve_root path_exists read
    file_path s
  = (Ok [("path", file_path);
         ("content", content);
         ("type",
          if PyText.endswith file_path ".md"
             || PyText.endswith file_path ".mdx"
          then "markdown" else "text")],
     {| ext := w4;
        calls := calls s ++ [ReadText (docs_root ++ rest)%string] |}).
Proof.
  intros H1 H2 H3 H4.
  unfold Content.get_doc_content, Content.get_doc_content_body, Files.fs.
  run. rewrite H1. cbn [ext calls]. rewrite H2. cbn [ext calls].
  rewrite startswith_app. cbn [negb ext calls]. rewrite H3.
  cbn [negb ext calls].
  rewrite H4. reflexivity.
Qed.

Lemma get_doc_content_guard_is_textual_witness :
  Content.get_doc_content unit FileDoubles.resolve_doc
    FileDoubles.resolve_root FileDoubles.path_exists FileDoubles.read
    "../docs-internal/keys.md" FileDoubles.start
  = (Ok [("path", "../docs-internal/keys.md"); ("content", "# Notes");
         ("type", "markdown")],
     {| ext := tt; calls := [ReadText "/srv/app/docs-internal/keys.md"] |}).
Proof.
  apply (get_doc_content_guard_is_textual unit FileDoubles.resolve_doc
           FileDoubles.resolve_root FileDoubles.path_exists FileDoubles.read
           "../docs-internal/keys.md" FileDoubles.start
           "/srv/app/docs" "-internal/keys.md" "# Notes" tt tt tt tt);
    reflexivity.
Defined.

(** ** The preview of a listed record *)

Lemma take_length_exact (n : nat) :
  forall s, (n <= String.length s)%nat ->
            String.length (PHRService.take n s) = n.
Proof.
  induction n as [| n IH]; intros [| c s] H; cbn in *; try lia.
  rewrite IH; lia.
Qed.

Lemma take_take_app (n : nat) :
  forall s x,
    (n <= String.length s)%nat ->
    PHRService.take n (PHRService.take n s ++ x) = PHRService.take n s.
Proof.
  induction n as [| n IH]; intros [| c s] x H; cbn in *;
    try lia; try reflexivity.
  rewrite IH; [reflexivity | lia].
Qed.

(** X28.  The preview of a listed record has at most 103 characters and
    begins like the prompt: its first 100 characters are those of the
    prompt.  A prompt of more than 100 characters always gives a preview of
    103 characters, which is longer than a prompt of 101 or 102
    characters. *)
Theorem preview_is_bounded (prompt_text : string) :
  (PyStr.len (PHRService.preview prompt_text) <= 103)%Z
  /\ PHRService.take 100 (PHRService.preview prompt_text)
     = PHRService.take 100 prompt_text
  /\ ((100 < PyStr.len prompt_text)%Z ->
      PyStr.len (PHRService.preview prompt_text) = 103%Z)
  /\ ((PyStr.len prompt_text <= 100)%Z ->
      PHRService.preview prompt_text = prompt_text).
Proof.
  unfold PHRService.preview, PyStr.len.
  destruct (Z.ltb_spec 100 (Z.of_nat (String.length prompt_text)))
    as [Hlong | Hshort].
  - assert (Hlen : String.length (PHRService.take 100 prompt_text) = 100%nat)
      by (apply take_length_exact; lia).
    rewrite str_length_app, Hlen. cbn [String.length].
    repeat split; try lia.
    apply take_take_app. lia.
  - repeat split; try lia.
Qed.

(** ** The validator of the sign-up request *)

Section DictFacts.
Context {V : Type}.

Lemma dict_get_set (d : PyDict.dict V) (k key : string) (v : V) :
  PyDict.get (PyDict.set d k v) key
  = if String.eqb k key then Some v else PyDict.get d key.
Proof.
  induction d as [| [k0 v0] d IH]; cbn [PyDict.set PyDict.get].
  - reflexivity.
  - destruct (String.eqb_spec k0 k) as [-> | Hk0]; cbn [PyDict.get].
    + destruct (String.eqb_spec k key); reflexivity.
    + rewrite IH. destruct (String.eqb_spec k0 key) as [-> | _];
        [| reflexivity].
      destruct (String.eqb_spec k key) as [-> | _]; [congruence | reflexivity].
Qed.

Lemma dict_get_pop (d : PyDict.dict V) (k key : string) :
  PyDict.get (PyDict.pop d k) key
  = if String.eqb k key then None else PyDict.get d key.
Proof.
  unfold PyDict.pop.
  induction d as [| [k0 v0] d IH]; cbn [filter PyDict.get fst].
  - destruct (String.eqb k key); reflexivity.
  - destruct (String.eqb_spec k0 k) as [-> | Hk0]; cbn [negb PyDict.get].
    + rewrite IH. destruct (String.eqb_spec k key); reflexivity.
    + rewrite IH. destruct (String.eqb_spec k0 key) as [-> | _];
        [| reflexivity].
      destruct (String.eqb_spec k key) as [-> | _]; [congruence | reflexivity].
Qed.

Lemma dict_contains_get (d : PyDict.dict V) (key : string) :
  PyDict.contains d key
  = match PyDict.get d key with Some _ => true | None => false end.
Proof.
  unfold PyDict.contains.
  induction d as [| [k0 v0] d IH]; cbn [existsb PyDict.get fst];
    [reflexivity |].
  destruct (String.eqb k0 key); [reflexivity | exact IH].
Qed.

End DictFacts.

(** X29.  What [extract_name] returns always has a [name] entry.  A
    [full_name] with a true value replaces the [name], given or not, and is
    removed; otherwise the dictionary is returned as it is.  Every other
    entry is left alone, and the validator raises exactly when there is
    neither a [full_name] with a true value nor a [name] entry. *)
Theorem extract_name_result (values : PyDict.dict UserSignup.json) :
  let full :=
    match PyDict.get values "full_name" with
    | Some v => UserSignup.truthy v
    | None => false
    end in
  match UserSignup.extract_name values with
  | Ok values' =>
      PyDict.contains values' "name" = true
      /\ (full = true ->
          PyDict.get values' "name" = PyDict.get values "full_name"
          /\ PyDict.get values' "full_name" = None)
      /\ (full = false -> values' = values)
      /\ forall key,
           key <> "name" -> key <> "full_name" ->
           PyDict.get values' key = PyDict.get values key
  | Raise _ => full = false /\ PyDict.contains values "name" = false
  end.
Proof.
  intros full. subst full. unfold UserSignup.extract_name.
  destruct (PyDict.get values "full_name") as [v |] eqn:Hfull.
  - destruct (UserSignup.truthy v) eqn:Hv.
    + rewrite dict_contains_get, !dict_get_pop, dict_get_set. cbn.
      repeat split; try discriminate.
      intros key Hn Hf. rewrite dict_get_pop, dict_get_set.
      destruct (String.eqb_spec "full_name" key) as [<- | _];
        [congruence |].
      destruct (String.eqb_spec "name" key) as [<- | _];
        [congruence | reflexivity].
    + destruct (PyDict.contains values "name") eqn:Hname; cbn [negb].
      * repeat split; try discriminate. exact Hname.
      * split; reflexivity.
  - destruct (PyDict.contains values "name") eqn:Hname; cbn [negb].
    + repeat split; try discriminate. exact Hname.
    + split; reflexivity.
Qed.
